(** * ClawDBot Studio: the connection orchestrator of the Electron main process

    A shallow embedding of the main-process script (in this checkout it
    follows the preload script in [electron/preload.cjs]): endpoint
    normalisation, payload reconciliation, HTTP probing, the WebSocket
    session, the action dispatcher, the log facade and the environment
    checks of the setup page, with the properties proved about them.

    Conventions.
    - A JavaScript number is an IEEE-754 binary64 value: Rocq's primitive
      [float].
    - A JavaScript string is a [string] whose characters are its code units
      (the model covers code units below 256).
    - [undefined] is [None] at type [option JSValue]; [null] is [JNull].
    - Built-ins whose full definition lives in the language runtime
      ([Number] on strings, [JSON.parse], [new URL], case mapping, ...) are
      the fields of the class [JSRuntime]; everything the repository itself
      defines is a Rocq function named after its source function.
    - The mutable module-level variables of the source are the fields of
      [World]; an operation is a function in the state monad [M].
    - An [async] function runs to completion in one turn: what the event
      loop could interleave at its [await]s is a turn of its own, before or
      after it (see [step]). The close listener of the socket, whose second
      half reads a flag that other turns write, is split in two, and
      [performBotAction], which reads the cached snapshot again after its
      [await]s, in three.
    - [String] and [Number] throw a [TypeError] on an object that has no
      primitive value. The functions of [Studio] describe the runs in which
      every conversion returns; [Exact] has the reconciler and [saveConfig]
      with the error.
    - The wall clock never runs backwards: a request takes a time in [N].
    - The commands that the setup page runs and the paths it looks up are
      answered by a [Machine]. *)

From Stdlib Require Import Floats ZArith String Ascii Bool Lia DecimalString.
From stdpp Require Import base list.

#[local] Set Warnings "-inexact-float,-register-all".

Declare Scope js_scope.
Delimit Scope js_scope with js.
Infix "+++" := String.append (at level 60, right associativity) : js_scope.
#[local] Open Scope string_scope.
#[local] Open Scope list_scope.
#[local] Open Scope js_scope.

(** ** JavaScript values *)

Module JS.

Inductive JSValue : Type :=
| JNull
| JBool (b : bool)
| JNum (n : float)
| JStr (s : string)
| JArr (items : list JSValue)
| JObj (props : list (string * JSValue)).

(** Own-property lookup of an object literal; a later binding of a key
    overrides an earlier one, as [JSON.parse] does. *)
Fixpoint lookupProp (key : string) (props : list (string * JSValue)) : option JSValue :=
  match props with
  | [] => None
  | (k, v) :: rest =>
      match lookupProp key rest with
      | Some v' => Some v'
      | None => if String.eqb k key then Some v else None
      end
  end.

(** [v.key]: [undefined] on anything but an object that has the key. *)
Definition getProp (v : JSValue) (key : string) : option JSValue :=
  match v with
  | JObj props => lookupProp key props
  | _ => None
  end.

(** [a ?? b] *)
Definition coalesce (a b : option JSValue) : option JSValue :=
  match a with
  | None | Some JNull => b
  | Some _ => a
  end.

Definition isArray (v : JSValue) : bool :=
  match v with JArr _ => true | _ => false end.

(** [typeof v === "object"] (true of [null], arrays and objects). *)
Definition typeofObject (v : JSValue) : bool :=
  match v with JNull | JArr _ | JObj _ => true | _ => false end.

Definition typeofString (v : option JSValue) : bool :=
  match v with Some (JStr _) => true | _ => false end.

Definition isEmpty (s : string) : bool :=
  match s with EmptyString => true | _ => false end.

(** ToBoolean *)
Definition truthy (v : JSValue) : bool :=
  match v with
  | JNull => false
  | JBool b => b
  | JNum n => negb (PrimFloat.is_nan n || PrimFloat.is_zero n)
  | JStr s => negb (isEmpty s)
  | JArr _ | JObj _ => true
  end.

Definition truthyOpt (v : option JSValue) : bool :=
  match v with Some x => truthy x | None => false end.

(** [a || b] on a defined left operand. *)
Definition orElse (a b : JSValue) : JSValue := if truthy a then a else b.

(** *** Numbers *)

Definition Number_isFinite (x : float) : bool := PrimFloat.is_finite x.

(** [Math.min] and [Math.max] of two arguments: NaN is contagious and
    [-0] is below [+0]. *)
Definition Math_min (a b : float) : float :=
  if PrimFloat.is_nan a || PrimFloat.is_nan b then PrimFloat.nan
  else if PrimFloat.ltb a b then a
  else if PrimFloat.ltb b a then b
  else if PrimFloat.get_sign a then a else b.

Definition Math_max (a b : float) : float :=
  if PrimFloat.is_nan a || PrimFloat.is_nan b then PrimFloat.nan
  else if PrimFloat.ltb a b then b
  else if PrimFloat.ltb b a then a
  else if PrimFloat.get_sign a then b else a.

(** *** Strings *)

Definition code (c : ascii) : N := N_of_ascii c.

(** WhiteSpace and LineTerminator code units below 256:
    TAB, LF, VT, FF, CR, SP and NBSP. *)
Definition isWhiteSpace (c : ascii) : bool :=
  let n := code c in
  ((9 <=? n) && (n <=? 13) || (n =? 32) || (n =? 160))%N.

Fixpoint trimStart (s : string) : string :=
  match s with
  | String c rest => if isWhiteSpace c then trimStart rest else s
  | EmptyString => EmptyString
  end.

Definition reverse (s : string) : string :=
  string_of_list_ascii (rev (list_ascii_of_string s)).

Definition trimEnd (s : string) : string := reverse (trimStart (reverse s)).

Definition trim (s : string) : string := trimEnd (trimStart s).

(** ASCII letters compare case-insensitively as under a regular
    expression's [i] flag; no other code unit matches a letter. *)
Definition lowerAscii (c : ascii) : ascii :=
  let n := code c in
  if ((65 <=? n) && (n <=? 90))%N then ascii_of_N (n + 32) else c.

Definition eqCI (a b : ascii) : bool := Ascii.eqb (lowerAscii a) (lowerAscii b).

Definition isDigit (c : ascii) : bool :=
  let n := code c in ((48 <=? n) && (n <=? 57))%N.

(** [s] starts with [p], each code unit compared with [eq]. *)
Fixpoint prefixBy (eq : ascii -> ascii -> bool) (p s : string) : bool :=
  match p, s with
  | EmptyString, _ => true
  | String a p', String b s' => eq a b && prefixBy eq p' s'
  | String _ _, EmptyString => false
  end.

Definition startsWith (s p : string) : bool := prefixBy Ascii.eqb p s.

Fixpoint dropChars (n : nat) (s : string) : string :=
  match n, s with
  | S n', String _ s' => dropChars n' s'
  | _, _ => s
  end.

Fixpoint dropWhile (p : ascii -> bool) (s : string) : string :=
  match s with
  | String c rest => if p c then dropWhile p rest else s
  | EmptyString => EmptyString
  end.

Definition isSlash (c : ascii) : bool := Ascii.eqb c "/".

(** [s.replace(/\/+$/, "")] *)
Definition stripTrailingSlashes (s : string) : string :=
  reverse (dropWhile isSlash (reverse s)).

Definition endsWithSlash (s : string) : bool :=
  match rev (list_ascii_of_string s) with
  | c :: _ => isSlash c
  | [] => false
  end.

(** [s.replace(/^\/+/, "")] *)
Definition stripLeadingSlashes (s : string) : string := dropWhile isSlash s.

(** [/^https?:\/\//i.test(s)] *)
Definition hasHttpScheme (s : string) : bool :=
  prefixBy eqCI "http://" s || prefixBy eqCI "https://" s.

(** [/^wss?:\/\//i.test(s)] *)
Definition hasWsScheme (s : string) : bool :=
  prefixBy eqCI "ws://" s || prefixBy eqCI "wss://" s.

(** [s.replace(/^http/i, "ws")] *)
Definition replaceHttpByWs (s : string) : string :=
  if prefixBy eqCI "http" s then "ws" +++ dropChars 4 s else s.

(** [/^\[\d{4}-\d{2}-\d{2}T/.test(s)] *)
Definition hasIsoStampPrefix (s : string) : bool :=
  match list_ascii_of_string s with
  | b :: y1 :: y2 :: y3 :: y4 :: d1 :: m1 :: m2 :: d2 :: a1 :: a2 :: t :: _ =>
      Ascii.eqb b "[" && isDigit y1 && isDigit y2 && isDigit y3 && isDigit y4
      && Ascii.eqb d1 "-" && isDigit m1 && isDigit m2
      && Ascii.eqb d2 "-" && isDigit a1 && isDigit a2 && Ascii.eqb t "T"
  | _ => false
  end.

Definition isCR (c : ascii) : bool := (code c =? 13)%N.
Definition isLF (c : ascii) : bool := (code c =? 10)%N.

(** [s.split("\n")]: [acc] is the current piece, reversed. *)
Fixpoint splitNewlineFrom (acc : list ascii) (s : string) : list string :=
  match s with
  | EmptyString => [string_of_list_ascii (rev acc)]
  | String c rest =>
      if isLF c then string_of_list_ascii (rev acc) :: splitNewlineFrom [] rest
      else splitNewlineFrom (c :: acc) rest
  end.

Definition splitNewline (s : string) : list string := splitNewlineFrom [] s.

(** [s.split(/\r?\n/)]: a piece ends at every LF, and a CR directly before
    that LF belongs to the separator. *)
Fixpoint splitLinesFrom (acc : list ascii) (s : string) : list string :=
  match s with
  | EmptyString => [string_of_list_ascii (rev acc)]
  | String c rest =>
      if isLF c then
        let piece := match acc with
                     | r :: acc' => if isCR r then acc' else acc
                     | [] => acc
                     end in
        string_of_list_ascii (rev piece) :: splitLinesFrom [] rest
      else splitLinesFrom (c :: acc) rest
  end.

Definition splitLines (s : string) : list string := splitLinesFrom [] s.

Fixpoint joinWith (sep : string) (parts : list string) : string :=
  match parts with
  | [] => EmptyString
  | [p] => p
  | p :: rest => p +++ sep +++ joinWith sep rest
  end.

(** [xs.slice(-n)]: the last [n] elements ([-0] is [0]: the whole list). *)
Definition lastN {A} (n : nat) (xs : list A) : list A :=
  match n with
  | O => xs
  | S _ => drop (length xs - n) xs
  end.

Definition LF : string := String (ascii_of_N 10) EmptyString.

(** *** The host runtime *)

(** What [new URL(s)] exposes to the program. *)
Record URL := { protocol : string; host : string; pathname : string }.

Class JSRuntime := {
  (** [Number(s)] for a string [s] *)
  StringToNumber : string -> float;
  (** [String(n)] for a number [n] *)
  NumberToString : float -> string;
  (** [JSON.parse(s)]; [None] when it throws *)
  JSON_parse : string -> option JSValue;
  (** [JSON.stringify(v)] for an object or an array [v] *)
  JSON_stringify : JSValue -> string;
  (** [new URL(s)]; [None] when it throws *)
  URL_parse : string -> option URL;
  toLowerCase : string -> string;
  toUpperCase : string -> string;
  (** [new WebSocket(url)]: [None] when the socket is constructed,
      [Some e] when the constructor throws ([e] the message of the [Error]
      thrown, if it is one) *)
  WebSocket_throws : string -> option (option string);
  (** [new Date(t).toISOString()] for [t] milliseconds since the epoch *)
  toISOString : Z -> string;
}.

Section Conversions.
Context `{JSRuntime}.

(** The string that [String(v)] returns. On an object that has no
    primitive value [String] throws instead: [Exact.ToString] has both. *)
Fixpoint ToString (v : JSValue) : string :=
  match v with
  | JNull => "null"
  | JBool true => "true"
  | JBool false => "false"
  | JNum n => NumberToString n
  | JStr s => s
  | JArr items =>
      joinWith "," (map (fun x => match x with JNull => EmptyString | _ => ToString x end) items)
  | JObj _ => "[object Object]"
  end.

(** The number that [Number(v)] returns; [Exact.ToNumber] has the error
    that it throws instead on an object that has no primitive value. *)
Definition ToNumber (v : option JSValue) : float :=
  match v with
  | None => PrimFloat.nan
  | Some JNull => 0%float
  | Some (JBool true) => 1%float
  | Some (JBool false) => 0%float
  | Some (JNum n) => n
  | Some (JStr s) => StringToNumber s
  | Some (JArr items) => StringToNumber (ToString (JArr items))
  | Some (JObj _) => PrimFloat.nan
  end.

End Conversions.

End JS.

(** ** The data model of the main process *)

Module Studio.
Import JS.

Inductive BotStatus : Type := Idle | Running | Paused | Stopped.

Definition statusName (s : BotStatus) : string :=
  match s with
  | Idle => "idle"
  | Running => "running"
  | Paused => "paused"
  | Stopped => "stopped"
  end.

(** [runtimeState], and every snapshot handed to the renderer. *)
Record BotSnapshot := {
  status : BotStatus;
  queueDepth : float;
  jobsProcessed : float;
  successRate : float;
  activeWorkers : float;
  lastHeartbeat : string;
}.

Inductive ConnectionMode : Type := Local | Remote.

(** [connectionState]. The two timestamps are kept as instants; the source
    stores their ISO rendering. *)
Record ConnectionState := {
  mode : ConnectionMode;
  apiReachable : bool;
  apiEndpoint : string;
  apiLatencyMs : option Z;
  wsConnected : bool;
  wsEndpoint : string;
  lastCheck : option Z;
  lastEventAt : option Z;
  lastError : option string;
}.

(** The fields of the configuration object that the orchestrator reads.
    [readConfig] spreads the parsed file over [defaultConfig], so every
    field is present, with whatever JSON value the file gave it. *)
Record StudioConfig := {
  cfg_apiEndpoint : JSValue;
  cfg_wsEndpoint : JSValue;
  cfg_autoReconnect : JSValue;
  cfg_pollingIntervalMs : JSValue;
}.

Record ActionResult := {
  ok : bool;
  message : string;
  snapshot : BotSnapshot;
}.

(** *** The outside world *)

(** One call of [fetch]: the URL, the POST body when there is one, and the
    abort timeout. *)
Record Request := {
  req_url : string;
  req_body : option string;
  req_timeoutMs : Z;
}.

(** What the network does with a request: a response whose body could be
    read, or a rejection ([Some m] when it is an [Error] with message [m]). *)
Inductive NetResult : Type :=
| HttpResponse (httpStatus : Z) (body : string)
| NetFailure (errorMessage : option string).

Record NetReply := {
  net_elapsed : N;
  net_result : NetResult;
}.

(** The reply to the [n]-th request of the process. *)
Definition Network : Type := nat -> Request -> NetReply.

(** What [fetchEndpoint] resolves to. *)
Record FetchResult := {
  fr_ok : bool;
  fr_status : Z;
  fr_text : string;
  fr_data : JSValue;
  fr_error : option string;
}.

(** The socket held in [wsClient], with what its listeners close over. *)
Record WebSocketClient := {
  ws_id : nat;
  ws_endpoint : string;
}.

(** A reconnect timer that [setTimeout] has armed and that has neither
    fired nor been cleared. *)
Record ReconnectTimer := {
  timer_handle : nat;
  timer_delayMs : float;
  timer_config : StudioConfig;
}.

(** The module-level variables of the script and the parts of the
    environment it reads and writes. [configFile] is what [readConfig]
    returns: the configuration file, spread over [defaultConfig]. [remoteCache.snapshot], once set, is
    the very object [runtimeState] (see [mergeSnapshot]): the model keeps
    whether it is set. *)
Record World := {
  runtimeState : BotSnapshot;
  connectionState : ConnectionState;
  remoteCache_hasSnapshot : bool;
  remoteCache_logs : list string;
  wsClient : option WebSocketClient;
  wsReconnectTimer : option nat;
  manualWsDisconnect : bool;
  pendingTimers : list ReconnectTimer;
  nextHandle : nat;
  logsFile : option string;
  configFile : StudioConfig;
  clock : Z;
  requests : list Request;
}.

Definition defaultConfig : StudioConfig :=
  {| cfg_apiEndpoint := JStr "http://127.0.0.1:5050";
     cfg_wsEndpoint := JStr "";
     cfg_autoReconnect := JBool true;
     cfg_pollingIntervalMs := JNum 5000 |}.

Definition botLogSeed : list string :=
  [ "[BOOT] ClawDBot Studio session initialized";
    "[SYNC] Scheduler synced with 4 worker slots";
    "[QUEUE] Imported 18 tasks from latest profile";
    "[HEALTH] Last heartbeat within threshold" ]%string.

Definition healthPaths : list string :=
  [ "/health"; "/api/health"; "/status"; "/api/status"; "/" ]%string.
Definition snapshotPaths : list string :=
  [ "/snapshot"; "/api/snapshot"; "/bot/snapshot"; "/status"; "/api/status" ]%string.
Definition logsPaths : list string :=
  [ "/logs"; "/api/logs"; "/runtime/logs"; "/api/runtime/logs" ]%string.
Definition actionPaths : list string :=
  [ "/action"; "/api/action"; "/control/action"; "/api/control/action" ]%string.

(** *** Field updates *)

Definition set_status v (s : BotSnapshot) : BotSnapshot :=
  {| status := v; queueDepth := queueDepth s; jobsProcessed := jobsProcessed s;
     successRate := successRate s; activeWorkers := activeWorkers s;
     lastHeartbeat := lastHeartbeat s |}.
Definition set_queueDepth v (s : BotSnapshot) : BotSnapshot :=
  {| status := status s; queueDepth := v; jobsProcessed := jobsProcessed s;
     successRate := successRate s; activeWorkers := activeWorkers s;
     lastHeartbeat := lastHeartbeat s |}.
Definition set_jobsProcessed v (s : BotSnapshot) : BotSnapshot :=
  {| status := status s; queueDepth := queueDepth s; jobsProcessed := v;
     successRate := successRate s; activeWorkers := activeWorkers s;
     lastHeartbeat := lastHeartbeat s |}.
Definition set_successRate v (s : BotSnapshot) : BotSnapshot :=
  {| status := status s; queueDepth := queueDepth s; jobsProcessed := jobsProcessed s;
     successRate := v; activeWorkers := activeWorkers s;
     lastHeartbeat := lastHeartbeat s |}.
Definition set_activeWorkers v (s : BotSnapshot) : BotSnapshot :=
  {| status := status s; queueDepth := queueDepth s; jobsProcessed := jobsProcessed s;
     successRate := successRate s; activeWorkers := v;
     lastHeartbeat := lastHeartbeat s |}.
Definition set_lastHeartbeat v (s : BotSnapshot) : BotSnapshot :=
  {| status := status s; queueDepth := queueDepth s; jobsProcessed := jobsProcessed s;
     successRate := successRate s; activeWorkers := activeWorkers s;
     lastHeartbeat := v |}.

Definition set_mode v (c : ConnectionState) : ConnectionState :=
  {| mode := v; apiReachable := apiReachable c; apiEndpoint := apiEndpoint c;
     apiLatencyMs := apiLatencyMs c; wsConnected := wsConnected c;
     wsEndpoint := wsEndpoint c; lastCheck := lastCheck c;
     lastEventAt := lastEventAt c; lastError := lastError c |}.
Definition set_apiReachable v (c : ConnectionState) : ConnectionState :=
  {| mode := mode c; apiReachable := v; apiEndpoint := apiEndpoint c;
     apiLatencyMs := apiLatencyMs c; wsConnected := wsConnected c;
     wsEndpoint := wsEndpoint c; lastCheck := lastCheck c;
     lastEventAt := lastEventAt c; lastError := lastError c |}.
Definition set_apiEndpoint v (c : ConnectionState) : ConnectionState :=
  {| mode := mode c; apiReachable := apiReachable c; apiEndpoint := v;
     apiLatencyMs := apiLatencyMs c; wsConnected := wsConnected c;
     wsEndpoint := wsEndpoint c; lastCheck := lastCheck c;
     lastEventAt := lastEventAt c; lastError := lastError c |}.
Definition set_apiLatencyMs v (c : ConnectionState) : ConnectionState :=
  {| mode := mode c; apiReachable := apiReachable c; apiEndpoint := apiEndpoint c;
     apiLatencyMs := v; wsConnected := wsConnected c;
     wsEndpoint := wsEndpoint c; lastCheck := lastCheck c;
     lastEventAt := lastEventAt c; lastError := lastError c |}.
Definition set_wsConnected v (c : ConnectionState) : ConnectionState :=
  {| mode := mode c; apiReachable := apiReachable c; apiEndpoint := apiEndpoint c;
     apiLatencyMs := apiLatencyMs c; wsConnected := v;
     wsEndpoint := wsEndpoint c; lastCheck := lastCheck c;
     lastEventAt := lastEventAt c; lastError := lastError c |}.
Definition set_wsEndpoint v (c : ConnectionState) : ConnectionState :=
  {| mode := mode c; apiReachable := apiReachable c; apiEndpoint := apiEndpoint c;
     apiLatencyMs := apiLatencyMs c; wsConnected := wsConnected c;
     wsEndpoint := v; lastCheck := lastCheck c;
     lastEventAt := lastEventAt c; lastError := lastError c |}.
Definition set_lastCheck v (c : ConnectionState) : ConnectionState :=
  {| mode := mode c; apiReachable := apiReachable c; apiEndpoint := apiEndpoint c;
     apiLatencyMs := apiLatencyMs c; wsConnected := wsConnected c;
     wsEndpoint := wsEndpoint c; lastCheck := v;
     lastEventAt := lastEventAt c; lastError := lastError c |}.
Definition set_lastEventAt v (c : ConnectionState) : ConnectionState :=
  {| mode := mode c; apiReachable := apiReachable c; apiEndpoint := apiEndpoint c;
     apiLatencyMs := apiLatencyMs c; wsConnected := wsConnected c;
     wsEndpoint := wsEndpoint c; lastCheck := lastCheck c;
     lastEventAt := v; lastError := lastError c |}.
Definition set_lastError v (c : ConnectionState) : ConnectionState :=
  {| mode := mode c; apiReachable := apiReachable c; apiEndpoint := apiEndpoint c;
     apiLatencyMs := apiLatencyMs c; wsConnected := wsConnected c;
     wsEndpoint := wsEndpoint c; lastCheck := lastCheck c;
     lastEventAt := lastEventAt c; lastError := v |}.

Definition set_runtimeState v (w : World) : World :=
  {| runtimeState := v; connectionState := connectionState w;
     remoteCache_hasSnapshot := remoteCache_hasSnapshot w;
     remoteCache_logs := remoteCache_logs w; wsClient := wsClient w;
     wsReconnectTimer := wsReconnectTimer w;
     manualWsDisconnect := manualWsDisconnect w;
     pendingTimers := pendingTimers w; nextHandle := nextHandle w;
     logsFile := logsFile w; configFile := configFile w; clock := clock w;
     requests := requests w |}.
Definition set_connectionState v (w : World) : World :=
  {| runtimeState := runtimeState w; connectionState := v;
     remoteCache_hasSnapshot := remoteCache_hasSnapshot w;
     remoteCache_logs := remoteCache_logs w; wsClient := wsClient w;
     wsReconnectTimer := wsReconnectTimer w;
     manualWsDisconnect := manualWsDisconnect w;
     pendingTimers := pendingTimers w; nextHandle := nextHandle w;
     logsFile := logsFile w; configFile := configFile w; clock := clock w;
     requests := requests w |}.
Definition set_remoteCache_hasSnapshot v (w : World) : World :=
  {| runtimeState := runtimeState w; connectionState := connectionState w;
     remoteCache_hasSnapshot := v;
     remoteCache_logs := remoteCache_logs w; wsClient := wsClient w;
     wsReconnectTimer := wsReconnectTimer w;
     manualWsDisconnect := manualWsDisconnect w;
     pendingTimers := pendingTimers w; nextHandle := nextHandle w;
     logsFile := logsFile w; configFile := configFile w; clock := clock w;
     requests := requests w |}.
Definition set_remoteCache_logs v (w : World) : World :=
  {| runtimeState := runtimeState w; connectionState := connectionState w;
     remoteCache_hasSnapshot := remoteCache_hasSnapshot w;
     remoteCache_logs := v; wsClient := wsClient w;
     wsReconnectTimer := wsReconnectTimer w;
     manualWsDisconnect := manualWsDisconnect w;
     pendingTimers := pendingTimers w; nextHandle := nextHandle w;
     logsFile := logsFile w; configFile := configFile w; clock := clock w;
     requests := requests w |}.
Definition set_wsClient v (w : World) : World :=
  {| runtimeState := runtimeState w; connectionState := connectionState w;
     remoteCache_hasSnapshot := remoteCache_hasSnapshot w;
     remoteCache_logs := remoteCache_logs w; wsClient := v;
     wsReconnectTimer := wsReconnectTimer w;
     manualWsDisconnect := manualWsDisconnect w;
     pendingTimers := pendingTimers w; nextHandle := nextHandle w;
     logsFile := logsFile w; configFile := configFile w; clock := clock w;
     requests := requests w |}.
Definition set_wsReconnectTimer v (w : World) : World :=
  {| runtimeState := runtimeState w; connectionState := connectionState w;
     remoteCache_hasSnapshot := remoteCache_hasSnapshot w;
     remoteCache_logs := remoteCache_logs w; wsClient := wsClient w;
     wsReconnectTimer := v;
     manualWsDisconnect := manualWsDisconnect w;
     pendingTimers := pendingTimers w; nextHandle := nextHandle w;
     logsFile := logsFile w; configFile := configFile w; clock := clock w;
     requests := requests w |}.
Definition set_manualWsDisconnect v (w : World) : World :=
  {| runtimeState := runtimeState w; connectionState := connectionState w;
     remoteCache_hasSnapshot := remoteCache_hasSnapshot w;
     remoteCache_logs := remoteCache_logs w; wsClient := wsClient w;
     wsReconnectTimer := wsReconnectTimer w;
     manualWsDisconnect := v;
     pendingTimers := pendingTimers w; nextHandle := nextHandle w;
     logsFile := logsFile w; configFile := configFile w; clock := clock w;
     requests := requests w |}.
Definition set_pendingTimers v (w : World) : World :=
  {| runtimeState := runtimeState w; connectionState := connectionState w;
     remoteCache_hasSnapshot := remoteCache_hasSnapshot w;
     remoteCache_logs := remoteCache_logs w; wsClient := wsClient w;
     wsReconnectTimer := wsReconnectTimer w;
     manualWsDisconnect := manualWsDisconnect w;
     pendingTimers := v; nextHandle := nextHandle w;
     logsFile := logsFile w; configFile := configFile w; clock := clock w;
     requests := requests w |}.
Definition set_nextHandle v (w : World) : World :=
  {| runtimeState := runtimeState w; connectionState := connectionState w;
     remoteCache_hasSnapshot := remoteCache_hasSnapshot w;
     remoteCache_logs := remoteCache_logs w; wsClient := wsClient w;
     wsReconnectTimer := wsReconnectTimer w;
     manualWsDisconnect := manualWsDisconnect w;
     pendingTimers := pendingTimers w; nextHandle := v;
     logsFile := logsFile w; configFile := configFile w; clock := clock w;
     requests := requests w |}.
Definition set_logsFile v (w : World) : World :=
  {| runtimeState := runtimeState w; connectionState := connectionState w;
     remoteCache_hasSnapshot := remoteCache_hasSnapshot w;
     remoteCache_logs := remoteCache_logs w; wsClient := wsClient w;
     wsReconnectTimer := wsReconnectTimer w;
     manualWsDisconnect := manualWsDisconnect w;
     pendingTimers := pendingTimers w; nextHandle := nextHandle w;
     logsFile := v; configFile := configFile w; clock := clock w;
     requests := requests w |}.
Definition set_configFile v (w : World) : World :=
  {| runtimeState := runtimeState w; connectionState := connectionState w;
     remoteCache_hasSnapshot := remoteCache_hasSnapshot w;
     remoteCache_logs := remoteCache_logs w; wsClient := wsClient w;
     wsReconnectTimer := wsReconnectTimer w;
     manualWsDisconnect := manualWsDisconnect w;
     pendingTimers := pendingTimers w; nextHandle := nextHandle w;
     logsFile := logsFile w; configFile := v; clock := clock w;
     requests := requests w |}.
Definition set_clock v (w : World) : World :=
  {| runtimeState := runtimeState w; connectionState := connectionState w;
     remoteCache_hasSnapshot := remoteCache_hasSnapshot w;
     remoteCache_logs := remoteCache_logs w; wsClient := wsClient w;
     wsReconnectTimer := wsReconnectTimer w;
     manualWsDisconnect := manualWsDisconnect w;
     pendingTimers := pendingTimers w; nextHandle := nextHandle w;
     logsFile := logsFile w; configFile := configFile w; clock := v;
     requests := requests w |}.
Definition set_requests v (w : World) : World :=
  {| runtimeState := runtimeState w; connectionState := connectionState w;
     remoteCache_hasSnapshot := remoteCache_hasSnapshot w;
     remoteCache_logs := remoteCache_logs w; wsClient := wsClient w;
     wsReconnectTimer := wsReconnectTimer w;
     manualWsDisconnect := manualWsDisconnect w;
     pendingTimers := pendingTimers w; nextHandle := nextHandle w;
     logsFile := logsFile w; configFile := configFile w; clock := clock w;
     requests := v |}.

(** *** The state monad of the main process *)

Definition M (A : Type) : Type := World -> A * World.

Definition ret {A} (a : A) : M A := fun w => (a, w).

Definition bind {A B} (m : M A) (k : A -> M B) : M B :=
  fun w => let (a, w') := m w in k a w'.

Definition get : M World := fun w => (w, w).

Definition modify (f : World -> World) : M unit := fun w => (tt, f w).

Definition exec {A} (m : M A) (w : World) : World := snd (m w).
Definition eval {A} (m : M A) (w : World) : A := fst (m w).

Notation "'let*' x := m 'in' k" := (bind m (fun x => k))
  (at level 10, x name, m at level 100, k at level 200) : js_scope.
Notation "m ;; k" := (bind m (fun _ => k))
  (at level 100, k at level 200, right associativity) : js_scope.

Definition when (b : bool) (m : M unit) : M unit := if b then m else ret tt.

(** A write to a field of [connectionState]. *)
Definition setConn (f : ConnectionState -> ConnectionState) : M unit :=
  modify (fun w => set_connectionState (f (connectionState w)) w).

(** A write to a field of [runtimeState]. *)
Definition setRuntime (f : BotSnapshot -> BotSnapshot) : M unit :=
  modify (fun w => set_runtimeState (f (runtimeState w)) w).

(** [Date.now()] *)
Definition Date_now : M Z := fun w => (clock w, w).

(** ** The functions of the script *)

Section Main.
Context `{JSRuntime}.

(** The network the process talks to. *)
Variable net : Network.

Definition formatLog (now : Z) (message level : string) : string :=
  "[" +++ toISOString now +++ "] [" +++ level +++ "] " +++ message.

Definition clamp (value min max : float) : float :=
  Math_max min (Math_min max value).

Definition numberOrFallback (value : option JSValue) (fallback : float) : float :=
  let parsed := ToNumber value in
  if Number_isFinite parsed then parsed else fallback.

Definition includes (names : list string) (s : string) : bool :=
  existsb (String.eqb s) names.

Definition normalizeStatus (value : JSValue) : BotStatus :=
  let normalized := toLowerCase (ToString (orElse value (JStr "idle"))) in
  if includes ["running"; "paused"; "stopped"; "idle"]%string normalized then
    if String.eqb normalized "running" then Running
    else if String.eqb normalized "paused" then Paused
    else if String.eqb normalized "stopped" then Stopped
    else Idle
  else if includes ["active"; "busy"; "processing"]%string normalized then Running
  else if includes ["halted"; "terminated"; "off"]%string normalized then Stopped
  else Idle.

Definition normalizeHttpEndpoint (endpoint : JSValue) : string :=
  let raw := trim (ToString (orElse endpoint (JStr ""))) in
  if isEmpty raw then ""
  else
    let withProtocol := if hasHttpScheme raw then raw else "http://" +++ raw in
    match URL_parse withProtocol with
    | Some parsed =>
        stripTrailingSlashes (protocol parsed +++ "//" +++ host parsed +++ pathname parsed)
    | None => ""
    end.

Definition joinUrl (base suffix : string) : string :=
  stripTrailingSlashes base +++ (if startsWith suffix "/" then suffix else "/" +++ suffix).

Definition toWebSocketEndpoint (config : StudioConfig) : string :=
  let rawWsEndpoint := trim (ToString (orElse (cfg_wsEndpoint config) (JStr ""))) in
  if negb (isEmpty rawWsEndpoint) then
    if hasWsScheme rawWsEndpoint then rawWsEndpoint
    else if hasHttpScheme rawWsEndpoint then replaceHttpByWs rawWsEndpoint
    else "ws://" +++ stripLeadingSlashes rawWsEndpoint
  else
    let apiEndpoint := normalizeHttpEndpoint (cfg_apiEndpoint config) in
    if isEmpty apiEndpoint then ""
    else replaceHttpByWs apiEndpoint +++ "/ws".

(** [response.ok] *)
Definition httpOk (st : Z) : bool := (200 <=? st)%Z && (st <=? 299)%Z.

(** [fetchEndpoint]: one request, answered by the network; the clock
    advances by the time the answer took. *)
Definition fetchEndpoint (url : string) (body : option string) (timeoutMs : Z)
  : M FetchResult :=
  fun w =>
    let request := {| req_url := url; req_body := body; req_timeoutMs := timeoutMs |} in
    let reply := net (length (requests w)) request in
    let w' := set_clock (clock w + Z.of_N (net_elapsed reply))%Z
                (set_requests (requests w ++ [request]) w) in
    match net_result reply with
    | HttpResponse st text =>
        let data := if isEmpty text then JNull
                    else match JSON_parse text with Some v => v | None => JNull end in
        ({| fr_ok := httpOk st; fr_status := st; fr_text := text; fr_data := data;
            fr_error := None |}, w')
    | NetFailure e =>
        ({| fr_ok := false; fr_status := 0; fr_text := ""; fr_data := JNull;
            fr_error := Some (match e with Some m => m | None => "Unknown fetch failure" end) |},
         w')
    end.

(** [source.a ?? source.b ?? source.c] *)
Definition field3 (source : JSValue) (a b c : string) : option JSValue :=
  coalesce (getProp source a) (coalesce (getProp source b) (getProp source c)).

(** [payload.key] when [payload.key && typeof payload.key === "object"]. *)
Definition objectMember (payload : JSValue) (key : string) : option JSValue :=
  match getProp payload key with
  | Some v => if truthy v && typeofObject v then Some v else None
  | None => None
  end.

(** The [source] that [normalizeSnapshot] reads the fields from. *)
Definition snapshotSource (payload : JSValue) : JSValue :=
  match objectMember payload "snapshot" with
  | Some s => s
  | None => match objectMember payload "data" with
            | Some d => d
            | None => payload
            end
  end.

(** [normalizeSnapshot]; [cached] is [runtimeState] and [now] the clock. *)
Definition normalizeSnapshot (cached : BotSnapshot) (now : Z) (payload : JSValue)
  : option BotSnapshot :=
  if negb (truthy payload) || negb (typeofObject payload) then None
  else
    let source := snapshotSource payload in
    if negb (truthy source) || isArray source || negb (typeofObject source) then None
    else
      let statusRaw :=
        coalesce (field3 source "status" "state" "mode")
                 (Some (JStr (statusName (status cached)))) in
      let heartbeatRaw :=
        coalesce (field3 source "lastHeartbeat" "last_heartbeat" "heartbeat")
                 (Some (JStr (toISOString now))) in
      Some {|
        status := normalizeStatus (default JNull statusRaw);
        queueDepth :=
          clamp (numberOrFallback (field3 source "queueDepth" "queue_depth" "queue")
                                  (queueDepth cached)) 0 10000;
        jobsProcessed :=
          clamp (numberOrFallback (field3 source "jobsProcessed" "jobs_processed" "jobs")
                                  (jobsProcessed cached)) 0 100000000;
        successRate :=
          clamp (numberOrFallback (field3 source "successRate" "success_rate" "success")
                                  (successRate cached)) 0 100;
        activeWorkers :=
          clamp (numberOrFallback (field3 source "activeWorkers" "active_workers" "workers")
                                  (activeWorkers cached)) 0 1000;
        lastHeartbeat := ToString (default JNull heartbeatRaw);
      |}.

(** The entries [extractLogs] reads out of a payload, by priority. *)
Definition logEntries (payload : JSValue) (text : string) : list JSValue :=
  match payload with
  | JArr items => items
  | _ =>
      match getProp payload "logs" with
      | Some (JArr items) => items
      | _ =>
          match getProp payload "data" with
          | Some (JArr items) => items
          | _ =>
              match getProp payload "log" with
              | Some (JStr s) => [JStr s]
              | _ =>
                  match getProp payload "message" with
                  | Some (JStr s) => [JStr s]
                  | _ =>
                      if negb (isEmpty (trim text)) then map JStr (splitLines text)
                      else []
                  end
              end
          end
      end
  end.


(** The callback [extractLogs] maps over the entries; [None] is [null]. *)
Definition formatEntry (now : Z) (entry : JSValue) : option string :=
  match entry with
  | JStr s =>
      if isEmpty (trim s) then None
      else Some (if hasIsoStampPrefix s then s
                 else formatLog now ("[REMOTE] " +++ s) "REMOTE")
  | JArr _ | JObj _ =>
      let message :=
        ToString (default JNull
          (coalesce (field3 entry "message" "log" "msg")
                    (Some (JStr (JSON_stringify entry))))) in
      let timestamp :=
        ToString (default JNull
          (coalesce (field3 entry "timestamp" "time" "ts")
                    (Some (JStr (toISOString now))))) in
      let level :=
        toUpperCase (ToString (default JNull
          (coalesce (coalesce (getProp entry "level") (getProp entry "severity"))
                    (Some (JStr "REMOTE"))))) in
      Some ("[" +++ timestamp +++ "] [" +++ level +++ "] " +++ message)
  | _ => None
  end.

(** [.filter(Boolean)] over the mapped entries. *)
Definition keepTruthy (mapped : list (option string)) : list string :=
  omap (fun m => match m with
                 | Some s => if isEmpty s then None else Some s
                 | None => None
                 end) mapped.

Definition extractLogs (now : Z) (payload : JSValue) (text : string) : list string :=
  let entries := logEntries payload text in
  let mapped := keepTruthy (map (formatEntry now) entries) in
  lastN 500 mapped.

Definition copyConnectionState : M ConnectionState :=
  fun w => (connectionState w, w).

Definition readConfig : M StudioConfig := fun w => (configFile w, w).

(** [clearTimeout(h)] *)
Definition clearTimeout (h : nat) (timers : list ReconnectTimer) : list ReconnectTimer :=
  List.filter (fun t => negb (Nat.eqb (timer_handle t) h)) timers.

Definition clearReconnectTimer : M unit :=
  modify (fun w =>
    match wsReconnectTimer w with
    | Some h => set_wsReconnectTimer None
                  (set_pendingTimers (clearTimeout h (pendingTimers w)) w)
    | None => w
    end).

(** Drops the listeners of the socket, closes it and forgets it. *)
Definition closeWebSocketClient : M unit := modify (set_wsClient None).

(** [{...runtimeState, ...snapshot}] is [snapshot]: it has every field. *)
Definition mergeSnapshot (snapshot : BotSnapshot) : M BotSnapshot :=
  modify (fun w => set_remoteCache_hasSnapshot true (set_runtimeState snapshot w)) ;;
  ret snapshot.

(** [setTimeout] for the reconnect callback: a fresh handle, armed. *)
Definition setTimeout (config : StudioConfig) (delayMs : float) : M nat :=
  fun w =>
    let h := nextHandle w in
    let t := {| timer_handle := h; timer_delayMs := delayMs; timer_config := config |} in
    (h, set_nextHandle (S h) (set_pendingTimers (pendingTimers w ++ [t]) w)).

Definition reconnectDelayMs (config : StudioConfig) : float :=
  clamp (numberOrFallback (Some (cfg_pollingIntervalMs config)) 5000) 2000 30000.

Definition maybeScheduleReconnect (config : StudioConfig) : M unit :=
  let* w := get in
  if negb (truthy (cfg_autoReconnect config)) || manualWsDisconnect w then ret tt
  else
    clearReconnectTimer ;;
    let delayMs := reconnectDelayMs config in
    let* h := setTimeout config delayMs in
    modify (set_wsReconnectTimer (Some h)).

Definition ensureLogsFile : M unit :=
  fun w =>
    match logsFile w with
    | Some _ => (tt, w)
    | None =>
        let lines := joinWith LF (map (fun line => formatLog (clock w) line "INFO") botLogSeed) in
        (tt, set_logsFile (Some (lines +++ LF)) w)
    end.

Definition appendLog (message level : string) : M unit :=
  ensureLogsFile ;;
  modify (fun w =>
    set_logsFile (Some (default "" (logsFile w) +++ formatLog (clock w) message level +++ LF)) w).

Definition readLocalLogs (limit : nat) : M (list string) :=
  ensureLogsFile ;;
  let* w := get in
  let contents := default "" (logsFile w) in
  let lines := List.filter (fun l => negb (isEmpty l)) (splitNewline contents) in
  ret (lastN limit lines).

Definition appendRemoteLogs (lines : list string) : M unit :=
  when (0 <? length lines)%nat
    (modify (fun w => set_remoteCache_logs (lastN 500 (remoteCache_logs w ++ lines)) w)).

Definition handleWsPayload (rawMessage : string) : M unit :=
  let parsed := match JSON_parse rawMessage with Some v => v | None => JStr rawMessage end in
  let* now := Date_now in
  setConn (set_lastEventAt (Some now)) ;;
  setConn (set_apiReachable true) ;;
  setConn (set_mode Remote) ;;
  setConn (set_lastError None) ;;
  match parsed with
  | JStr text => appendRemoteLogs (extractLogs now JNull text)
  | _ =>
      let* w := get in
      match normalizeSnapshot (runtimeState w) now parsed with
      | Some snapshot => mergeSnapshot snapshot ;; ret tt
      | None => ret tt
      end ;;
      appendRemoteLogs (extractLogs now parsed "")
  end.

(** How long [connectWebSocket] waits before it resolves on its own. *)
Definition connectTimeoutMs (isReconnect : bool) : Z :=
  if isReconnect then 1400 else 2200.

(** The executor of the promise [connectWebSocket] returns: it constructs
    the socket and attaches the listeners. [Some state] when the promise is
    resolved at once, [None] when it waits for the first of open, error,
    close and the timeout. *)
Definition openWebSocket (wsEndpoint : string) : M (option ConnectionState) :=
  match WebSocket_throws wsEndpoint with
  | Some e =>
      setConn (set_wsConnected false) ;;
      setConn (set_lastError
                 (Some (match e with
                        | Some m => m
                        | None => "Failed to create websocket client"
                        end))) ;;
      let* c := copyConnectionState in ret (Some c)
  | None =>
      modify (fun w =>
        set_nextHandle (S (nextHandle w))
          (set_wsClient (Some {| ws_id := nextHandle w; ws_endpoint := wsEndpoint |}) w)) ;;
      ret None
  end.

(** [connectWebSocket], up to the moment it hands control back to the event
    loop. *)
Definition connectWebSocket (config : StudioConfig) (isReconnect : bool)
  : M (option ConnectionState) :=
  let wsEndpoint := toWebSocketEndpoint config in
  setConn (set_wsEndpoint wsEndpoint) ;;
  if isEmpty wsEndpoint then
    setConn (set_wsConnected false) ;;
    setConn (set_lastError (Some "WebSocket endpoint is not configured")) ;;
    let* c := copyConnectionState in ret (Some c)
  else
    modify (set_manualWsDisconnect false) ;;
    clearReconnectTimer ;;
    closeWebSocketClient ;;
    openWebSocket wsEndpoint.

(** The listeners [connectWebSocket] attaches to the socket [c]. *)
Definition wsOnOpen (c : WebSocketClient) : M ConnectionState :=
  setConn (set_wsConnected true) ;;
  setConn (set_mode Remote) ;;
  setConn (set_lastError None) ;;
  (let* now := Date_now in setConn (set_lastEventAt (Some now))) ;;
  appendLog ("WebSocket connected: " +++ ws_endpoint c) "INFO" ;;
  copyConnectionState.

Definition wsOnMessage (messageText : string) : M unit :=
  handleWsPayload messageText.

Definition wsOnError (e : option string) : M ConnectionState :=
  setConn (set_lastError (Some (match e with Some m => m | None => "WebSocket error" end))) ;;
  copyConnectionState.

(** The close listener up to its first [await] ... *)
Definition wsOnCloseBegin (c : WebSocketClient) : M unit :=
  let* w := get in
  let wasConnected := wsConnected (connectionState w) in
  setConn (set_wsConnected false) ;;
  when wasConnected (appendLog ("WebSocket disconnected: " +++ ws_endpoint c) "WARN").

(** ... and from [await readConfig()] on. *)
Definition wsOnCloseEnd : M ConnectionState :=
  let* latestConfig := readConfig in
  let* w := get in
  when (negb (manualWsDisconnect w)) (maybeScheduleReconnect latestConfig) ;;
  copyConnectionState.

Definition wsOnClose (c : WebSocketClient) : M ConnectionState :=
  wsOnCloseBegin c ;; wsOnCloseEnd.

(** The callback of an armed reconnect timer. *)
Definition reconnectTimerFires (t : ReconnectTimer) : M unit :=
  modify (fun w => set_pendingTimers (clearTimeout (timer_handle t) (pendingTimers w)) w) ;;
  connectWebSocket (timer_config t) true ;;
  ret tt.

Definition disconnectWebSocket : M ConnectionState :=
  modify (set_manualWsDisconnect true) ;;
  clearReconnectTimer ;;
  closeWebSocketClient ;;
  setConn (set_wsConnected false) ;;
  appendLog "WebSocket manually disconnected by operator" "WARN" ;;
  copyConnectionState.

(** The test [probeApiConnection] applies to a response. *)
Definition serverResponded (response : FetchResult) : bool :=
  fr_ok response
  || ((200 <=? fr_status response)%Z && (fr_status response <? 500)%Z
      && negb (fr_status response =? 404)%Z).

(** [if (response.error)] *)
Definition truthyError (e : option string) : bool :=
  match e with Some m => negb (isEmpty m) | None => false end.

Definition modeFor (c : ConnectionState) : ConnectionMode :=
  if wsConnected c then Remote else Local.

(** The [for] loop of [probeApiConnection] over the candidates left. *)
Fixpoint probeLoop (apiEndpoint : string) (startedAt : Z) (latestError : string)
    (paths : list string) : M ConnectionState :=
  match paths with
  | [] =>
      setConn (set_apiReachable false) ;;
      setConn (set_apiLatencyMs None) ;;
      setConn (fun c => set_mode (modeFor c) c) ;;
      setConn (set_lastError (Some latestError)) ;;
      copyConnectionState
  | probePath :: rest =>
      let* response := fetchEndpoint (joinUrl apiEndpoint probePath) None 4500 in
      if serverResponded response then
        setConn (set_apiReachable true) ;;
        (let* now := Date_now in setConn (set_apiLatencyMs (Some (now - startedAt)%Z))) ;;
        setConn (set_mode Remote) ;;
        setConn (set_lastError None) ;;
        copyConnectionState
      else
        probeLoop apiEndpoint startedAt
          (if truthyError (fr_error response) then default "" (fr_error response)
           else latestError)
          rest
  end.

Definition probeApiConnection (config : StudioConfig) : M ConnectionState :=
  let apiEndpoint := normalizeHttpEndpoint (cfg_apiEndpoint config) in
  setConn (set_apiEndpoint apiEndpoint) ;;
  (let* now := Date_now in setConn (set_lastCheck (Some now))) ;;
  if isEmpty apiEndpoint then
    setConn (set_apiReachable false) ;;
    setConn (set_apiLatencyMs None) ;;
    setConn (fun c => set_mode (modeFor c) c) ;;
    setConn (set_lastError (Some "API endpoint is not configured")) ;;
    copyConnectionState
  else
    let* startedAt := Date_now in
    probeLoop apiEndpoint startedAt "API endpoint did not respond" healthPaths.

Definition shouldProbeNow : M bool :=
  let* w := get in
  match lastCheck (connectionState w) with
  | None => ret true
  | Some checkedAt => ret (15000 <? clock w - checkedAt)%Z
  end.

Fixpoint snapshotLoop (apiEndpoint : string) (paths : list string)
  : M (option BotSnapshot) :=
  match paths with
  | [] => ret None
  | snapshotPath :: rest =>
      let* response := fetchEndpoint (joinUrl apiEndpoint snapshotPath) None 5000 in
      if negb (fr_ok response) then snapshotLoop apiEndpoint rest
      else
        let* w := get in
        match normalizeSnapshot (runtimeState w) (clock w) (fr_data response) with
        | Some snapshot =>
            setConn (set_apiReachable true) ;;
            setConn (set_mode Remote) ;;
            setConn (set_lastError None) ;;
            let* merged := mergeSnapshot snapshot in
            ret (Some merged)
        | None => snapshotLoop apiEndpoint rest
        end
  end.

Definition fetchRemoteSnapshot (config : StudioConfig) : M (option BotSnapshot) :=
  let apiEndpoint := normalizeHttpEndpoint (cfg_apiEndpoint config) in
  if isEmpty apiEndpoint then ret None
  else
    (let* due := shouldProbeNow in
     if due then probeApiConnection config ;; ret tt else ret tt) ;;
    let* found := snapshotLoop apiEndpoint snapshotPaths in
    match found with
    | Some snapshot => ret (Some snapshot)
    | None =>
        let* w := get in
        if wsConnected (connectionState w) && remoteCache_hasSnapshot w then
          let* merged := mergeSnapshot (runtimeState w) in
          ret (Some merged)
        else ret None
    end.

Fixpoint logsLoop (apiEndpoint : string) (paths : list string) : M (list string) :=
  match paths with
  | [] => let* w := get in ret (lastN 250 (remoteCache_logs w))
  | logsPath :: rest =>
      let* response := fetchEndpoint (joinUrl apiEndpoint logsPath) None 5000 in
      if negb (fr_ok response) then logsLoop apiEndpoint rest
      else
        let* now := Date_now in
        let parsedLogs := extractLogs now (fr_data response) (fr_text response) in
        if (0 <? length parsedLogs)%nat then
          modify (set_remoteCache_logs parsedLogs) ;;
          setConn (set_apiReachable true) ;;
          setConn (set_mode Remote) ;;
          setConn (set_lastError None) ;;
          ret (lastN 250 parsedLogs)
        else logsLoop apiEndpoint rest
  end.

Definition fetchRemoteLogs (config : StudioConfig) : M (list string) :=
  let apiEndpoint := normalizeHttpEndpoint (cfg_apiEndpoint config) in
  if isEmpty apiEndpoint then ret []
  else logsLoop apiEndpoint logsPaths.

Definition getLocalSnapshot : M BotSnapshot :=
  (let* now := Date_now in setRuntime (set_lastHeartbeat (toISOString now))) ;;
  let* w := get in
  ret (runtimeState w).

Fixpoint actionLoop (config : StudioConfig) (apiEndpoint action : string)
    (paths : list string) : M (option ActionResult) :=
  match paths with
  | [] => ret None
  | actionPath :: rest =>
      let* response :=
        fetchEndpoint (joinUrl apiEndpoint actionPath)
          (Some (JSON_stringify (JObj [("action", JStr action)]))) 5500 in
      if negb (fr_ok response) then actionLoop config apiEndpoint action rest
      else
        let* w := get in
        let snapshotFromAction :=
          normalizeSnapshot (runtimeState w) (clock w) (fr_data response) in
        let* snapshot :=
          match snapshotFromAction with
          | Some s => ret s
          | None =>
              let* fetched := fetchRemoteSnapshot config in
              match fetched with
              | Some s => ret s
              | None => getLocalSnapshot
              end
          end in
        appendLog ("Action '" +++ action +++ "' forwarded to remote API") "INFO" ;;
        ret (Some {| ok := true;
                     message := "Action '" +++ action +++ "' sent to remote backend";
                     snapshot := snapshot |})
  end.

Definition tryRemoteAction (config : StudioConfig) (action : string)
  : M (option ActionResult) :=
  let apiEndpoint := normalizeHttpEndpoint (cfg_apiEndpoint config) in
  if isEmpty apiEndpoint then ret None
  else actionLoop config apiEndpoint action actionPaths.

Definition getSnapshot : M BotSnapshot :=
  let* config := readConfig in
  let* remoteSnapshot := fetchRemoteSnapshot config in
  match remoteSnapshot with
  | Some s => ret s
  | None => getLocalSnapshot
  end.

(** The [switch] of [performBotAction]: the local transition. The writes
    of a case run without a pause; the handler then waits for the log
    line. *)
Definition localTransition (action : string) : M unit :=
  if String.eqb action "start" then
    setRuntime (set_status Running) ;;
    setRuntime (fun s => set_activeWorkers (Math_min 8 (activeWorkers s + 1)%float) s) ;;
    appendLog "Bot run started by operator" "INFO"
  else if String.eqb action "pause" then
    setRuntime (set_status Paused) ;;
    appendLog "Bot run paused" "WARN"
  else if String.eqb action "resume" then
    setRuntime (set_status Running) ;;
    appendLog "Bot resumed" "INFO"
  else if String.eqb action "stop" then
    setRuntime (set_status Stopped) ;;
    setRuntime (set_activeWorkers 0) ;;
    appendLog "Bot stopped by operator" "WARN"
  else if String.eqb action "sync" then
    setRuntime (fun s => set_queueDepth (Math_max 0 (queueDepth s - 2)%float) s) ;;
    setRuntime (fun s => set_jobsProcessed (jobsProcessed s + 3)%float s) ;;
    setRuntime (fun s => set_successRate (Math_min 99.9 (successRate s + 0.1)%float) s) ;;
    appendLog "Manual sync completed" "INFO"
  else
    appendLog "Unknown action ignored" "WARN".

(** [performBotAction] from the line after the [switch] on: what the
    handler does once the log line of the [switch] is written. *)
Definition finishLocalAction (action : string) : M ActionResult :=
  (let* now := Date_now in setRuntime (set_lastHeartbeat (toISOString now))) ;;
  let* local := getLocalSnapshot in
  ret {| ok := true;
         message := "Action '" +++ action
                    +++ "' completed locally (remote endpoint unavailable)";
         snapshot := local |}.

(** [performBotAction], run without another turn of the event loop between
    its [await]s. The handler pauses while the remote candidates are
    tried and while the log line of the [switch] is written: [step] has
    its three parts as turns of their own. *)
Definition performBotAction (action : string) : M ActionResult :=
  let* config := readConfig in
  let* remoteResult := tryRemoteAction config action in
  match remoteResult with
  | Some result => ret result
  | None => localTransition action ;; finishLocalAction action
  end.

Definition getCombinedLogs : M (list string) :=
  let* config := readConfig in
  let* remoteLogs := fetchRemoteLogs config in
  let* localLogs := readLocalLogs 120 in
  if (length remoteLogs =? 0)%nat then ret localLogs
  else ret (lastN 40 localLogs ++ lastN 210 remoteLogs).

Definition getConnectionStatus : M ConnectionState :=
  let* config := readConfig in
  setConn (set_apiEndpoint (normalizeHttpEndpoint (cfg_apiEndpoint config))) ;;
  (let* w := get in
   when (isEmpty (wsEndpoint (connectionState w)))
     (setConn (set_wsEndpoint (toWebSocketEndpoint config)))) ;;
  copyConnectionState.

(** [saveConfig], on the four fields the orchestrator reads, for a
    configuration whose fields convert. The file is written with the
    merged configuration. [Exact.saveConfig] has the other six fields of
    the configuration, the members that the spread carries over from
    [nextConfig], and the [TypeError] that [String] and [Number] throw on
    a field without a primitive value. *)
Definition saveConfig (nextConfig : StudioConfig) : M StudioConfig :=
  let merged :=
    {| cfg_apiEndpoint :=
         JStr (ToString (orElse (cfg_apiEndpoint nextConfig) (cfg_apiEndpoint defaultConfig)));
       cfg_wsEndpoint := JStr (ToString (orElse (cfg_wsEndpoint nextConfig) (JStr "")));
       cfg_autoReconnect := JBool (truthy (cfg_autoReconnect nextConfig));
       cfg_pollingIntervalMs :=
         JNum (clamp (numberOrFallback (Some (cfg_pollingIntervalMs nextConfig)) 5000)
                     1000 120000) |} in
  modify (set_configFile merged) ;;
  setConn (set_apiEndpoint (normalizeHttpEndpoint (cfg_apiEndpoint merged))) ;;
  setConn (set_wsEndpoint (toWebSocketEndpoint merged)) ;;
  ret merged.

(** The IPC handlers that do more than call one function. *)
Definition ipcConnectWs : M (option ConnectionState) :=
  let* config := readConfig in
  connectWebSocket config false.

Definition ipcTestConnection : M ConnectionState :=
  let* config := readConfig in
  let* status := probeApiConnection config in
  (if apiReachable status then fetchRemoteSnapshot config ;; ret tt else ret tt) ;;
  ret status.

(** [runSetupChecks], as far as it touches the state of the process: the
    probe and the log line. The version checks and the check of the bot
    path run commands and read the disk; their results are not modelled. *)
Definition runSetupChecks : M ConnectionState :=
  let* config := readConfig in
  let* connection := probeApiConnection config in
  appendLog "Setup checks executed from desktop UI" "INFO" ;;
  ret connection.

(** The [docs:open] handler; the result is its [ok]. *)
Definition openExternalDocs (url : string) : M bool :=
  if negb (startsWith url "https://") then ret false
  else appendLog ("Opened docs link: " +++ url) "INFO" ;; ret true.

(** [app.whenReady()], up to the creation of the window. *)
Definition whenReady : M unit :=
  let* config := readConfig in
  let* savedConfig := saveConfig config in
  ensureLogsFile ;;
  probeApiConnection savedConfig ;;
  if truthy (cfg_autoReconnect savedConfig) then
    connectWebSocket savedConfig false ;; ret tt
  else ret tt.

(** One turn of the event loop: an IPC call of the renderer, an event of
    the socket held in [wsClient], a reconnect timer that fires, or a
    change made outside the process (the configuration file is edited,
    time passes). The close listener runs in two turns, before and after
    its [await]s; its second half may run in any later turn. A call of
    [performBotAction] is a turn when nothing comes between its parts,
    and each of its parts - the remote attempt, the [switch] with its log
    line, the return - is a turn as well, so that any other turn can come
    between them. *)
Inductive step : World -> World -> Prop :=
| step_whenReady w : step w (exec whenReady w)
| step_saveConfig w nextConfig : step w (exec (saveConfig nextConfig) w)
| step_getSnapshot w : step w (exec getSnapshot w)
| step_performBotAction w action : step w (exec (performBotAction action) w)
| step_tryRemoteAction w action :
    step w (exec (tryRemoteAction (configFile w) action) w)
| step_localTransition w action : step w (exec (localTransition action) w)
| step_finishLocalAction w action : step w (exec (finishLocalAction action) w)
| step_getCombinedLogs w : step w (exec getCombinedLogs w)
| step_testConnection w : step w (exec ipcTestConnection w)
| step_getConnectionStatus w : step w (exec getConnectionStatus w)
| step_runSetupChecks w : step w (exec runSetupChecks w)
| step_openExternalDocs w url : step w (exec (openExternalDocs url) w)
| step_connectWebSocket w : step w (exec ipcConnectWs w)
| step_disconnectWebSocket w : step w (exec disconnectWebSocket w)
| step_open w c : wsClient w = Some c -> step w (exec (wsOnOpen c) w)
| step_message w c text : wsClient w = Some c -> step w (exec (wsOnMessage text) w)
| step_error w c e : wsClient w = Some c -> step w (exec (wsOnError e) w)
| step_closeBegin w c : wsClient w = Some c -> step w (exec (wsOnCloseBegin c) w)
| step_closeEnd w : step w (exec wsOnCloseEnd w)
| step_timer w t : t ∈ pendingTimers w -> step w (exec (reconnectTimerFires t) w)
| step_configEdited w config : step w (set_configFile config w)
| step_timePasses w (ms : N) : step w (set_clock (clock w + Z.of_N ms)%Z w).

(** The worlds the process can get to from [init]. *)
Inductive reachable (init : World) : World -> Prop :=
| reachable_init : reachable init init
| reachable_step w w' : reachable init w -> step w w' -> reachable init w'.

End Main.

(** *** The environment checks of the setup page *)

(** What [execFile] hands its callback: the message of the error when the
    command failed, timed out or could not be started, and what the
    command wrote to its two output streams. *)
Record ExecOutcome := {
  exec_error : option string;
  exec_stdout : string;
  exec_stderr : string;
}.

(** The machine the process runs on: what [execFile] does with a command
    line, [process.platform], and the paths [fs.access] resolves for. *)
Record Machine := {
  execFile : string -> list string -> ExecOutcome;
  platform : string;
  accessible : string -> bool;
}.

Record CommandResult := { cmd_ok : bool; cmd_output : string }.

Record CommandEntry := { command : string; args : list string }.

Inductive CheckStatus : Type := Pass | Fail | Warning.

Record SetupCheckResult := {
  check_name : string;
  check_status : CheckStatus;
  check_detail : string;
}.

(** [String(n)] for an integer [n] (of magnitude below 1e21): its decimal
    digits. *)
Definition IntegerToString (n : Z) : string := NilZero.string_of_int (Z.to_int n).

Section Setup.
Context `{JSRuntime}.
Variable net : Network.
Variable machine : Machine.

Definition runCommand (command : string) (args : list string) : CommandResult :=
  let outcome := execFile machine command args in
  match exec_error outcome with
  | Some errorMessage =>
      {| cmd_ok := false;
         cmd_output := trim (if isEmpty (exec_stderr outcome) then errorMessage
                             else exec_stderr outcome) |}
  | None =>
      {| cmd_ok := true;
         cmd_output := trim (if isEmpty (exec_stdout outcome) then exec_stderr outcome
                             else exec_stdout outcome) |}
  end.

(** The [for] loop of [runVersionCheck]: the report of the first command
    that succeeds, [None] when the loop runs to its end. *)
Fixpoint versionLoop (name : string) (commands : list CommandEntry)
  : option SetupCheckResult :=
  match commands with
  | [] => None
  | entry :: rest =>
      let result := runCommand (command entry) (args entry) in
      if cmd_ok result then
        Some {| check_name := name; check_status := Pass;
                check_detail := if isEmpty (cmd_output result)
                                then command entry +++ " detected"
                                else cmd_output result |}
      else versionLoop name rest
  end.

(** [runVersionCheck]; [None] when it throws: with no command to fall back
    on, [commands[0]] is [undefined] and reading its [command] fails. *)
Definition runVersionCheck (name : string) (commands : list CommandEntry)
  : option SetupCheckResult :=
  match versionLoop name commands with
  | Some report => Some report
  | None =>
      match commands with
      | fallback :: _ =>
          Some {| check_name := name; check_status := Fail;
                  check_detail := command fallback +++ " not available on this system" |}
      | [] => None
      end
  end.

Definition pythonChecks : list CommandEntry :=
  if String.eqb (platform machine) "win32" then
    [ {| command := "python"; args := ["--version"] |};
      {| command := "py"; args := ["--version"] |} ]
  else
    [ {| command := "python3"; args := ["--version"] |};
      {| command := "python"; args := ["--version"] |} ].

(** The four checks [runSetupChecks] hands to [Promise.all]. *)
Definition commandChecks : list (option SetupCheckResult) :=
  [ runVersionCheck "Node.js" [ {| command := "node"; args := ["-v"] |} ];
    runVersionCheck "npm" [ {| command := "npm"; args := ["-v"] |} ];
    runVersionCheck "Git" [ {| command := "git"; args := ["--version"] |} ];
    runVersionCheck "Python runtime" pythonChecks ].

(** [Promise.all]: every result, or the rejection of one. *)
Fixpoint allResolved {A} (results : list (option A)) : option (list A) :=
  match results with
  | [] => Some []
  | Some r :: rest => option_map (cons r) (allResolved rest)
  | None :: _ => None
  end.

Definition botPathCheck (botPath : JSValue) : SetupCheckResult :=
  match botPath with
  | JStr p =>
      if negb (isEmpty (trim p)) then
        if accessible machine p then
          {| check_name := "Bot project path"; check_status := Pass;
             check_detail := p +++ " is readable" |}
        else
          {| check_name := "Bot project path"; check_status := Fail;
             check_detail := p +++ " cannot be accessed" |}
      else
        {| check_name := "Bot project path"; check_status := Warning;
           check_detail := "Set a bot path to validate your local source folder" |}
  | _ =>
      {| check_name := "Bot project path"; check_status := Warning;
         check_detail := "Set a bot path to validate your local source folder" |}
  end.

Definition apiCheck (config : StudioConfig) (connection : ConnectionState)
  : SetupCheckResult :=
  if isEmpty (normalizeHttpEndpoint (cfg_apiEndpoint config)) then
    {| check_name := "Bot API endpoint"; check_status := Warning;
       check_detail := "Set API endpoint to enable real backend connectivity" |}
  else if apiReachable connection then
    {| check_name := "Bot API endpoint"; check_status := Pass;
       check_detail :=
         "Connected in "
         +++ match apiLatencyMs connection with
             | Some ms => IntegerToString ms
             | None => "?"
             end
         +++ " ms (" +++ apiEndpoint connection +++ ")" |}
  else
    {| check_name := "Bot API endpoint"; check_status := Fail;
       check_detail :=
         if truthyError (lastError connection) then default "" (lastError connection)
         else "Unable to reach " +++ apiEndpoint connection |}.

Definition wsCheck (config : StudioConfig) (connection : ConnectionState)
  : SetupCheckResult :=
  {| check_name := "WebSocket stream";
     check_status := if wsConnected connection then Pass else Warning;
     check_detail :=
       if wsConnected connection then "Connected to " +++ wsEndpoint connection
       else "Not connected (will use HTTP polling"
            +++ (if truthy (cfg_autoReconnect config) then ", auto-reconnect enabled" else "")
            +++ ")" |}.

(** [runSetupChecks] with the report it resolves to. The version checks
    and the check of the bot path read the machine and leave the state of
    the process alone, so the state passes through [readConfig], the probe
    and [appendLog] as in [runSetupChecks] above. [None] when the promise
    is rejected. *)
Definition runSetupChecksReport (botPath : JSValue)
  : M (option (list SetupCheckResult)) :=
  match allResolved commandChecks with
  | None => ret None
  | Some versionChecks =>
      let pathCheck := botPathCheck botPath in
      let* config := readConfig in
      let* connection := probeApiConnection net config in
      appendLog "Setup checks executed from desktop UI" "INFO" ;;
      ret (Some (versionChecks
                 ++ [pathCheck; apiCheck config connection; wsCheck config connection]))
  end.

(** The [window-all-closed] handler: the stream is torn down, and the
    application quits ([true]) unless it runs on macOS. *)
Definition windowAllClosed : M bool :=
  disconnectWebSocket ;;
  ret (negb (String.eqb (platform machine) "darwin")).

End Setup.

(** The state of a freshly started process, before the [whenReady]
    callback runs; [t0] is the time the script was loaded. *)
Definition initialWorld `{JSRuntime} (t0 : Z) (disk : StudioConfig) (logs : option string)
  : World :=
  {| runtimeState :=
       {| status := Idle; queueDepth := 18; jobsProcessed := 1284;
          successRate := 94.3; activeWorkers := 4;
          lastHeartbeat := toISOString t0 |};
     connectionState :=
       {| mode := Local; apiReachable := false;
          apiEndpoint := "http://127.0.0.1:5050";
          apiLatencyMs := None; wsConnected := false; wsEndpoint := "";
          lastCheck := None; lastEventAt := None; lastError := None |};
     remoteCache_hasSnapshot := false;
     remoteCache_logs := [];
     wsClient := None;
     wsReconnectTimer := None;
     manualWsDisconnect := false;
     pendingTimers := [];
     nextHandle := 0;
     logsFile := logs;
     configFile := disk;
     clock := t0;
     requests := [] |}.

End Studio.

(** ** Conversions that throw

    [String(v)] and [Number(v)] convert an object to a primitive first, by
    calling its [toString] and [valueOf] methods. An object read from JSON
    inherits both; the inherited [valueOf] returns the object itself and
    the inherited [toString] returns "[object Object]". A member of its own
    named [toString] shadows the inherited method, and since no JSON value
    is a function, neither method then yields a primitive: the conversion
    throws a [TypeError]. An array is converted by joining the conversions
    of its elements ([null] counts as the empty string), so it throws when
    one of them does. *)

Module Exact.
Import JS Studio.

(** How the evaluation of an expression ends: with a value, or with the
    [TypeError] of a conversion. *)
Inductive Completion (A : Type) : Type :=
| Returned (a : A)
| Thrown.

Arguments Returned {A} a.
Arguments Thrown {A}.

Definition andThen {A B} (c : Completion A) (k : A -> Completion B) : Completion B :=
  match c with
  | Returned a => k a
  | Thrown => Thrown
  end.

Notation "'let?' x := c 'in' k" := (andThen c (fun x => k))
  (at level 10, x name, c at level 100, k at level 200) : js_scope.

(** [ToPrimitive(v)] throws. *)
Fixpoint hasNoPrimitive (v : JSValue) : bool :=
  match v with
  | JObj props =>
      match lookupProp "toString" props with
      | Some _ => true
      | None => false
      end
  | JArr items => existsb hasNoPrimitive items
  | JNull | JBool _ | JNum _ | JStr _ => false
  end.

Section Reconciler.
Context `{JSRuntime}.

(** [String(v)] *)
Definition ToString (v : JSValue) : Completion string :=
  if hasNoPrimitive v then Thrown else Returned (JS.ToString v).

(** [Number(v)] *)
Definition ToNumber (v : option JSValue) : Completion float :=
  match v with
  | Some x => if hasNoPrimitive x then Thrown else Returned (JS.ToNumber v)
  | None => Returned (JS.ToNumber v)
  end.

Definition numberOrFallback (value : option JSValue) (fallback : float)
  : Completion float :=
  let? parsed := ToNumber value in
  Returned (if Number_isFinite parsed then parsed else fallback).

Definition normalizeStatus (value : JSValue) : Completion BotStatus :=
  let? text := ToString (orElse value (JStr "idle")) in
  let normalized := toLowerCase text in
  Returned
    (if includes ["running"; "paused"; "stopped"; "idle"]%string normalized then
       if String.eqb normalized "running" then Running
       else if String.eqb normalized "paused" then Paused
       else if String.eqb normalized "stopped" then Stopped
       else Idle
     else if includes ["active"; "busy"; "processing"]%string normalized then Running
     else if includes ["halted"; "terminated"; "off"]%string normalized then Stopped
     else Idle).

(** [normalizeSnapshot]; [cached] is [runtimeState] and [now] the clock.
    The fields are converted in the order of the source. *)
Definition normalizeSnapshot (cached : BotSnapshot) (now : Z) (payload : JSValue)
  : Completion (option BotSnapshot) :=
  if negb (truthy payload) || negb (typeofObject payload) then Returned None
  else
    let source := snapshotSource payload in
    if negb (truthy source) || isArray source || negb (typeofObject source) then Returned None
    else
      let statusRaw :=
        coalesce (field3 source "status" "state" "mode")
                 (Some (JStr (statusName (status cached)))) in
      let? status := normalizeStatus (default JNull statusRaw) in
      let? queueDepth :=
        numberOrFallback (field3 source "queueDepth" "queue_depth" "queue")
                         (queueDepth cached) in
      let? jobsProcessed :=
        numberOrFallback (field3 source "jobsProcessed" "jobs_processed" "jobs")
                         (jobsProcessed cached) in
      let? successRate :=
        numberOrFallback (field3 source "successRate" "success_rate" "success")
                         (successRate cached) in
      let? activeWorkers :=
        numberOrFallback (field3 source "activeWorkers" "active_workers" "workers")
                         (activeWorkers cached) in
      let heartbeatRaw :=
        coalesce (field3 source "lastHeartbeat" "last_heartbeat" "heartbeat")
                 (Some (JStr (toISOString now))) in
      let? lastHeartbeat := ToString (default JNull heartbeatRaw) in
      Returned (Some {|
        status := status;
        queueDepth := clamp queueDepth 0 10000;
        jobsProcessed := clamp jobsProcessed 0 100000000;
        successRate := clamp successRate 0 100;
        activeWorkers := clamp activeWorkers 0 1000;
        lastHeartbeat := lastHeartbeat;
      |}).

End Reconciler.

Section Configuration.
Context `{JSRuntime}.

(** [defaultConfig], with all its members. *)
Definition defaultConfig : JSValue :=
  JObj [ ("botPath", JStr ""); ("launchCommand", JStr "python3 main.py");
         ("apiEndpoint", JStr "http://127.0.0.1:5050"); ("wsEndpoint", JStr "");
         ("workspacePath", JStr ""); ("autostart", JBool false);
         ("desktopNotifications", JBool true); ("safeMode", JBool true);
         ("autoReconnect", JBool true); ("pollingIntervalMs", JNum 5000) ].

(** The members that [{...v}] copies: the own, enumerable ones. A string
    and an array have one for each index. *)
Definition spread (v : JSValue) : list (string * JSValue) :=
  match v with
  | JObj props => props
  | JArr items => imap (fun i item => (IntegerToString (Z.of_nat i), item)) items
  | JStr s =>
      imap (fun i c => (IntegerToString (Z.of_nat i), JStr (String c EmptyString)))
           (list_ascii_of_string s)
  | JNull | JBool _ | JNum _ => []
  end.

(** [nextConfig?.key]; [nextConfig] is [None] when the caller passes
    [undefined]. *)
Definition member (nextConfig : option JSValue) (key : string) : option JSValue :=
  match nextConfig with
  | Some v => getProp v key
  | None => None
  end.

(** [String(nextConfig?.key || fallback)] *)
Definition textMember (nextConfig : option JSValue) (key fallback : string)
  : Completion string :=
  ToString (orElse (default JNull (member nextConfig key)) (JStr fallback)).

(** [Boolean(nextConfig?.key)] *)
Definition flagMember (nextConfig : option JSValue) (key : string) : bool :=
  truthyOpt (member nextConfig key).

(** The object [merged] that [saveConfig] builds: the members of
    [defaultConfig], over them those of [nextConfig], and over those the
    ten that it converts. The fall-backs are the values of
    [defaultConfig.launchCommand], [defaultConfig.apiEndpoint] and
    [defaultConfig.pollingIntervalMs]. *)
Definition merged (nextConfig : option JSValue) : Completion JSValue :=
  let given := orElse (default JNull nextConfig) (JObj []) in
  let? botPath := textMember nextConfig "botPath" "" in
  let? launchCommand := textMember nextConfig "launchCommand" "python3 main.py" in
  let? apiEndpoint := textMember nextConfig "apiEndpoint" "http://127.0.0.1:5050" in
  let? wsEndpoint := textMember nextConfig "wsEndpoint" "" in
  let? workspacePath := textMember nextConfig "workspacePath" "" in
  let? pollingIntervalMs :=
    numberOrFallback (member nextConfig "pollingIntervalMs") 5000 in
  Returned
    (JObj (spread defaultConfig ++ spread given
           ++ [ ("botPath", JStr botPath);
                ("launchCommand", JStr launchCommand);
                ("apiEndpoint", JStr apiEndpoint);
                ("wsEndpoint", JStr wsEndpoint);
                ("workspacePath", JStr workspacePath);
                ("autostart", JBool (flagMember nextConfig "autostart"));
                ("desktopNotifications",
                 JBool (flagMember nextConfig "desktopNotifications"));
                ("safeMode", JBool (flagMember nextConfig "safeMode"));
                ("autoReconnect", JBool (flagMember nextConfig "autoReconnect"));
                ("pollingIntervalMs", JNum (clamp pollingIntervalMs 1000 120000)) ])).

(** What the orchestrator reads of a configuration object. *)
Definition readMembers (config : JSValue) : StudioConfig :=
  {| cfg_apiEndpoint := default JNull (getProp config "apiEndpoint");
     cfg_wsEndpoint := default JNull (getProp config "wsEndpoint");
     cfg_autoReconnect := default JNull (getProp config "autoReconnect");
     cfg_pollingIntervalMs := default JNull (getProp config "pollingIntervalMs") |}.

(** [saveConfig]: when a conversion throws nothing has been written yet.
    The directory is made and the file is written without error; of the
    file, the state keeps what the orchestrator reads. *)
Definition saveConfig (nextConfig : option JSValue) : World -> Completion JSValue * World :=
  fun w =>
    match merged nextConfig with
    | Thrown => (Thrown, w)
    | Returned config =>
        let stored := readMembers config in
        (Returned config,
         exec (modify (set_configFile stored) ;;
               setConn (set_apiEndpoint (normalizeHttpEndpoint (cfg_apiEndpoint stored))) ;;
               setConn (set_wsEndpoint (toWebSocketEndpoint stored))) w)
    end.

End Configuration.

End Exact.

(** ** A runtime to evaluate the model on concrete inputs

    The fields agree with the ECMAScript built-ins on the inputs that the
    examples of this file feed them: [Number] on blank strings and on
    strings that are no numeric literal; [JSON.parse] on the three texts
    listed and on texts that are no JSON; [new URL] on the two addresses
    listed and on addresses without a host; case mapping on ASCII;
    [toISOString] on the instants of the first day of the epoch;
    [new WebSocket] on well-formed addresses. No example renders a number
    as text. *)

Module Example.
Import JS Studio.

Definition digit (n : Z) : string :=
  String (ascii_of_N (48 + Z.to_N (n mod 10))) EmptyString.

Definition pad2 (n : Z) : string := digit (n / 10) +++ digit n.
Definition pad3 (n : Z) : string := digit (n / 100) +++ pad2 n.

Definition isoOfFirstDay (t : Z) : string :=
  let ms := (t mod 86400000)%Z in
  "1970-01-01T" +++ pad2 (ms / 3600000) +++ ":" +++ pad2 ((ms / 60000) mod 60)
  +++ ":" +++ pad2 ((ms / 1000) mod 60) +++ "." +++ pad3 (ms mod 1000) +++ "Z".

Definition upperAscii (c : ascii) : ascii :=
  let n := code c in
  if ((97 <=? n) && (n <=? 122))%N then ascii_of_N (n - 32) else c.

Fixpoint mapChars (f : ascii -> ascii) (s : string) : string :=
  match s with
  | EmptyString => EmptyString
  | String c rest => String (f c) (mapChars f rest)
  end.

Definition quote : string := String (ascii_of_N 34) EmptyString.

(** Serialises a value whose strings need no escape and that holds no
    number. *)
Fixpoint stringify (v : JSValue) : string :=
  match v with
  | JNull => "null"
  | JBool true => "true"
  | JBool false => "false"
  | JNum _ => "null"
  | JStr s => quote +++ s +++ quote
  | JArr items => "[" +++ joinWith "," (map stringify items) +++ "]"
  | JObj props =>
      "{" +++ joinWith "," (map (fun kv => quote +++ fst kv +++ quote +++ ":" +++ stringify (snd kv)) props)
      +++ "}"
  end.

Definition parseUrl (s : string) : option URL :=
  if String.eqb s "http://127.0.0.1:5050" then
    Some {| protocol := "http:"; host := "127.0.0.1:5050"; pathname := "/" |}
  else if String.eqb s "https://bot.example.com/api/" then
    Some {| protocol := "https:"; host := "bot.example.com"; pathname := "/api/" |}
  else None.

Definition parseJson (s : string) : option JSValue :=
  if String.eqb s "[]" then Some (JArr [])
  else if String.eqb s "null" then Some JNull
  else if String.eqb s "true" then Some (JBool true)
  else None.

Definition runtime : JSRuntime := {|
  StringToNumber := fun s => if isEmpty (trim s) then 0%float else PrimFloat.nan;
  NumberToString := fun _ => "NaN";
  JSON_parse := parseJson;
  JSON_stringify := stringify;
  URL_parse := parseUrl;
  toLowerCase := mapChars lowerAscii;
  toUpperCase := mapChars upperAscii;
  WebSocket_throws := fun _ => None;
  toISOString := isoOfFirstDay;
|}.

(** Worlds and networks for the examples. *)

Section ExampleWorlds.
#[local] Existing Instance runtime.

(** A process just started, at the epoch, with the default configuration
    and no log file yet. *)
Definition freshWorld : World := initialWorld 0 defaultConfig None.

(** The cache that the process starts from. *)
Definition seedSnapshot : BotSnapshot :=
  runtimeState (initialWorld 0 defaultConfig None).


(** A backend whose every path answers 200 "OK" after 12 ms. *)
Definition healthyNetwork : Network :=
  fun _ _ => {| net_elapsed := 12; net_result := HttpResponse 200 "OK" |}.

(** A backend that answers every request with two lines of plain text. *)
Definition chattyNetwork : Network :=
  fun _ _ => {| net_elapsed := 7;
                net_result := HttpResponse 200 ("worker up" +++ LF +++ "job 7 done") |}.

(** A backend that is down: every request fails after 4.5 s. *)
Definition deadNetwork : Network :=
  fun _ _ => {| net_elapsed := 4500; net_result := NetFailure (Some "fetch failed") |}.

(** The socket that the first [connectWebSocket] of a fresh process opens
    under the default configuration. *)
Definition streamSocket : WebSocketClient :=
  {| ws_id := 0; ws_endpoint := "ws://127.0.0.1:5050/ws" |}.

(** A configuration from which no stream endpoint can be computed. *)
Definition blankConfig : StudioConfig :=
  {| cfg_apiEndpoint := JStr ""; cfg_wsEndpoint := JStr "";
     cfg_autoReconnect := JBool true; cfg_pollingIntervalMs := JNum 5000 |}.

(** The renderer asks for the stream and the socket opens ... *)
Definition openedWorld : World :=
  exec (wsOnOpen streamSocket) (exec ipcConnectWs freshWorld).

(** ... and closes again, before any message and any probe. *)
Definition closedWorld : World :=
  exec wsOnCloseEnd (exec (wsOnCloseBegin streamSocket) openedWorld).

End ExampleWorlds.

End Example.

Import JS Studio Example.

(** * Specification vocabulary *)

Section Vocabulary.
Context `{JSRuntime}.
Variable net : Network.

(** [lo <= x <= hi] as JavaScript compares numbers. *)
Definition inRange (lo hi x : float) : Prop :=
  (lo <=? x)%float = true /\ (x <=? hi)%float = true.

(** The counters of a snapshot are numbers (none is NaN). *)
Definition numericCache (s : BotSnapshot) : Prop :=
  PrimFloat.is_nan (queueDepth s) = false /\ PrimFloat.is_nan (jobsProcessed s) = false
  /\ PrimFloat.is_nan (successRate s) = false /\ PrimFloat.is_nan (activeWorkers s) = false.

(** A binary64 value that is neither NaN nor infinite. *)
Definition finiteSF (x : spec_float) : Prop :=
  match x with
  | S754_zero _ | S754_finite _ _ _ => True
  | _ => False
  end.

(** An operation that keeps the counters of [runtimeState] numbers. *)
Definition keepsNumeric {A} (m : M A) : Prop :=
  forall w, numericCache (runtimeState w) -> numericCache (runtimeState (exec m w)).

(** [result] lies in [[lo, hi]]. It is the clamp of the incoming value
    when that is a finite number, or a string with something other than
    white space in it that [Number] reads as one; it is the clamp of the
    cached value when the incoming value is absent, a number that is not
    finite, such a string that [Number] does not read as a finite number,
    or an object. *)
Definition reconciled (incoming : option JSValue) (cached lo hi result : float) : Prop :=
  inRange lo hi result
  /\ match incoming with
     | None | Some (JObj _) => result = clamp cached lo hi
     | Some (JNum n) => result = clamp (if Number_isFinite n then n else cached) lo hi
     | Some (JStr s) =>
         isEmpty (trim s) = false ->
         result = clamp (if Number_isFinite (StringToNumber s) then StringToNumber s
                         else cached) lo hi
     | Some JNull | Some (JBool _) | Some (JArr _) => True
     end.

(** [String] and [Number] return on [v] (an absent value included). *)
Definition converts (v : option JSValue) : bool :=
  match v with
  | Some x => negb (Exact.hasNoPrimitive x)
  | None => true
  end.

(** Every value that [normalizeSnapshot] converts, read from [source],
    can be converted. *)
Definition snapshotConverts (source : JSValue) : bool :=
  converts (field3 source "status" "state" "mode")
  && converts (field3 source "queueDepth" "queue_depth" "queue")
  && converts (field3 source "jobsProcessed" "jobs_processed" "jobs")
  && converts (field3 source "successRate" "success_rate" "success")
  && converts (field3 source "activeWorkers" "active_workers" "workers")
  && converts (field3 source "lastHeartbeat" "last_heartbeat" "heartbeat").

(** [normalizeSnapshot] returns [null] on [payload]. *)
Definition readsAsNull (payload : JSValue) : bool :=
  negb (truthy payload && typeofObject payload) || isArray (snapshotSource payload).

(** The request a probe sends to a candidate path. *)
Definition healthRequest (api path : string) : Request :=
  {| req_url := joinUrl api path; req_body := None; req_timeoutMs := 4500 |}.

(** The network answered with HTTP success, or with a status of the
    2xx-4xx band other than 404. *)
Definition replyAccepted (r : NetReply) : bool :=
  match net_result r with
  | HttpResponse st _ =>
      httpOk st || ((200 <=? st)%Z && (st <? 500)%Z && negb (st =? 404)%Z)
  | NetFailure _ => false
  end.

(** Whether the [k]-th candidate of [paths] is accepted, in a probe that
    starts in the world [w]. *)
Definition acceptedAt (w : World) (api : string) (paths : list string) (k : nat) : bool :=
  match paths !! k with
  | Some path => replyAccepted (net (length (requests w) + k) (healthRequest api path))
  | None => false
  end.

(** The time that the [k]-th request of a probe takes, in a probe that
    starts in the world [w]. *)
Definition healthElapsed (w : World) (api : string) (paths : list string) (k : nat) : Z :=
  match paths !! k with
  | Some path => Z.of_N (net_elapsed (net (length (requests w) + k) (healthRequest api path)))
  | None => 0
  end.

(** The time that the first [n] requests of that probe take together. *)
Fixpoint probeElapsed (w : World) (api : string) (paths : list string) (n : nat) : Z :=
  match n with
  | O => 0
  | S n' => probeElapsed w api paths n' + healthElapsed w api paths n'
  end.

(** The probe found the backend, [elapsed] milliseconds after it began. *)
Definition probeReached (elapsed : Z) (c' : ConnectionState) : Prop :=
  apiReachable c' = true
  /\ apiLatencyMs c' = Some elapsed
  /\ (0 <= elapsed)%Z
  /\ lastError c' = None
  /\ mode c' = Remote.

(** The probe gave up; [c] is the state before it. *)
Definition probeFailed (c c' : ConnectionState) : Prop :=
  apiReachable c' = false
  /\ apiLatencyMs c' = None
  /\ (exists e, lastError c' = Some e /\ isEmpty e = false)
  /\ mode c' = (if wsConnected c then Remote else Local).

(** Two snapshots agree on queueDepth, jobsProcessed and successRate. *)
Definition sameCounters (a b : BotSnapshot) : Prop :=
  queueDepth a = queueDepth b /\ jobsProcessed a = jobsProcessed b
  /\ successRate a = successRate b.

(** The actions the [switch] of [performBotAction] has a case for. *)
Definition knownActions : list string := ["start"; "pause"; "resume"; "stop"; "sync"].

(** The variables that only the session manager writes. *)
Definition session (w : World) : option nat * list ReconnectTimer * bool :=
  (wsReconnectTimer w, pendingTimers w, manualWsDisconnect w).

(** An operation that leaves the session variables alone. *)
Definition keepsSession {A} (m : M A) : Prop :=
  forall w, session (exec m w) = session w.

(** The delay of a reconnect timer lies in [2000, 30000] ms. *)
Definition delayInRange (t : ReconnectTimer) : Prop :=
  inRange 2000 30000 (timer_delayMs t).

(** At most one reconnect timer is armed, [wsReconnectTimer] holds its
    handle, and its delay lies in [2000, 30000] ms. *)
Definition timersTracked (w : World) : Prop :=
  (pendingTimers w = []
   \/ exists t, pendingTimers w = [t] /\ wsReconnectTimer w = Some (timer_handle t))
  /\ Forall delayInRange (pendingTimers w).

(** [mode] is remote exactly when the API is reachable or the stream is
    connected. *)
Definition modeConsistent (c : ConnectionState) : Prop :=
  mode c = if apiReachable c || wsConnected c then Remote else Local.

End Vocabulary.

(** * Further vocabulary *)

Section MoreVocabulary.
Context `{JSRuntime}.

(** [v] is [undefined] or [null]: what [??] passes over. *)
Definition missing (v : option JSValue) : bool :=
  match v with
  | None | Some JNull => true
  | Some _ => false
  end.

(** The runtime maps the four status names, which are lower-case, to
    themselves. *)
Definition lowerCaseFixesStatusNames : Prop :=
  forall s, toLowerCase (statusName s) = statusName s.

(** An operation that keeps the invariant [Inv] of the process. *)
Definition keeps (Inv : World -> Prop) {A} (m : M A) : Prop :=
  forall w, Inv w -> Inv (exec m w).

(** An operation that resolves to [connectionState] as it leaves it. *)
Definition returnsConnectionState (m : M ConnectionState) : Prop :=
  forall w, eval m w = connectionState (exec m w).

(** A command of [commands] succeeds on the machine. *)
Definition succeeds (machine : Machine) (entry : CommandEntry) : bool :=
  cmd_ok (runCommand machine (command entry) (args entry)).

(** The report of a successful version check. *)
Definition passReport (machine : Machine) (name : string) (entry : CommandEntry)
  : SetupCheckResult :=
  let output := cmd_output (runCommand machine (command entry) (args entry)) in
  {| check_name := name; check_status := Pass;
     check_detail := if isEmpty output then command entry +++ " detected" else output |}.

(** [botPath] is a string with something other than white space in it. *)
Definition nonBlankString (v : JSValue) : bool :=
  match v with
  | JStr s => negb (isEmpty (trim s))
  | _ => false
  end.

(** An operation that, when it resolves to a snapshot, resolves to
    [runtimeState] as it leaves it. *)
Definition returnsRuntimeState (m : M (option BotSnapshot)) : Prop :=
  forall w s, eval m w = Some s -> s = runtimeState (exec m w).

(** No API endpoint can be computed from the configuration on disk. *)
Definition offline (w : World) : Prop :=
  isEmpty (normalizeHttpEndpoint (cfg_apiEndpoint (configFile w))) = true.

(** The request [fetchRemoteSnapshot] sends to a candidate path. *)
Definition snapshotRequest (api path : string) : Request :=
  {| req_url := joinUrl api path; req_body := None; req_timeoutMs := 5000 |}.

(** The value of [lastCheck], as an invariant. *)
Definition checkedIs (v : option Z) (w : World) : Prop :=
  lastCheck (connectionState w) = v.

(** The log file holds [contents] and what has been appended since. *)
Definition logExtends (contents : string) (w : World) : Prop :=
  exists suffix, logsFile w = Some (contents +++ suffix).

(** The cache of remote log lines holds at most 500 lines. *)
Definition logCacheBounded (w : World) : Prop :=
  (length (remoteCache_logs w) <= 500)%nat.

(** While the operator has the stream disconnected, no reconnect timer is
    armed and [wsReconnectTimer] holds none. *)
Definition quietWhileManual (w : World) : Prop :=
  manualWsDisconnect w = true -> pendingTimers w = [] /\ wsReconnectTimer w = None.

(** The value of [manualWsDisconnect], as an invariant. *)
Definition manualIs (flag : bool) (w : World) : Prop := manualWsDisconnect w = flag.

(** [m], started in a state that satisfies [P], ends in one that
    satisfies [Q]. *)
Definition hoare (P : World -> Prop) {A} (m : M A) (Q : World -> Prop) : Prop :=
  forall w, P w -> Q (exec m w).

(** A property of the connection state, as a property of the process. *)
Definition onConn (J : ConnectionState -> Prop) (w : World) : Prop :=
  J (connectionState w).

(** [mode] is remote whenever the API is reachable or the stream is
    connected. *)
Definition remoteWhenUp (c : ConnectionState) : Prop :=
  apiReachable c || wsConnected c = true -> mode c = Remote.

(** The assertions that hold between the writes of a block that updates
    the connection state. *)
Definition unreachableYet (c : ConnectionState) : Prop :=
  apiReachable c = false /\ remoteWhenUp c.

Definition modeIsRemote (c : ConnectionState) : Prop := mode c = Remote.

Definition anyConnection (c : ConnectionState) : Prop := True.

(** The request [tryRemoteAction] posts to a candidate path. *)
Definition actionRequest (api path action : string) : Request :=
  {| req_url := joinUrl api path;
     req_body := Some (JSON_stringify (JObj [("action", JStr action)]));
     req_timeoutMs := 5500 |}.

(** No character of [s] is a line feed. *)
Definition noLineFeed (s : string) : Prop :=
  Forall (fun c => isLF c = false) (list_ascii_of_string s).

(** The log file is absent, or its last character is a line feed. *)
Definition endsWithNewline (w : World) : Prop :=
  match logsFile w with
  | Some contents => exists head, contents = head +++ LF
  | None => True
  end.

(** A JSON value that is neither a string nor a container. *)
Definition isScalar (v : JSValue) : bool :=
  match v with
  | JNull | JBool _ | JNum _ => true
  | _ => false
  end.

(** What the start-up sequence establishes. *)
Definition startedUp (saved : StudioConfig) (startedAt : Z) (w : World) : Prop :=
  configFile w = saved
  /\ logsFile w <> None
  /\ lastCheck (connectionState w) = Some startedAt
  /\ apiEndpoint (connectionState w) = normalizeHttpEndpoint (cfg_apiEndpoint saved)
  /\ wsEndpoint (connectionState w) = toWebSocketEndpoint saved.

(** The request [fetchRemoteLogs] sends to a candidate path. *)
Definition logsRequest (api path : string) : Request :=
  {| req_url := joinUrl api path; req_body := None; req_timeoutMs := 5000 |}.

(** The network answers with HTTP success (a 2xx status). *)
Definition replyOk (r : NetReply) : bool :=
  match net_result r with
  | HttpResponse st _ => httpOk st
  | NetFailure _ => false
  end.

(** The members of [nextConfig] that [saveConfig] converts with [String]
    and, the last one, with [Number]. *)
Definition convertedMembers : list string :=
  [ "botPath"; "launchCommand"; "apiEndpoint"; "wsEndpoint"; "workspacePath";
    "pollingIntervalMs" ].

(** Each of them can be converted. *)
Definition configConverts (nextConfig : option JSValue) : bool :=
  forallb (fun key => converts (Exact.member nextConfig key)) convertedMembers.

(** A configuration as [saveConfig] writes it: five strings, four
    booleans and a polling interval between one second and two minutes. *)
Definition wellFormedConfig (config : JSValue) : Prop :=
  Forall (fun key => exists text, getProp config key = Some (JStr text))
    [ "botPath"; "launchCommand"; "apiEndpoint"; "wsEndpoint"; "workspacePath" ]
  /\ Forall (fun key => exists flag, getProp config key = Some (JBool flag))
       [ "autostart"; "desktopNotifications"; "safeMode"; "autoReconnect" ]
  /\ exists interval,
       getProp config "pollingIntervalMs" = Some (JNum interval)
       /\ inRange 1000 120000 interval.

(** The ten members that [saveConfig] sets, when every conversion
    returns. *)
Definition convertedConfig (nextConfig : option JSValue) : list (string * JSValue) :=
  let text key fallback :=
    JStr (ToString (orElse (default JNull (Exact.member nextConfig key)) (JStr fallback))) in
  let flag key := JBool (Exact.flagMember nextConfig key) in
  [ ("botPath", text "botPath" "");
    ("launchCommand", text "launchCommand" "python3 main.py");
    ("apiEndpoint", text "apiEndpoint" "http://127.0.0.1:5050");
    ("wsEndpoint", text "wsEndpoint" "");
    ("workspacePath", text "workspacePath" "");
    ("autostart", flag "autostart");
    ("desktopNotifications", flag "desktopNotifications");
    ("safeMode", flag "safeMode");
    ("autoReconnect", flag "autoReconnect");
    ("pollingIntervalMs",
     JNum (clamp (numberOrFallback (Exact.member nextConfig "pollingIntervalMs") 5000)
                 1000 120000)) ].

(** Two objects have the same members. *)
Definition sameMembers (a b : JSValue) : Prop :=
  forall key, getProp a key = getProp b key.

(** The object that holds the four members of [config]. *)
Definition configObject (config : StudioConfig) : JSValue :=
  JObj [ ("apiEndpoint", cfg_apiEndpoint config); ("wsEndpoint", cfg_wsEndpoint config);
         ("autoReconnect", cfg_autoReconnect config);
         ("pollingIntervalMs", cfg_pollingIntervalMs config) ].

End MoreVocabulary.

(** * Further examples *)

Section MoreExamples.

(** The body of a backend that answers an action with its status, the
    text [{"status":"busy"}], and a runtime whose [JSON.parse] reads it. *)
Definition actionReply : JSValue := JObj [("status", JStr "busy")].

Definition actionReplyText : string := stringify actionReply.

Definition runtimeWithReply : JSRuntime := {|
  StringToNumber := fun s => if isEmpty (trim s) then 0%float else PrimFloat.nan;
  NumberToString := fun _ => "NaN";
  JSON_parse := fun s => if String.eqb s actionReplyText then Some actionReply
                         else parseJson s;
  JSON_stringify := stringify;
  URL_parse := parseUrl;
  toLowerCase := mapChars lowerAscii;
  toUpperCase := mapChars upperAscii;
  WebSocket_throws := fun _ => None;
  toISOString := isoOfFirstDay;
|}.

(** A runtime whose [WebSocket] constructor rejects every address. *)
Definition runtimeWithBrokenSocket : JSRuntime := {|
  StringToNumber := fun s => if isEmpty (trim s) then 0%float else PrimFloat.nan;
  NumberToString := fun _ => "NaN";
  JSON_parse := parseJson;
  JSON_stringify := stringify;
  URL_parse := parseUrl;
  toLowerCase := mapChars lowerAscii;
  toUpperCase := mapChars upperAscii;
  WebSocket_throws := fun _ => Some (Some "Invalid URL");
  toISOString := isoOfFirstDay;
|}.

(** A backend that answers every request with that body after 20 ms. *)
Definition obligingNetwork : Network :=
  fun _ _ => {| net_elapsed := 20; net_result := HttpResponse 200 actionReplyText |}.

(** A message of the stream that reports the bot paused, the text
    [{"status":"paused"}], and a runtime whose [JSON.parse] reads it. *)
Definition pausedMessage : JSValue := JObj [("status", JStr "paused")].

Definition pausedMessageText : string := stringify pausedMessage.

Definition runtimeWithMessage : JSRuntime := {|
  StringToNumber := fun s => if isEmpty (trim s) then 0%float else PrimFloat.nan;
  NumberToString := fun _ => "NaN";
  JSON_parse := fun s => if String.eqb s pausedMessageText then Some pausedMessage
                         else parseJson s;
  JSON_stringify := stringify;
  URL_parse := parseUrl;
  toLowerCase := mapChars lowerAscii;
  toUpperCase := mapChars upperAscii;
  WebSocket_throws := fun _ => None;
  toISOString := isoOfFirstDay;
|}.

End MoreExamples.

(** * Properties *)

(** ** Comparison of binary64 numbers *)

Section Floats.
#[local] Open Scope float_scope.

Lemma SFcompare_refl x : x <> S754_nan -> SFcompare x x = Some Eq.
Proof.
  destruct x as [s|s| |s m e]; simpl; try congruence; intros _.
  - by destruct s.
  - rewrite Z.compare_refl, Pos.compare_cont_refl. by destruct s.
Qed.

Lemma SFcompare_antisym x y c :
  SFcompare x y = Some c -> SFcompare y x = Some (CompOpp c).
Proof.
  destruct x as [s1|s1| |s1 m1 e1], y as [s2|s2| |s2 m2 e2]; simpl;
    intros [= <-]; try (by repeat match goal with s : bool |- _ => destruct s end).
  rewrite (Z.compare_antisym e1 e2).
  destruct s1, s2; simpl; try done; destruct (e1 ?= e2)%Z; simpl; try done;
    by rewrite (Pos.compare_cont_antisym m1 m2 Eq), ?CompOpp_involutive.
Qed.

Lemma SFcompare_None x y :
  SFcompare x y = None -> x = S754_nan \/ y = S754_nan.
Proof.
  destruct x as [s1|s1| |s1 m1 e1], y as [s2|s2| |s2 m2 e2]; simpl; auto; discriminate.
Qed.

Lemma is_nan_false x : is_nan x = false -> Prim2SF x <> S754_nan.
Proof.
  unfold is_nan. rewrite FloatAxioms.eqb_spec. unfold SFeqb.
  intros Hn E. rewrite E in Hn. discriminate.
Qed.

Lemma is_finite_not_nan x : Number_isFinite x = true -> is_nan x = false.
Proof.
  unfold Number_isFinite, is_finite. by destruct (is_nan x).
Qed.

Lemma leb_refl x : is_nan x = false -> (x <=? x) = true.
Proof.
  intros Hn%is_nan_false. rewrite leb_spec. unfold SFleb. by rewrite SFcompare_refl.
Qed.

Lemma ltb_leb x y : (x <? y) = true -> (x <=? y) = true.
Proof.
  rewrite ltb_spec, leb_spec. unfold SFltb, SFleb.
  by destruct (SFcompare _ _) as [[]|].
Qed.

Lemma not_ltb_leb x y :
  is_nan x = false -> is_nan y = false -> (x <? y) = false -> (y <=? x) = true.
Proof.
  intros Hx%is_nan_false Hy%is_nan_false. rewrite ltb_spec, leb_spec. unfold SFltb, SFleb.
  destruct (SFcompare (Prim2SF x) (Prim2SF y)) as [c|] eqn:E.
  - rewrite (SFcompare_antisym _ _ _ E). by destruct c.
  - by destruct (SFcompare_None _ _ E).
Qed.

Lemma Math_min_cases a b :
  is_nan a = false -> is_nan b = false ->
  (Math_min a b = a /\ (a <=? b) = true) \/ (Math_min a b = b /\ (b <=? a) = true).
Proof.
  intros Ha Hb. unfold Math_min. rewrite Ha, Hb. simpl.
  destruct (a <? b) eqn:Hab; [left; eauto using ltb_leb|].
  destruct (b <? a) eqn:Hba; [right; eauto using ltb_leb|].
  destruct (get_sign a); [left|right]; eauto using not_ltb_leb.
Qed.

Lemma Math_max_cases a b :
  is_nan a = false -> is_nan b = false ->
  (Math_max a b = a /\ (b <=? a) = true) \/ (Math_max a b = b /\ (a <=? b) = true).
Proof.
  intros Ha Hb. unfold Math_max. rewrite Ha, Hb. simpl.
  destruct (a <? b) eqn:Hab; [right; eauto using ltb_leb|].
  destruct (b <? a) eqn:Hba; [left; eauto using ltb_leb|].
  destruct (get_sign a); [right|left]; eauto using not_ltb_leb.
Qed.

(** [clamp] lands in [[lo, hi]] whenever its argument is a number. *)
Lemma clamp_inRange value lo hi :
  is_nan value = false -> is_nan lo = false -> is_nan hi = false ->
  (lo <=? hi) = true ->
  inRange lo hi (clamp value lo hi).
Proof.
  intros Hv Hlo Hhi Hle. unfold clamp, inRange.
  destruct (Math_min_cases hi value Hhi Hv) as [[-> Hm]|[-> Hm]].
  - destruct (Math_max_cases lo hi Hlo Hhi) as [[-> ?]|[-> ?]];
      eauto using leb_refl.
  - destruct (Math_max_cases lo value Hlo Hv) as [[-> ?]|[-> ?]];
      eauto using leb_refl.
Qed.

Lemma not_nan_is_nan x : Prim2SF x <> S754_nan -> is_nan x = false.
Proof.
  intros Hx. unfold is_nan. rewrite FloatAxioms.eqb_spec. unfold SFeqb.
  by rewrite SFcompare_refl.
Qed.

Lemma leb_not_nan x y : (x <=? y) = true -> is_nan y = false.
Proof.
  rewrite leb_spec. unfold SFleb. intros Hle. apply not_nan_is_nan. intros Hy.
  rewrite Hy in Hle. by destruct (Prim2SF x).
Qed.

Lemma inRange_not_nan lo hi x : inRange lo hi x -> is_nan x = false.
Proof. intros [Hlo _]. by eapply leb_not_nan. Qed.

Lemma Math_min_not_nan a b :
  is_nan a = false -> is_nan b = false -> is_nan (Math_min a b) = false.
Proof.
  intros Ha Hb. by destruct (Math_min_cases a b Ha Hb) as [[-> _]|[-> _]].
Qed.

Lemma Math_max_not_nan a b :
  is_nan a = false -> is_nan b = false -> is_nan (Math_max a b) = false.
Proof.
  intros Ha Hb. by destruct (Math_max_cases a b Ha Hb) as [[-> _]|[-> _]].
Qed.

(** Rounding a non-negative mantissa never yields NaN, so neither does the
    sum or the difference of a number and a finite number. *)
Lemma shr_1_nonneg mrs : (0 <= shr_m mrs)%Z -> (0 <= shr_m (shr_1 mrs))%Z.
Proof.
  destruct mrs as [m r s]. simpl. destruct m as [|[p|p|]|p]; simpl; lia.
Qed.

Lemma iter_shr_1_nonneg p mrs :
  (0 <= shr_m mrs)%Z -> (0 <= shr_m (SpecFloat.iter_pos shr_1 p mrs))%Z.
Proof.
  revert mrs. induction p as [p IH|p IH|]; intros mrs Hm; simpl;
    auto using shr_1_nonneg.
Qed.

Lemma shr_fexp_nonneg prec emax m e l :
  (0 <= m)%Z -> (0 <= shr_m (fst (shr_fexp prec emax m e l)))%Z.
Proof.
  intros Hm. unfold shr_fexp, shr.
  assert (H0 : (0 <= shr_m (shr_record_of_loc m l))%Z) by (by destruct l as [|[]]).
  destruct (fexp prec emax (Zdigits2 m + e) - e)%Z; simpl; auto using iter_shr_1_nonneg.
Qed.

Lemma round_nearest_even_nonneg m l : (0 <= m)%Z -> (0 <= round_nearest_even m l)%Z.
Proof.
  intros Hm. destruct l as [|[]]; simpl; try lia. destruct (Z.even m); lia.
Qed.

Lemma binary_round_aux_not_nan prec emax sx m e l :
  (0 <= m)%Z -> binary_round_aux prec emax sx m e l <> S754_nan.
Proof.
  intros Hm. unfold binary_round_aux.
  pose proof (shr_fexp_nonneg prec emax m e l Hm) as H1.
  destruct (shr_fexp prec emax m e l) as [mrs' e']. simpl in H1.
  pose proof (shr_fexp_nonneg prec emax
                (round_nearest_even (shr_m mrs') (loc_of_shr_record mrs')) e'
                loc_Exact (round_nearest_even_nonneg _ _ H1)) as H2.
  destruct (shr_fexp prec emax _ e' loc_Exact) as [mrs'' e'']. simpl in H2.
  destruct (shr_m mrs'') as [|p|p]; [done| |lia].
  by destruct (_ <=? _)%Z.
Qed.

Lemma binary_normalize_not_nan prec emax m e szero :
  binary_normalize prec emax m e szero <> S754_nan.
Proof.
  unfold binary_normalize, binary_round. destruct m as [|p|p]; try done;
    destruct (shl_align _ _ _); by apply binary_round_aux_not_nan.
Qed.

Lemma SFadd_not_nan prec emax x y :
  x <> S754_nan -> finiteSF y -> SFadd prec emax x y <> S754_nan.
Proof.
  intros Hx Hy. destruct x as [sx|sx| |sx mx ex], y as [sy|sy| |sy my ey];
    simpl in *; try done.
  - by destruct sx, sy.
  - apply binary_normalize_not_nan.
Qed.

Lemma SFsub_not_nan prec emax x y :
  x <> S754_nan -> finiteSF y -> SFsub prec emax x y <> S754_nan.
Proof.
  intros Hx Hy. destruct x as [sx|sx| |sx mx ex], y as [sy|sy| |sy my ey];
    simpl in *; try done.
  - by destruct sx, sy.
  - apply binary_normalize_not_nan.
Qed.

Lemma add_not_nan x c :
  is_nan x = false -> finiteSF (Prim2SF c) -> is_nan (x + c) = false.
Proof.
  intros Hx Hc. apply not_nan_is_nan. rewrite add_spec.
  apply SFadd_not_nan; auto using is_nan_false.
Qed.

Lemma sub_not_nan x c :
  is_nan x = false -> finiteSF (Prim2SF c) -> is_nan (x - c) = false.
Proof.
  intros Hx Hc. apply not_nan_is_nan. rewrite sub_spec.
  apply SFsub_not_nan; auto using is_nan_false.
Qed.

Lemma numberOrFallback_not_nan `{JSRuntime} value fallback :
  is_nan fallback = false -> is_nan (numberOrFallback value fallback) = false.
Proof.
  intros Hf. unfold numberOrFallback.
  destruct (Number_isFinite (ToNumber value)) eqn:E; auto using is_finite_not_nan.
Qed.

End Floats.

(** ** The payload reconciler *)

Section Reconciler.
Context `{JSRuntime}.
#[local] Open Scope float_scope.

Lemma objectMember_object payload key v :
  objectMember payload key = Some v -> truthy v && typeofObject v = true.
Proof.
  unfold objectMember. destruct (getProp payload key) as [x|]; [|done].
  destruct (truthy x && typeofObject x) eqn:E; [|done]. by intros [= <-].
Qed.

Lemma snapshotSource_object payload :
  truthy payload && typeofObject payload = true ->
  truthy (snapshotSource payload) && typeofObject (snapshotSource payload) = true.
Proof.
  intros Hp. unfold snapshotSource.
  destruct (objectMember payload "snapshot") eqn:E1; [by eapply objectMember_object|].
  destruct (objectMember payload "data") eqn:E2; [by eapply objectMember_object|done].
Qed.

Lemma normalizeSnapshot_None cached now payload :
  normalizeSnapshot cached now payload = None <->
  truthy payload && typeofObject payload = false \/ isArray (snapshotSource payload) = true.
Proof.
  unfold normalizeSnapshot.
  pose proof (snapshotSource_object payload) as Hsrc.
  destruct (truthy payload), (typeofObject payload); simpl in *;
    try (split; [auto|done]).
  specialize (Hsrc eq_refl).
  destruct (truthy (snapshotSource payload)), (typeofObject (snapshotSource payload));
    try discriminate; simpl.
  destruct (isArray (snapshotSource payload)); simpl; split; auto; try done.
  intros [|]; congruence.
Qed.

Lemma reconciled_field incoming cached lo hi :
  is_nan cached = false -> is_nan lo = false -> is_nan hi = false -> (lo <=? hi) = true ->
  reconciled incoming cached lo hi (clamp (numberOrFallback incoming cached) lo hi).
Proof.
  intros Hc Hlo Hhi Hle. split.
  - apply clamp_inRange; auto using numberOrFallback_not_nan.
  - destruct incoming as [[| |n|s| |]|]; try done.
Qed.

(** The two halves of the contract of [normalizeSnapshot], for a cache
    whose counters are numbers. *)
Lemma normalizeSnapshot_fields cached now payload :
  numericCache cached ->
  (normalizeSnapshot cached now payload = None <->
     truthy payload && typeofObject payload = false
     \/ isArray (snapshotSource payload) = true)
  /\ (forall snap, normalizeSnapshot cached now payload = Some snap ->
        let source := snapshotSource payload in
        reconciled (field3 source "queueDepth" "queue_depth" "queue")
                   (queueDepth cached) 0 10000 (queueDepth snap)
        /\ reconciled (field3 source "jobsProcessed" "jobs_processed" "jobs")
                      (jobsProcessed cached) 0 100000000 (jobsProcessed snap)
        /\ reconciled (field3 source "successRate" "success_rate" "success")
                      (successRate cached) 0 100 (successRate snap)
        /\ reconciled (field3 source "activeWorkers" "active_workers" "workers")
                      (activeWorkers cached) 0 1000 (activeWorkers snap)).
Proof.
  intros (Hq & Hj & Hs & Ha). split; [apply normalizeSnapshot_None|].
  intros snap. unfold normalizeSnapshot.
  destruct (negb (truthy payload) || negb (typeofObject payload)); [done|].
  destruct (negb (truthy (snapshotSource payload)) || isArray (snapshotSource payload)
            || negb (typeofObject (snapshotSource payload))); [done|].
  intros [= <-]. simpl. repeat split; apply reconciled_field; auto.
Qed.

Lemma normalizeSnapshot_numeric cached now payload snap :
  numericCache cached -> normalizeSnapshot cached now payload = Some snap ->
  numericCache snap.
Proof.
  intros Hc Hsnap.
  destruct (normalizeSnapshot_fields cached now payload Hc) as [_ Hfields].
  destruct (Hfields snap Hsnap) as ((Hq & _) & (Hj & _) & (Hs & _) & (Ha & _)).
  repeat split; eauto using inRange_not_nan.
Qed.

End Reconciler.


(** ** Log extraction *)

Section Logs.
Context `{JSRuntime}.

Lemma length_lastN {A} n (xs : list A) :
  (0 < n)%nat -> (length (lastN n xs) <= n)%nat.
Proof.
  intros Hn. unfold lastN. destruct n as [|n]; [lia|]. rewrite length_drop. lia.
Qed.





End Logs.

Section LogExamples.
#[local] Existing Instance Example.runtime.

(** Blank and non-text entries are dropped, the rest keep their order. *)
Example extractLogs_sample :
  extractLogs 0
    (JArr [ JStr "first"; JStr "   "; JNum 7;
            JObj [("msg", JStr "second"); ("level", JStr "warn")];
            JStr "[2024-01-02T03:04:05.000Z] [INFO] third" ]) ""
  = [ "[1970-01-01T00:00:00.000Z] [REMOTE] [REMOTE] first";
      "[1970-01-01T00:00:00.000Z] [WARN] second";
      "[2024-01-02T03:04:05.000Z] [INFO] third" ].
Proof. vm_compute. reflexivity. Qed.

End LogExamples.

(** ** Messages of the stream *)

Section StreamMessages.
Context `{JSRuntime}.

(** What [handleWsPayload] does with a message that is no JSON text. *)
Lemma handleWsPayload_text_exec raw w :
  JSON_parse raw = None ->
  let formatted := extractLogs (clock w) JNull raw in
  let w' := exec (handleWsPayload raw) w in
  runtimeState w' = runtimeState w
  /\ remoteCache_hasSnapshot w' = remoteCache_hasSnapshot w
  /\ remoteCache_logs w' =
       match formatted with
       | [] => remoteCache_logs w
       | _ :: _ => lastN 500 (remoteCache_logs w ++ formatted)
       end.
Proof.
  intros Hparse. unfold handleWsPayload. rewrite Hparse.
  unfold exec, bind, setConn, modify, Date_now, appendRemoteLogs, when, ret. simpl.
  destruct (extractLogs (clock w) JNull raw) as [|l ls]; simpl; auto.
Qed.

Lemma logEntries_text raw :
  logEntries JNull raw =
  if isEmpty (trim raw) then [] else map JStr (splitLines raw).
Proof. simpl. by destruct (isEmpty (trim raw)). Qed.

(** C9, as amended. When the stream delivers a message that [JSON.parse]
    rejects, the handler leaves the cached Snapshot unchanged and appends
    to the log cache (which keeps its 500 most recent lines) the lines
    that [extractLogs] makes of the text: nothing for a blank message, and
    otherwise one formatted line per non-blank line of the message. For a
    non-blank message of a single line that does not already begin with a
    timestamp, such as "job finished", that is exactly one line, and it
    carries the REMOTE level tag. *)
Theorem handleWsPayload_plain_text raw w :
  JSON_parse raw = None ->
  let now := clock w in
  let w' := exec (handleWsPayload raw) w in
  runtimeState w' = runtimeState w
  /\ remoteCache_hasSnapshot w' = remoteCache_hasSnapshot w
  /\ (isEmpty (trim raw) = true -> remoteCache_logs w' = remoteCache_logs w)
  /\ (isEmpty (trim raw) = false ->
        let formatted :=
          lastN 500 (keepTruthy (map (fun line => formatEntry now (JStr line))
                                     (splitLines raw))) in
        remoteCache_logs w' =
          match formatted with
          | [] => remoteCache_logs w
          | _ :: _ => lastN 500 (remoteCache_logs w ++ formatted)
          end)
  /\ (isEmpty (trim raw) = false -> splitLines raw = [raw] ->
      hasIsoStampPrefix raw = false ->
        remoteCache_logs w' =
          lastN 500 (remoteCache_logs w
                     ++ ["[" +++ toISOString now +++ "] [REMOTE] [REMOTE] " +++ raw])).
Proof.
  intros Hparse now w'.
  destruct (handleWsPayload_text_exec raw w Hparse) as (Hrs & Hsnap & Hlogs).
  fold w' in Hrs, Hsnap, Hlogs. unfold extractLogs in Hlogs.
  rewrite logEntries_text in Hlogs.
  split; [done|]. split; [done|]. split; [|split].
  - intros Hblank. rewrite Hblank in Hlogs. exact Hlogs.
  - intros Hblank. rewrite Hblank, map_map in Hlogs. exact Hlogs.
  - intros Hblank Hone Hiso. rewrite Hblank, Hone in Hlogs. simpl in Hlogs.
    rewrite Hblank, Hiso in Hlogs. exact Hlogs.
Qed.

End StreamMessages.

Section StreamMessageExamples.
#[local] Existing Instance Example.runtime.

Lemma handleWsPayload_plain_text_witness :
  JSON_parse "job finished" = None
  /\ remoteCache_logs (exec (handleWsPayload "job finished") freshWorld)
     = ["[1970-01-01T00:00:00.000Z] [REMOTE] [REMOTE] job finished"]
  /\ runtimeState (exec (handleWsPayload "job finished") freshWorld)
     = runtimeState freshWorld.
Proof.
  assert (Hparse : JSON_parse "job finished" = None) by reflexivity.
  split; [exact Hparse|].
  destruct (handleWsPayload_plain_text "job finished" freshWorld Hparse)
    as (Hrs & _ & _ & _ & Hone).
  split; [|exact Hrs].
  rewrite (Hone eq_refl eq_refl eq_refl). reflexivity.
Defined.

(** C9 as stated fails. A plain-text message of two lines is no JSON
    either, and the handler appends two log lines for it, not exactly
    one. *)
Lemma handleWsPayload_two_lines :
  let raw := "job one" +++ LF +++ "job two" in
  JSON_parse raw = None
  /\ remoteCache_logs freshWorld = []
  /\ remoteCache_logs (exec (handleWsPayload raw) freshWorld)
     = [ "[1970-01-01T00:00:00.000Z] [REMOTE] [REMOTE] job one";
         "[1970-01-01T00:00:00.000Z] [REMOTE] [REMOTE] job two" ].
Proof. repeat split. Qed.

End StreamMessageExamples.

(** ** The log facade *)

Section LogFacade.
Context `{JSRuntime}.
Variable net : Network.

Lemma logsLoop_bounded apiEndpoint paths w :
  (length (eval (logsLoop net apiEndpoint paths) w) <= 250)%nat.
Proof.
  revert w. induction paths as [|p rest IH]; intros w.
  - apply length_lastN. lia.
  - unfold eval in *. simpl. unfold bind at 1.
    destruct (fetchEndpoint net (joinUrl apiEndpoint p) None 5000 w) as [response w1].
    destruct (negb (fr_ok response)); [apply IH|].
    unfold bind at 1, Date_now.
    destruct (0 <? length (extractLogs (clock w1) (fr_data response) (fr_text response)))%nat;
      [|apply IH].
    simpl. rewrite length_drop. lia.
Qed.

Lemma fetchRemoteLogs_bounded config w :
  (length (eval (fetchRemoteLogs net config) w) <= 250)%nat.
Proof.
  unfold fetchRemoteLogs.
  destruct (isEmpty (normalizeHttpEndpoint (cfg_apiEndpoint config))).
  - simpl. lia.
  - apply logsLoop_bounded.
Qed.

Lemma readLocalLogs_bounded limit w :
  (0 < limit)%nat -> (length (eval (readLocalLogs limit) w) <= limit)%nat.
Proof.
  intros Hl. unfold readLocalLogs, eval, bind, get, ret.
  destruct (ensureLogsFile w) as [[] w1]. simpl. by apply length_lastN.
Qed.

(** C10. [getCombinedLogs] returns at most 250 lines. With [remoteLogs]
    what [fetchRemoteLogs] returned (at most 250 lines) and [localLogs]
    what [readLocalLogs(120)] then read (at most 120 lines): when there are
    no remote logs the result is [localLogs]; otherwise it is the last 40
    lines of [localLogs] (at most 40) followed by the last 210 lines of
    [remoteLogs] (at most 210). *)
Theorem getCombinedLogs_bounded w :
  let remoteLogs := eval (fetchRemoteLogs net (configFile w)) w in
  let localLogs :=
    eval (readLocalLogs 120) (exec (fetchRemoteLogs net (configFile w)) w) in
  let combined := eval (getCombinedLogs net) w in
  (length combined <= 250)%nat
  /\ (length remoteLogs <= 250)%nat
  /\ (length localLogs <= 120)%nat
  /\ (remoteLogs = [] -> combined = localLogs)
  /\ (remoteLogs <> [] ->
        combined = lastN 40 localLogs ++ lastN 210 remoteLogs
        /\ (length (lastN 40 localLogs) <= 40)%nat
        /\ (length (lastN 210 remoteLogs) <= 210)%nat).
Proof.
  intros remoteLogs localLogs combined.
  assert (Hremote : (length remoteLogs <= 250)%nat) by apply fetchRemoteLogs_bounded.
  assert (Hlocal : (length localLogs <= 120)%nat) by (apply readLocalLogs_bounded; lia).
  assert (H40 : (length (lastN 40 localLogs) <= 40)%nat) by (apply length_lastN; lia).
  assert (H210 : (length (lastN 210 remoteLogs) <= 210)%nat) by (apply length_lastN; lia).
  assert (Hcombined : combined =
            if (length remoteLogs =? 0)%nat then localLogs
            else lastN 40 localLogs ++ lastN 210 remoteLogs).
  { subst combined remoteLogs localLogs.
    unfold getCombinedLogs, eval, exec, bind, readConfig. simpl.
    destruct (fetchRemoteLogs net (configFile w) w) as [remote w1]. simpl.
    destruct (readLocalLogs 120 w1) as [loc w2]. simpl.
    by destruct (length remote =? 0)%nat. }
  repeat split; auto.
  - rewrite Hcombined. destruct (length remoteLogs =? 0)%nat; [lia|].
    rewrite length_app. lia.
  - intros Hnil. rewrite Hcombined, Hnil. done.
  - rewrite Hcombined. destruct remoteLogs; [done|]. done.
Qed.

End LogFacade.

Section LogFacadeExamples.
#[local] Existing Instance Example.runtime.

(** Without a log file and with a backend that serves two log lines, the
    facade returns the four seeded local lines followed by the two remote
    ones. *)
Example getCombinedLogs_sample :
  eval (getCombinedLogs chattyNetwork) freshWorld
  = [ "[1970-01-01T00:00:00.007Z] [INFO] [BOOT] ClawDBot Studio session initialized";
      "[1970-01-01T00:00:00.007Z] [INFO] [SYNC] Scheduler synced with 4 worker slots";
      "[1970-01-01T00:00:00.007Z] [INFO] [QUEUE] Imported 18 tasks from latest profile";
      "[1970-01-01T00:00:00.007Z] [INFO] [HEALTH] Last heartbeat within threshold";
      "[1970-01-01T00:00:00.007Z] [REMOTE] [REMOTE] worker up";
      "[1970-01-01T00:00:00.007Z] [REMOTE] [REMOTE] job 7 done" ].
Proof. vm_compute. reflexivity. Qed.

End LogFacadeExamples.

(** ** The endpoint normaliser *)

Section EndpointNormalizer.
Context `{JSRuntime}.

Lemma dropWhile_head p s :
  match dropWhile p s with
  | String c _ => p c = false
  | EmptyString => True
  end.
Proof.
  induction s as [|c s IH]; simpl; [done|].
  destruct (p c) eqn:E; [exact IH|exact E].
Qed.

Lemma stripTrailingSlashes_clean s : endsWithSlash (stripTrailingSlashes s) = false.
Proof.
  unfold endsWithSlash, stripTrailingSlashes, reverse.
  rewrite list_ascii_of_string_of_list_ascii, rev_involutive.
  pose proof (dropWhile_head isSlash
                (string_of_list_ascii (rev (list_ascii_of_string s)))) as Hd.
  by destruct (dropWhile isSlash _).
Qed.

Lemma isEmpty_true s : isEmpty s = true -> s = "".
Proof. by destruct s. Qed.

(** C7. Endpoint normalisation is total: [new URL], the one call that can
    throw, is caught. For every raw value the result is the empty string
    when the trimmed input is empty or [new URL] rejects it, and otherwise
    protocol + "//" + host + pathname of the parsed address with the
    trailing slashes stripped; it never ends in a slash. When the
    configuration supplies no streaming endpoint, the derived one is empty
    when the HTTP endpoint is empty, and otherwise the HTTP endpoint with
    its leading "http" replaced by "ws" and "/ws" appended: an endpoint
    "http://R" gives "ws://R/ws" and "https://R" gives "wss://R/ws". *)
Theorem normalizeHttpEndpoint_total endpoint :
  let raw := trim (ToString (orElse endpoint (JStr ""))) in
  let withProtocol := if hasHttpScheme raw then raw else "http://" +++ raw in
  let canonical := normalizeHttpEndpoint endpoint in
  (raw = "" -> canonical = "")
  /\ (URL_parse withProtocol = None -> canonical = "")
  /\ (forall parsed, raw <> "" -> URL_parse withProtocol = Some parsed ->
        canonical =
          stripTrailingSlashes (protocol parsed +++ "//" +++ host parsed +++ pathname parsed))
  /\ endsWithSlash canonical = false
  /\ forall config,
       cfg_apiEndpoint config = endpoint ->
       trim (ToString (orElse (cfg_wsEndpoint config) (JStr ""))) = "" ->
       let derived := toWebSocketEndpoint config in
       (canonical = "" -> derived = "")
       /\ (canonical <> "" -> derived = replaceHttpByWs canonical +++ "/ws")
       /\ (forall rest, canonical = "http://" +++ rest -> derived = "ws://" +++ rest +++ "/ws")
       /\ (forall rest, canonical = "https://" +++ rest -> derived = "wss://" +++ rest +++ "/ws").
Proof.
  intros raw withProtocol canonical.
  assert (Hcases : canonical =
            if isEmpty raw then ""
            else match URL_parse withProtocol with
                 | Some parsed =>
                     stripTrailingSlashes
                       (protocol parsed +++ "//" +++ host parsed +++ pathname parsed)
                 | None => ""
                 end) by reflexivity.
  split; [|split; [|split; [|split]]].
  - intros Hraw. rewrite Hcases, Hraw. done.
  - intros Hnone. rewrite Hcases, Hnone. by destruct (isEmpty raw).
  - intros parsed Hraw Hsome. rewrite Hcases, Hsome.
    destruct (isEmpty raw) eqn:E; [|done]. by apply isEmpty_true in E.
  - rewrite Hcases. destruct (isEmpty raw); [done|].
    destruct (URL_parse withProtocol); [apply stripTrailingSlashes_clean|done].
  - intros config Hapi Hws derived.
    assert (Hderived : derived =
              if isEmpty canonical then "" else replaceHttpByWs canonical +++ "/ws").
    { subst derived canonical. unfold toWebSocketEndpoint. rewrite Hws, Hapi. done. }
    split; [|split; [|split]].
    + intros Hc. rewrite Hderived, Hc. done.
    + intros Hc. rewrite Hderived. destruct (isEmpty canonical) eqn:E; [|done].
      by apply isEmpty_true in E.
    + intros rest Hc. rewrite Hderived, Hc. reflexivity.
    + intros rest Hc. rewrite Hderived, Hc. reflexivity.
Qed.

End EndpointNormalizer.

Section EndpointExamples.
#[local] Existing Instance Example.runtime.

Lemma normalizeHttpEndpoint_total_witness :
  normalizeHttpEndpoint (JStr "  https://bot.example.com/api/ ") = "https://bot.example.com/api"
  /\ toWebSocketEndpoint
       {| cfg_apiEndpoint := JStr "  https://bot.example.com/api/ ";
          cfg_wsEndpoint := JStr ""; cfg_autoReconnect := JBool true;
          cfg_pollingIntervalMs := JNum 5000 |}
     = "wss://bot.example.com/api/ws"
  /\ normalizeHttpEndpoint (JStr "http://") = "".
Proof.
  pose proof (normalizeHttpEndpoint_total (JStr "  https://bot.example.com/api/ "))
    as (_ & _ & Hparsed & _ & Hderived).
  split; [|split].
  - rewrite (Hparsed {| protocol := "https:"; host := "bot.example.com";
                        pathname := "/api/" |}); [reflexivity|discriminate|reflexivity].
  - destruct (Hderived {| cfg_apiEndpoint := JStr "  https://bot.example.com/api/ ";
                          cfg_wsEndpoint := JStr ""; cfg_autoReconnect := JBool true;
                          cfg_pollingIntervalMs := JNum 5000 |} eq_refl eq_refl)
      as (_ & _ & _ & Hwss).
    exact (Hwss "bot.example.com/api" eq_refl).
  - reflexivity.
Defined.

End EndpointExamples.

(** ** The HTTP prober *)

Section Prober.
Context `{JSRuntime}.
Variable net : Network.

Lemma fetchEndpoint_effect url body timeoutMs w :
  let request := {| req_url := url; req_body := body; req_timeoutMs := timeoutMs |} in
  let response := eval (fetchEndpoint net url body timeoutMs) w in
  let w1 := exec (fetchEndpoint net url body timeoutMs) w in
  requests w1 = requests w ++ [request]
  /\ (clock w <= clock w1)%Z
  /\ connectionState w1 = connectionState w
  /\ serverResponded response = replyAccepted (net (length (requests w)) request)
  /\ (truthyError (fr_error response) = true ->
      isEmpty (default "" (fr_error response)) = false).
Proof.
  unfold eval, exec, fetchEndpoint, replyAccepted. simpl.
  destruct (net_result (net _ _)) as [st text|e]; simpl;
    (split; [done|]); (split; [lia|]); (split; [done|]); split; try done.
  intros He. by apply negb_true_iff in He.
Qed.

Lemma probeLoop_cons api startedAt latestError p rest w :
  let response := eval (fetchEndpoint net (joinUrl api p) None 4500) w in
  let w1 := exec (fetchEndpoint net (joinUrl api p) None 4500) w in
  exec (probeLoop net api startedAt latestError (p :: rest)) w =
  if serverResponded response then
    set_connectionState
      (set_lastError None
         (set_mode Remote
            (set_apiLatencyMs (Some (clock w1 - startedAt)%Z)
               (set_apiReachable true (connectionState w1))))) w1
  else
    exec (probeLoop net api startedAt
            (if truthyError (fr_error response) then default "" (fr_error response)
             else latestError) rest) w1.
Proof.
  unfold exec, eval. simpl. unfold bind at 1.
  destruct (fetchEndpoint net (joinUrl api p) None 4500 w) as [response w1]. simpl.
  by destruct (serverResponded response).
Qed.

(** [fetchEndpoint] advances the clock by the time the answer took. *)
Lemma fetchEndpoint_clock url body timeoutMs w :
  let request := {| req_url := url; req_body := body; req_timeoutMs := timeoutMs |} in
  clock (exec (fetchEndpoint net url body timeoutMs) w)
  = (clock w + Z.of_N (net_elapsed (net (length (requests w)) request)))%Z.
Proof.
  unfold exec, fetchEndpoint. simpl. by destruct (net_result (net _ _)).
Qed.

(** The time of a probe is the time of its first request and of the rest
    of the probe, which starts in the world that request leaves. *)
Lemma probeElapsed_cons w api p rest n :
  let w1 := exec (fetchEndpoint net (joinUrl api p) None 4500) w in
  probeElapsed net w api (p :: rest) (S n)
  = (clock w1 - clock w + probeElapsed net w1 api rest n)%Z.
Proof.
  intros w1.
  pose proof (fetchEndpoint_effect (joinUrl api p) None 4500 w) as Hfx.
  cbv zeta in Hfx. destruct Hfx as (Hreq & _).
  pose proof (fetchEndpoint_clock (joinUrl api p) None 4500 w) as Hclk.
  cbv zeta in Hclk. fold w1 in Hreq, Hclk.
  assert (Htail : forall k, healthElapsed net w api (p :: rest) (S k)
                            = healthElapsed net w1 api rest k).
  { intros k. unfold healthElapsed. simpl. rewrite Hreq, length_app. simpl.
    by replace (length (requests w) + 1 + k)%nat with (length (requests w) + S k)%nat by lia. }
  induction n as [|n IH].
  - simpl. unfold healthElapsed. simpl. rewrite Nat.add_0_r, Hclk.
    unfold healthRequest. lia.
  - change (probeElapsed net w api (p :: rest) (S (S n)))
      with (probeElapsed net w api (p :: rest) (S n)
            + healthElapsed net w api (p :: rest) (S n))%Z.
    rewrite IH, Htail. simpl. lia.
Qed.

(** The time of a probe depends on the state only through the number of
    requests sent before it. *)
Lemma probeElapsed_requests w0 w api paths n :
  requests w0 = requests w ->
  probeElapsed net w0 api paths n = probeElapsed net w api paths n.
Proof.
  intros Hr. induction n as [|n IH]; simpl; [done|].
  rewrite IH. unfold healthElapsed. by rewrite Hr.
Qed.

#[local] Arguments probeElapsed : simpl never.

Lemma probeLoop_outcome api startedAt paths :
  forall latestError w,
    isEmpty latestError = false -> (startedAt <= clock w)%Z ->
    let w' := exec (probeLoop net api startedAt latestError paths) w in
    wsConnected (connectionState w') = wsConnected (connectionState w)
    /\ (forall k, acceptedAt net w api paths k = true ->
          (forall j, (j < k)%nat -> acceptedAt net w api paths j = false) ->
          probeReached (clock w - startedAt + probeElapsed net w api paths (S k))
                       (connectionState w')
          /\ clock w' = (clock w + probeElapsed net w api paths (S k))%Z
          /\ length (requests w') = (length (requests w) + k + 1)%nat)
    /\ ((forall k, acceptedAt net w api paths k = false) ->
          probeFailed (connectionState w) (connectionState w')
          /\ length (requests w') = (length (requests w) + length paths)%nat).
Proof.
  induction paths as [|p rest IH]; intros latestError w Herr Hclock.
  - simpl. split; [done|]. split.
    + intros k Hk. unfold acceptedAt in Hk. by rewrite lookup_nil in Hk.
    + intros _. split; [|simpl; lia].
      unfold probeFailed, modeFor. simpl. eauto 10.
  - pose proof (fetchEndpoint_effect (joinUrl api p) None 4500 w) as Hfx.
    cbv zeta in Hfx. destruct Hfx as (Hreq & Hclk & Hconn & Hresp & Hnonempty).
    assert (Hhead : acceptedAt net w api (p :: rest) 0
                    = serverResponded (eval (fetchEndpoint net (joinUrl api p) None 4500) w)).
    { unfold acceptedAt. simpl. by rewrite Nat.add_0_r, Hresp. }
    assert (Htail : forall k, acceptedAt net w api (p :: rest) (S k)
                    = acceptedAt net (exec (fetchEndpoint net (joinUrl api p) None 4500) w) api rest k).
    { intros k. unfold acceptedAt. simpl. rewrite Hreq, length_app. simpl.
      by replace (length (requests w) + 1 + k)%nat with (length (requests w) + S k)%nat by lia. }
    pose proof (fun n => probeElapsed_cons w api p rest n) as Helapsed.
    cbv zeta in Helapsed.
    cbv zeta. rewrite probeLoop_cons. cbv zeta.
    set (response := eval (fetchEndpoint net (joinUrl api p) None 4500) w) in *.
    set (w1 := exec (fetchEndpoint net (joinUrl api p) None 4500) w) in *.
    destruct (serverResponded response) eqn:Hacc.
    + simpl. rewrite Hconn. split; [done|]. split.
      * intros k Hk Hbefore. destruct k as [|k].
        -- rewrite Helapsed. change (probeElapsed net w1 api rest 0) with 0%Z.
           split; [|split; [lia|rewrite Hreq, length_app; simpl; lia]].
           unfold probeReached. simpl. split; [done|].
           split; [f_equal; lia|]. split; [lia|done].
        -- specialize (Hbefore 0%nat ltac:(lia)). congruence.
      * intros Hnone. specialize (Hnone 0%nat). congruence.
    + assert (Herr' : isEmpty (if truthyError (fr_error response)
                               then default "" (fr_error response) else latestError) = false).
      { destruct (truthyError (fr_error response)); auto. }
      destruct (IH _ w1 Herr' ltac:(lia)) as (Hws & Hfound & Hnone).
      rewrite Hconn in *. split; [done|]. split.
      * intros k Hk Hbefore. destruct k as [|k]; [congruence|].
        rewrite Htail in Hk.
        destruct (Hfound k Hk) as (Hreached & Hclock' & Hlen).
        { intros j Hj. rewrite <- Htail. apply Hbefore. lia. }
        rewrite Helapsed.
        replace (clock w - startedAt + (clock w1 - clock w + probeElapsed net w1 api rest (S k)))%Z
          with (clock w1 - startedAt + probeElapsed net w1 api rest (S k))%Z by lia.
        split; [done|]. split; [lia|]. rewrite Hlen, Hreq, length_app. simpl. lia.
      * intros Hall.
        destruct Hnone as [Hfailed Hlen].
        { intros k. rewrite <- Htail. apply Hall. }
        split; [done|]. rewrite Hlen, Hreq, length_app. simpl. lia.
Qed.

(** C5. For every endpoint configuration: as soon as a candidate health
    path is answered with HTTP success or a non-404 status of the 2xx-4xx
    band - the candidates before it having been rejected - the probe
    records apiReachable = true, no lastError, mode = remote and, as the
    latency, the time that has passed since it began: the time that the
    requests up to and including the accepted one took, which is not
    negative. It sends nothing to the candidates after it. When the
    normalised endpoint is empty no request is sent, and when every
    candidate fails all five are tried; either way the probe records
    apiReachable = false and a non-empty lastError, and mode is remote if
    the stream is connected and local if it is not. *)
Theorem probeApiConnection_outcome config w :
  let api := normalizeHttpEndpoint (cfg_apiEndpoint config) in
  let w' := exec (probeApiConnection net config) w in
  let c := connectionState w in
  let c' := connectionState w' in
  (isEmpty api = false ->
     forall k, acceptedAt net w api healthPaths k = true ->
       (forall j, (j < k)%nat -> acceptedAt net w api healthPaths j = false) ->
       let elapsed := probeElapsed net w api healthPaths (S k) in
       probeReached elapsed c'
       /\ clock w' = (clock w + elapsed)%Z
       /\ length (requests w') = (length (requests w) + k + 1)%nat)
  /\ (isEmpty api = true -> probeFailed c c' /\ requests w' = requests w)
  /\ (isEmpty api = false ->
        (forall k, acceptedAt net w api healthPaths k = false) ->
        probeFailed c c' /\ length (requests w') = (length (requests w) + 5)%nat).
Proof.
  intros api w' c c'. subst w' c c'. unfold probeApiConnection. fold api.
  destruct (isEmpty api) eqn:Hapi.
  - split; [done|]. split; [|done]. intros _. split; [|done].
    unfold probeFailed, modeFor. simpl. eauto 10.
  - set (w0 := set_connectionState
                 (set_lastCheck (Some (clock w))
                    (set_apiEndpoint api (connectionState w))) w).
    pose proof (probeLoop_outcome api (clock w0) healthPaths
                  "API endpoint did not respond" w0 eq_refl ltac:(lia))
      as (Hws & Hfound & Hnone).
    change (exec _ w) with
      (exec (probeLoop net api (clock w0) "API endpoint did not respond" healthPaths) w0).
    split; [|split; [done|]].
    + intros _ k Hk Hbefore. cbv zeta.
      destruct (Hfound k Hk Hbefore) as (Hreached & Hclock & Hlen).
      rewrite (probeElapsed_requests w0 w) in Hreached, Hclock by done.
      replace (clock w0 - clock w0 + probeElapsed net w api healthPaths (S k))%Z
        with (probeElapsed net w api healthPaths (S k)) in Hreached by lia.
      split; [exact Hreached|]. split; [exact Hclock|exact Hlen].
    + intros _ Hall. exact (Hnone Hall).
Qed.

End Prober.

Section ProberExamples.
#[local] Existing Instance Example.runtime.

(** The first candidate of a healthy backend answers after 12 ms: that is
    the latency recorded. A dead backend costs five requests. *)
Lemma probeApiConnection_outcome_witness :
  (let w' := exec (probeApiConnection healthyNetwork defaultConfig) freshWorld in
   probeReached 12 (connectionState w') /\ clock w' = 12%Z
   /\ length (requests w') = 1%nat)
  /\ (let w' := exec (probeApiConnection deadNetwork defaultConfig) freshWorld in
      probeFailed (connectionState freshWorld) (connectionState w')
      /\ length (requests w') = 5%nat).
Proof.
  split.
  - destruct (probeApiConnection_outcome healthyNetwork defaultConfig freshWorld)
      as (Hfound & _ & _).
    apply (Hfound eq_refl 0%nat eq_refl). intros j Hj. inversion Hj.
  - destruct (probeApiConnection_outcome deadNetwork defaultConfig freshWorld)
      as (_ & _ & Hnone).
    apply (Hnone eq_refl). intros k.
    do 5 (destruct k as [|k]; [reflexivity|]). reflexivity.
Defined.

End ProberExamples.

(** ** The action dispatcher *)

Section Dispatcher.
Context `{JSRuntime}.
Variable net : Network.
#[local] Open Scope float_scope.

Lemma exec_bind {A B} (m : M A) (k : A -> M B) w :
  exec (bind m k) w = exec (k (eval m w)) (exec m w).
Proof. unfold exec, eval, bind. by destruct (m w). Qed.

Lemma eval_bind {A B} (m : M A) (k : A -> M B) w :
  eval (bind m k) w = eval (k (eval m w)) (exec m w).
Proof. unfold exec, eval, bind. by destruct (m w). Qed.

Lemma appendLog_frame message level w :
  runtimeState (exec (appendLog message level) w) = runtimeState w
  /\ clock (exec (appendLog message level) w) = clock w.
Proof.
  unfold appendLog, ensureLogsFile, exec, bind, modify. by destruct (logsFile w).
Qed.

(** [appendLog] writes the log file and nothing else. *)
Lemma appendLog_exec message level w :
  exists contents, exec (appendLog message level) w = set_logsFile (Some contents) w.
Proof.
  unfold appendLog, ensureLogsFile, exec, bind, modify.
  destruct w as [? ? ? ? ? ? ? ? ? [logs|] ? ? ?]; simpl; eauto.
Qed.

Lemma fetchEndpoint_runtimeState url body timeoutMs w :
  runtimeState (exec (fetchEndpoint net url body timeoutMs) w) = runtimeState w.
Proof.
  unfold exec, fetchEndpoint. by destruct (net_result _).
Qed.

(** When no candidate of the action path list answers with HTTP success,
    the remote attempt leaves [runtimeState] alone. *)
Lemma actionLoop_None config api action paths :
  forall w,
    eval (actionLoop net config api action paths) w = None ->
    runtimeState (exec (actionLoop net config api action paths) w) = runtimeState w.
Proof.
  induction paths as [|p rest IH]; intros w; [done|].
  simpl. rewrite eval_bind, exec_bind.
  set (body := Some (JSON_stringify (JObj [("action", JStr action)]))).
  destruct (negb (fr_ok (eval (fetchEndpoint net (joinUrl api p) body 5500) w))).
  - intros Hnone. rewrite IH by done. apply fetchEndpoint_runtimeState.
  - repeat (rewrite eval_bind; simpl). discriminate.
Qed.

Lemma tryRemoteAction_None config action w :
  eval (tryRemoteAction net config action) w = None ->
  runtimeState (exec (tryRemoteAction net config action) w) = runtimeState w.
Proof.
  unfold tryRemoteAction.
  destruct (isEmpty (normalizeHttpEndpoint (cfg_apiEndpoint config))); [done|].
  apply actionLoop_None.
Qed.

Lemma localTransition_runtime action w :
  let before := runtimeState w in
  let after := runtimeState (exec (localTransition action) w) in
  lastHeartbeat after = lastHeartbeat before
  /\ (action = "start" ->
        status after = Running
        /\ activeWorkers after = Math_min 8 (activeWorkers before + 1)
        /\ sameCounters after before)
  /\ (action = "pause" ->
        status after = Paused /\ activeWorkers after = activeWorkers before
        /\ sameCounters after before)
  /\ (action = "resume" ->
        status after = Running /\ activeWorkers after = activeWorkers before
        /\ sameCounters after before)
  /\ (action = "stop" ->
        status after = Stopped /\ activeWorkers after = 0
        /\ sameCounters after before)
  /\ (action = "sync" ->
        status after = status before /\ activeWorkers after = activeWorkers before
        /\ queueDepth after = Math_max 0 (queueDepth before - 2)
        /\ jobsProcessed after = jobsProcessed before + 3
        /\ successRate after = Math_min 99.9 (successRate before + 0.1))
  /\ (~ In action knownActions ->
        status after = status before /\ activeWorkers after = activeWorkers before
        /\ sameCounters after before).
Proof.
  intros before after. subst before after. unfold localTransition, sameCounters.
  destruct (String.eqb_spec action "start") as [->|Hstart];
    [|destruct (String.eqb_spec action "pause") as [->|Hpause];
      [|destruct (String.eqb_spec action "resume") as [->|Hresume];
        [|destruct (String.eqb_spec action "stop") as [->|Hstop];
          [|destruct (String.eqb_spec action "sync") as [->|Hsync]]]]];
    repeat (rewrite exec_bind; simpl);
    rewrite ?(proj1 (appendLog_frame _ _ _)); simpl;
    (split; [reflexivity|]);
    repeat split; try reflexivity; try discriminate; try congruence;
    try (exfalso; match goal with Hn : ~ _ |- _ => apply Hn; simpl; tauto end).
Qed.



End Dispatcher.

Section DispatcherExamples.
#[local] Existing Instance Example.runtime.
#[local] Open Scope float_scope.


End DispatcherExamples.

Section DispatcherCounterexamples.
#[local] Existing Instance runtimeWithMessage.
#[local] Open Scope float_scope.


End DispatcherCounterexamples.

(** ** The stream session *)

Create HintDb session.

Section SessionFrame.
Context `{JSRuntime}.
Variable net : Network.

Lemma keepsSession_bind {A B} (m : M A) (k : A -> M B) :
  keepsSession m -> (forall a, keepsSession (k a)) -> keepsSession (bind m k).
Proof. intros Hm Hk w. rewrite exec_bind, Hk. apply Hm. Qed.

Lemma keepsSession_ret {A} (a : A) : keepsSession (ret a).
Proof. done. Qed.

Lemma keepsSession_get : keepsSession get.
Proof. done. Qed.

Lemma keepsSession_Date_now : keepsSession Date_now.
Proof. done. Qed.

Lemma keepsSession_readConfig : keepsSession readConfig.
Proof. done. Qed.

Lemma keepsSession_copyConnectionState : keepsSession copyConnectionState.
Proof. done. Qed.

Lemma keepsSession_setConn f : keepsSession (setConn f).
Proof. done. Qed.

Lemma keepsSession_setRuntime f : keepsSession (setRuntime f).
Proof. done. Qed.

Lemma keepsSession_when b m : keepsSession m -> keepsSession (when b m).
Proof. by destruct b. Qed.

Lemma keepsSession_fetchEndpoint url body timeoutMs :
  keepsSession (fetchEndpoint net url body timeoutMs).
Proof. intros w. unfold exec, fetchEndpoint. by destruct (net_result _). Qed.

Lemma keepsSession_mergeSnapshot snapshot : keepsSession (mergeSnapshot snapshot).
Proof. done. Qed.

Lemma keepsSession_ensureLogsFile : keepsSession ensureLogsFile.
Proof. intros w. unfold exec, ensureLogsFile. by destruct (logsFile w). Qed.

Lemma keepsSession_appendLog message level : keepsSession (appendLog message level).
Proof. intros w. unfold exec, appendLog, ensureLogsFile, bind, modify. by destruct (logsFile w). Qed.

Lemma keepsSession_appendRemoteLogs lines : keepsSession (appendRemoteLogs lines).
Proof. intros w. unfold appendRemoteLogs. by destruct (0 <? length lines)%nat. Qed.

Lemma keepsSession_closeWebSocketClient : keepsSession closeWebSocketClient.
Proof. done. Qed.

End SessionFrame.

#[export] Hint Resolve keepsSession_ret keepsSession_get keepsSession_Date_now
  keepsSession_readConfig keepsSession_copyConnectionState keepsSession_setConn
  keepsSession_setRuntime keepsSession_when keepsSession_fetchEndpoint
  keepsSession_mergeSnapshot keepsSession_ensureLogsFile keepsSession_appendLog
  keepsSession_appendRemoteLogs keepsSession_closeWebSocketClient : session.

(** Splits an operation at its binds and branches, and closes the pieces
    with the facts already known. *)
Ltac keeps_session :=
  repeat first
    [ progress auto with session
    | apply keepsSession_bind; [|intros ?]
    | match goal with
      | |- keepsSession (if ?b then _ else _) => destruct b
      | |- keepsSession (match ?x with _ => _ end) => destruct x
      end ].

Section SessionFrameOperations.
Context `{JSRuntime}.
Variable net : Network.

Lemma keepsSession_probeLoop api startedAt paths :
  forall latestError, keepsSession (probeLoop net api startedAt latestError paths).
Proof.
  induction paths as [|p rest IH]; intros latestError; simpl; keeps_session.
Qed.

Lemma keepsSession_probeApiConnection config :
  keepsSession (probeApiConnection net config).
Proof.
  unfold probeApiConnection. pose proof keepsSession_probeLoop. keeps_session.
Qed.
#[local] Hint Resolve keepsSession_probeApiConnection : session.

Lemma keepsSession_snapshotLoop api paths : keepsSession (snapshotLoop net api paths).
Proof.
  induction paths as [|p rest IH]; simpl; keeps_session.
Qed.
#[local] Hint Resolve keepsSession_snapshotLoop : session.

Lemma keepsSession_fetchRemoteSnapshot config :
  keepsSession (fetchRemoteSnapshot net config).
Proof.
  unfold fetchRemoteSnapshot, shouldProbeNow. keeps_session.
Qed.
#[local] Hint Resolve keepsSession_fetchRemoteSnapshot : session.

Lemma keepsSession_logsLoop api paths : keepsSession (logsLoop net api paths).
Proof.
  induction paths as [|p rest IH]; simpl; keeps_session.
Qed.
#[local] Hint Resolve keepsSession_logsLoop : session.

Lemma keepsSession_fetchRemoteLogs config : keepsSession (fetchRemoteLogs net config).
Proof. unfold fetchRemoteLogs. keeps_session. Qed.
#[local] Hint Resolve keepsSession_fetchRemoteLogs : session.

Lemma keepsSession_getLocalSnapshot : keepsSession getLocalSnapshot.
Proof. unfold getLocalSnapshot. keeps_session. Qed.
#[local] Hint Resolve keepsSession_getLocalSnapshot : session.

Lemma keepsSession_actionLoop config api action paths :
  keepsSession (actionLoop net config api action paths).
Proof.
  induction paths as [|p rest IH]; simpl; keeps_session.
Qed.
#[local] Hint Resolve keepsSession_actionLoop : session.

Lemma keepsSession_tryRemoteAction config action :
  keepsSession (tryRemoteAction net config action).
Proof. unfold tryRemoteAction. keeps_session. Qed.
#[local] Hint Resolve keepsSession_tryRemoteAction : session.

Lemma keepsSession_getSnapshot : keepsSession (getSnapshot net).
Proof. unfold getSnapshot. keeps_session. Qed.

Lemma keepsSession_localTransition action : keepsSession (localTransition action).
Proof. unfold localTransition. keeps_session. Qed.
#[local] Hint Resolve keepsSession_localTransition : session.

Lemma keepsSession_finishLocalAction action : keepsSession (finishLocalAction action).
Proof. unfold finishLocalAction. keeps_session. Qed.
#[local] Hint Resolve keepsSession_finishLocalAction : session.

Lemma keepsSession_performBotAction action : keepsSession (performBotAction net action).
Proof. unfold performBotAction. keeps_session. Qed.

Lemma keepsSession_readLocalLogs limit : keepsSession (readLocalLogs limit).
Proof. unfold readLocalLogs. keeps_session. Qed.
#[local] Hint Resolve keepsSession_readLocalLogs : session.

Lemma keepsSession_getCombinedLogs : keepsSession (getCombinedLogs net).
Proof. unfold getCombinedLogs. keeps_session. Qed.

Lemma keepsSession_testConnection : keepsSession (ipcTestConnection net).
Proof. unfold ipcTestConnection. keeps_session. Qed.

Lemma keepsSession_getConnectionStatus : keepsSession getConnectionStatus.
Proof. unfold getConnectionStatus. keeps_session. Qed.

Lemma keepsSession_runSetupChecks : keepsSession (runSetupChecks net).
Proof. unfold runSetupChecks. keeps_session. Qed.

Lemma keepsSession_openExternalDocs url : keepsSession (openExternalDocs url).
Proof. unfold openExternalDocs. keeps_session. Qed.

Lemma keepsSession_saveConfig nextConfig : keepsSession (saveConfig nextConfig).
Proof. unfold saveConfig. keeps_session. Qed.

Lemma keepsSession_handleWsPayload rawMessage : keepsSession (handleWsPayload rawMessage).
Proof. unfold handleWsPayload. keeps_session. Qed.

Lemma keepsSession_wsOnOpen c : keepsSession (wsOnOpen c).
Proof. unfold wsOnOpen. keeps_session. Qed.

Lemma keepsSession_wsOnError e : keepsSession (wsOnError e).
Proof. unfold wsOnError. keeps_session. Qed.

Lemma keepsSession_wsOnCloseBegin c : keepsSession (wsOnCloseBegin c).
Proof. unfold wsOnCloseBegin. keeps_session. Qed.

End SessionFrameOperations.

Section Session.
Context `{JSRuntime}.
Variable net : Network.

Lemma reconnectDelayMs_inRange config : inRange 2000 30000 (reconnectDelayMs config).
Proof.
  apply clamp_inRange; try reflexivity.
  apply numberOrFallback_not_nan. reflexivity.
Qed.

Lemma timersTracked_timers w w' :
  wsReconnectTimer w' = wsReconnectTimer w -> pendingTimers w' = pendingTimers w ->
  timersTracked w -> timersTracked w'.
Proof. unfold timersTracked. intros Ht Hp. by rewrite Ht, Hp. Qed.

Lemma timersTracked_session w w' :
  session w' = session w -> timersTracked w -> timersTracked w'.
Proof. intros [= Ht Hp _]. by apply timersTracked_timers. Qed.

Lemma timersTracked_keeps {A} (m : M A) w :
  keepsSession m -> timersTracked w -> timersTracked (exec m w).
Proof. intros Hm. apply timersTracked_session, Hm. Qed.

Lemma timersTracked_length w : timersTracked w -> (length (pendingTimers w) <= 1)%nat.
Proof. intros [[->|(t & -> & _)] _]; simpl; lia. Qed.

Lemma clearReconnectTimer_effect w :
  let w' := exec clearReconnectTimer w in
  wsReconnectTimer w' = None
  /\ manualWsDisconnect w' = manualWsDisconnect w
  /\ pendingTimers w' = match wsReconnectTimer w with
                        | Some h => clearTimeout h (pendingTimers w)
                        | None => pendingTimers w
                        end
  /\ (timersTracked w -> pendingTimers w' = []).
Proof.
  unfold exec, clearReconnectTimer, modify. simpl.
  destruct (wsReconnectTimer w) as [h|] eqn:Hh; simpl; repeat split; auto.
  - intros [[->|(t & -> & Ht)] _]; [done|]. rewrite Hh in Ht. injection Ht as ->.
    simpl. by rewrite Nat.eqb_refl.
  - intros [[->|(t & _ & Ht)] _]; [done|]. rewrite Hh in Ht. discriminate.
Qed.

Lemma keepsSession_openWebSocket wsEndpoint : keepsSession (openWebSocket wsEndpoint).
Proof. unfold openWebSocket. keeps_session. Qed.

(** What [connectWebSocket] does to the session variables. *)
Lemma connectWebSocket_session config isReconnect w :
  let w' := exec (connectWebSocket config isReconnect) w in
  (isEmpty (toWebSocketEndpoint config) = true -> session w' = session w)
  /\ (isEmpty (toWebSocketEndpoint config) = false ->
        manualWsDisconnect w' = false
        /\ wsReconnectTimer w' = None
        /\ pendingTimers w' = match wsReconnectTimer w with
                              | Some h => clearTimeout h (pendingTimers w)
                              | None => pendingTimers w
                              end
        /\ (timersTracked w -> pendingTimers w' = [])).
Proof.
  unfold connectWebSocket.
  destruct (isEmpty (toWebSocketEndpoint config)) eqn:Hempty; cbv zeta.
  - split; [intros _|done]. done.
  - split; [done|intros _].
    rewrite exec_bind, exec_bind, exec_bind, exec_bind.
    set (w0 := exec (modify (set_manualWsDisconnect false))
                 (exec (setConn (set_wsEndpoint (toWebSocketEndpoint config))) w)).
    pose proof (clearReconnectTimer_effect w0) as Hclear. cbv zeta in Hclear.
    destruct Hclear as (Ht & Hm & Hp & Htracked).
    pose proof (keepsSession_openWebSocket (toWebSocketEndpoint config)
                  (exec closeWebSocketClient (exec clearReconnectTimer w0))) as Hopen.
    unfold session in Hopen. injection Hopen as Hr1 Hr2 Hr3.
    change (wsReconnectTimer (exec closeWebSocketClient ?x)) with (wsReconnectTimer x) in Hr1.
    change (pendingTimers (exec closeWebSocketClient ?x)) with (pendingTimers x) in Hr2.
    change (manualWsDisconnect (exec closeWebSocketClient ?x))
      with (manualWsDisconnect x) in Hr3.
    rewrite Hr1, Hr2, Hr3, Ht, Hm.
    split; [done|]. split; [done|]. split; [exact Hp|].
    intros Htr. apply Htracked.
    eapply timersTracked_timers; [| |exact Htr]; done.
Qed.

Lemma connectWebSocket_tracked config isReconnect w :
  timersTracked w -> timersTracked (exec (connectWebSocket config isReconnect) w).
Proof.
  intros Htr.
  pose proof (connectWebSocket_session config isReconnect w) as [Hempty Hfull].
  cbv zeta in Hempty, Hfull.
  destruct (isEmpty (toWebSocketEndpoint config)).
  - eapply timersTracked_session; [exact (Hempty eq_refl)|exact Htr].
  - destruct (Hfull eq_refl) as (_ & _ & _ & Hnil). split.
    + left. by apply Hnil.
    + rewrite Hnil by done. constructor.
Qed.

Lemma schedule_tracked config w :
  pendingTimers w = [] ->
  timersTracked
    (exec (let* h := setTimeout config (reconnectDelayMs config) in
           modify (set_wsReconnectTimer (Some h))) w).
Proof.
  intros Hnil. unfold exec, bind, setTimeout, modify, timersTracked. simpl.
  rewrite Hnil. simpl. split.
  - right. eexists. split; reflexivity.
  - constructor; [|constructor]. apply reconnectDelayMs_inRange.
Qed.

Lemma maybeScheduleReconnect_effect config w :
  let w' := exec (maybeScheduleReconnect config) w in
  (manualWsDisconnect w = true -> session w' = session w)
  /\ (timersTracked w -> timersTracked w').
Proof.
  unfold maybeScheduleReconnect. cbv zeta. rewrite exec_bind.
  change (eval get w) with w. change (exec get w) with w.
  destruct (negb (truthy (cfg_autoReconnect config)) || manualWsDisconnect w) eqn:Hskip.
  - split; done.
  - split.
    + intros Hm. rewrite Hm, orb_true_r in Hskip. discriminate.
    + intros Htr.
      pose proof (clearReconnectTimer_effect w) as Hclear. cbv zeta in Hclear.
      destruct Hclear as (_ & _ & _ & Hnil). specialize (Hnil Htr).
      rewrite exec_bind. by apply schedule_tracked.
Qed.

Lemma wsOnCloseEnd_effect w :
  let w' := exec wsOnCloseEnd w in
  (manualWsDisconnect w = true -> session w' = session w)
  /\ (timersTracked w -> timersTracked w').
Proof.
  unfold wsOnCloseEnd. cbv zeta. rewrite exec_bind.
  change (eval readConfig w) with (configFile w). change (exec readConfig w) with w.
  rewrite exec_bind. change (eval get w) with w. change (exec get w) with w.
  rewrite exec_bind.
  change (exec copyConnectionState ?x) with x.
  destruct (maybeScheduleReconnect_effect (configFile w) w) as [Hm Ht].
  cbv zeta in Hm, Ht.
  destruct (manualWsDisconnect w) eqn:Hflag; simpl.
  - split; done.
  - split; [done|]. exact Ht.
Qed.

Lemma disconnect_tail w :
  let w' := exec (closeWebSocketClient ;;
                  setConn (set_wsConnected false) ;;
                  appendLog "WebSocket manually disconnected by operator" "WARN" ;;
                  copyConnectionState) w in
  session w' = session w /\ wsClient w' = None
  /\ wsConnected (connectionState w') = false.
Proof.
  cbv zeta. rewrite !exec_bind.
  change (exec copyConnectionState ?x) with x.
  destruct (appendLog_exec "WebSocket manually disconnected by operator" "WARN"
              (exec (setConn (set_wsConnected false)) (exec closeWebSocketClient w)))
    as [contents ->].
  done.
Qed.

Lemma disconnectWebSocket_effect w :
  let w' := exec disconnectWebSocket w in
  manualWsDisconnect w' = true
  /\ wsReconnectTimer w' = None
  /\ wsClient w' = None
  /\ wsConnected (connectionState w') = false
  /\ (timersTracked w -> pendingTimers w' = []).
Proof.
  unfold disconnectWebSocket. cbv zeta.
  rewrite exec_bind, exec_bind.
  set (w0 := exec (modify (set_manualWsDisconnect true)) w).
  pose proof (clearReconnectTimer_effect w0) as Hclear. cbv zeta in Hclear.
  destruct Hclear as (Ht & Hm & _ & Hnil).
  pose proof (disconnect_tail (exec clearReconnectTimer w0)) as Htail.
  cbv zeta in Htail. destruct Htail as (Hs & Hc & Hconn).
  injection Hs as Hs1 Hs2 Hs3.
  rewrite Hs1, Hs2, Hs3, Ht, Hm, Hc, Hconn.
  split; [done|]. split; [done|]. split; [done|]. split; [done|].
  intros Htr. apply Hnil. eapply timersTracked_timers; [| |exact Htr]; done.
Qed.

Lemma clearTimeout_tracked h w :
  timersTracked w ->
  timersTracked (set_pendingTimers (clearTimeout h (pendingTimers w)) w).
Proof.
  intros [Hshape Hdelay]. split; simpl.
  - destruct Hshape as [->|(t & -> & Ht)]; [by left|]. simpl.
    destruct (negb (timer_handle t =? h)%nat); [right; eauto|by left].
  - unfold clearTimeout. rewrite Forall_forall in *. intros t Ht.
    apply Hdelay. apply list_elem_of_In. apply list_elem_of_In in Ht.
    by apply filter_In in Ht as [? _].
Qed.

Lemma reconnectTimerFires_tracked t w :
  timersTracked w -> timersTracked (exec (reconnectTimerFires t) w).
Proof.
  intros Htr. unfold reconnectTimerFires. rewrite exec_bind, exec_bind.
  change (exec (ret tt) ?x) with x.
  apply connectWebSocket_tracked. by apply clearTimeout_tracked.
Qed.

Lemma whenReady_tracked w : timersTracked w -> timersTracked (exec (whenReady net) w).
Proof.
  intros Htr. unfold whenReady.
  rewrite exec_bind. change (exec readConfig w) with w.
  rewrite exec_bind, exec_bind, exec_bind.
  set (w3 := exec (probeApiConnection net _) _).
  assert (Htr3 : timersTracked w3).
  { subst w3. apply timersTracked_keeps; [apply keepsSession_probeApiConnection|].
    apply timersTracked_keeps; [apply keepsSession_ensureLogsFile|].
    apply timersTracked_keeps; [apply keepsSession_saveConfig|]. done. }
  destruct (truthy _); [|done].
  rewrite exec_bind. change (exec (ret tt) ?x) with x.
  by apply connectWebSocket_tracked.
Qed.

(** Every turn of the event loop keeps the timers tracked. *)
Lemma step_tracked w w' : step net w w' -> timersTracked w -> timersTracked w'.
Proof.
  intros Hstep Htr. destruct Hstep.
  - by apply whenReady_tracked.
  - by apply timersTracked_keeps; [apply keepsSession_saveConfig|].
  - by apply timersTracked_keeps; [apply keepsSession_getSnapshot|].
  - by apply timersTracked_keeps; [apply keepsSession_performBotAction|].
  - by apply timersTracked_keeps; [apply keepsSession_tryRemoteAction|].
  - by apply timersTracked_keeps; [apply keepsSession_localTransition|].
  - by apply timersTracked_keeps; [apply keepsSession_finishLocalAction|].
  - by apply timersTracked_keeps; [apply keepsSession_getCombinedLogs|].
  - by apply timersTracked_keeps; [apply keepsSession_testConnection|].
  - by apply timersTracked_keeps; [apply keepsSession_getConnectionStatus|].
  - by apply timersTracked_keeps; [apply keepsSession_runSetupChecks|].
  - by apply timersTracked_keeps; [apply keepsSession_openExternalDocs|].
  - unfold ipcConnectWs. rewrite exec_bind. by apply connectWebSocket_tracked.
  - pose proof (disconnectWebSocket_effect w) as Hd. cbv zeta in Hd.
    destruct Hd as (_ & _ & _ & _ & Hnil). split.
    + left. by apply Hnil.
    + rewrite Hnil by done. constructor.
  - by apply timersTracked_keeps; [apply keepsSession_wsOnOpen|].
  - by apply timersTracked_keeps; [apply keepsSession_handleWsPayload|].
  - by apply timersTracked_keeps; [apply keepsSession_wsOnError|].
  - by apply timersTracked_keeps; [apply keepsSession_wsOnCloseBegin|].
  - by apply wsOnCloseEnd_effect.
  - by apply reconnectTimerFires_tracked.
  - eapply timersTracked_session; [|exact Htr]. done.
  - eapply timersTracked_session; [|exact Htr]. done.
Qed.

Lemma reachable_tracked init w :
  timersTracked init -> reachable net init w -> timersTracked w.
Proof.
  intros Hinit Hreach. induction Hreach; eauto using step_tracked.
Qed.

Lemma initialWorld_tracked t0 disk logs : timersTracked (initialWorld t0 disk logs).
Proof. split; [by left|constructor]. Qed.

End Session.

Section SessionClaims.
Context `{JSRuntime}.
Variable net : Network.

(** C3, as amended. The delay of a reconnect timer always lies in
    [2000, 30000] ms, and in every state the process can reach at most one
    reconnect timer is armed. [connectWebSocket] cancels the pending
    reconnect timer when the stream endpoint computed from its
    configuration is not empty; when that endpoint is empty
    [connectWebSocket] returns at its configuration guard and leaves the
    reconnect timer as it was. *)
Theorem reconnect_timer_discipline t0 disk logs w config isReconnect :
  reachable net (initialWorld t0 disk logs) w ->
  inRange 2000 30000 (reconnectDelayMs config)
  /\ Forall delayInRange (pendingTimers w)
  /\ (length (pendingTimers w) <= 1)%nat
  /\ (let w' := exec (connectWebSocket config isReconnect) w in
      (isEmpty (toWebSocketEndpoint config) = false ->
         pendingTimers w' = [] /\ wsReconnectTimer w' = None)
      /\ (isEmpty (toWebSocketEndpoint config) = true ->
            pendingTimers w' = pendingTimers w
            /\ wsReconnectTimer w' = wsReconnectTimer w)).
Proof.
  intros Hreach.
  assert (Htr : timersTracked w).
  { eapply reachable_tracked; [apply initialWorld_tracked|exact Hreach]. }
  split; [apply reconnectDelayMs_inRange|].
  split; [apply Htr|]. split; [by apply timersTracked_length|].
  pose proof (connectWebSocket_session config isReconnect w) as [Hempty Hfull].
  cbv zeta in *. split.
  - intros Hne. destruct (Hfull Hne) as (_ & Hnone & _ & Hnil). split; auto.
  - intros He. specialize (Hempty He). by injection Hempty as -> -> _.
Qed.

(** C4, as amended. [disconnectWebSocket] sets the manual-disconnect flag,
    and while the flag is set a close event arms no reconnect timer,
    whatever the configuration file says about autoReconnect. The next
    [connectWebSocket] clears the flag when the stream endpoint computed
    from its configuration is not empty; when that endpoint is empty
    [connectWebSocket] returns at its configuration guard and the flag
    stays set. *)
Theorem manual_disconnect_discipline w c diskConfig config isReconnect :
  let w1 := set_configFile diskConfig (exec disconnectWebSocket w) in
  manualWsDisconnect w1 = true
  /\ session (exec (wsOnClose c) w1) = session w1
  /\ (let w2 := exec (connectWebSocket config isReconnect) w1 in
      (isEmpty (toWebSocketEndpoint config) = false -> manualWsDisconnect w2 = false)
      /\ (isEmpty (toWebSocketEndpoint config) = true -> manualWsDisconnect w2 = true)).
Proof.
  pose proof (disconnectWebSocket_effect w) as Hd. cbv zeta in *.
  destruct Hd as (Hflag & _).
  set (w1 := set_configFile diskConfig (exec disconnectWebSocket w)).
  assert (Hflag1 : manualWsDisconnect w1 = true) by exact Hflag.
  split; [exact Hflag1|]. split.
  - unfold wsOnClose. rewrite exec_bind.
    pose proof (keepsSession_wsOnCloseBegin c w1) as Hbegin.
    destruct (wsOnCloseEnd_effect (exec (wsOnCloseBegin c) w1)) as [Hend _].
    cbv zeta in Hend. rewrite Hend; [exact Hbegin|].
    by injection Hbegin as _ _ ->.
  - pose proof (connectWebSocket_session config isReconnect w1) as [Hempty Hfull].
    cbv zeta in *. split.
    + intros Hne. by destruct (Hfull Hne) as (-> & _).
    + intros He. specialize (Hempty He). by injection Hempty as _ _ ->.
Qed.

Lemma probeLoop_modeConsistent api startedAt paths :
  forall latestError w,
    modeConsistent (connectionState (exec (probeLoop net api startedAt latestError paths) w)).
Proof.
  induction paths as [|p rest IH]; intros latestError w.
  - unfold modeConsistent. simpl. reflexivity.
  - rewrite probeLoop_cons. cbv zeta.
    destruct (serverResponded _); [done|apply IH].
Qed.

(** A probe, successful or not, leaves [mode] consistent. *)
Lemma probeApiConnection_modeConsistent config w :
  modeConsistent (connectionState (exec (probeApiConnection net config) w)).
Proof.
  unfold probeApiConnection.
  destruct (isEmpty (normalizeHttpEndpoint (cfg_apiEndpoint config))).
  - unfold modeConsistent. simpl. reflexivity.
  - rewrite !exec_bind. apply probeLoop_modeConsistent.
Qed.

(** So does the open of the stream ... *)
Lemma wsOnOpen_modeConsistent c w :
  modeConsistent (connectionState (exec (wsOnOpen c) w)).
Proof.
  unfold wsOnOpen. rewrite !exec_bind.
  change (exec copyConnectionState ?x) with x.
  match goal with
  | |- context [exec (appendLog ?m ?l) ?x] =>
      destruct (appendLog_exec m l x) as [contents ->]
  end.
  unfold modeConsistent. simpl. by rewrite orb_true_r.
Qed.

(** ... and a message of the stream. *)
Lemma appendRemoteLogs_connectionState lines w :
  connectionState (exec (appendRemoteLogs lines) w) = connectionState w.
Proof. unfold appendRemoteLogs. by destruct (0 <? length lines)%nat. Qed.

Lemma handleWsPayload_connectionState rawMessage w :
  connectionState (exec (handleWsPayload rawMessage) w)
  = set_lastError None
      (set_mode Remote
         (set_apiReachable true
            (set_lastEventAt (Some (clock w)) (connectionState w)))).
Proof.
  unfold handleWsPayload.
  destruct (match JSON_parse rawMessage with Some v => v | None => JStr rawMessage end);
    repeat (rewrite exec_bind; simpl);
    rewrite ?appendRemoteLogs_connectionState; try reflexivity;
    match goal with |- context [normalizeSnapshot ?a ?b ?c] =>
      destruct (normalizeSnapshot a b c) end;
    repeat (rewrite exec_bind; simpl); reflexivity.
Qed.

Lemma handleWsPayload_modeConsistent rawMessage w :
  modeConsistent (connectionState (exec (handleWsPayload rawMessage) w)).
Proof. rewrite handleWsPayload_connectionState. reflexivity. Qed.

End SessionClaims.

Section SessionExamples.
#[local] Existing Instance Example.runtime.

Lemma openedWorld_reachable : reachable deadNetwork freshWorld openedWorld.
Proof.
  eapply reachable_step; [eapply reachable_step; [apply reachable_init|]|].
  - apply step_connectWebSocket.
  - apply step_open. vm_compute. reflexivity.
Qed.

Lemma closedWorld_reachable : reachable deadNetwork freshWorld closedWorld.
Proof.
  eapply reachable_step; [eapply reachable_step; [apply openedWorld_reachable|]|].
  - apply step_closeBegin with (c := streamSocket). vm_compute. reflexivity.
  - unfold closedWorld. apply step_closeEnd.
Qed.

(** C1 fails on the code. After the stream has opened, with the API not
    probed reachable, [mode] is remote and consistent. The close of the
    stream and the operator's disconnect both clear [wsConnected] and leave
    [mode] at remote, although neither the API nor the stream is up. *)
Theorem close_leaves_mode_remote :
  let closed := connectionState (exec (wsOnClose streamSocket) openedWorld) in
  let disconnected := connectionState (exec disconnectWebSocket openedWorld) in
  reachable deadNetwork freshWorld openedWorld
  /\ modeConsistent (connectionState openedWorld)
  /\ (apiReachable closed = false /\ wsConnected closed = false /\ mode closed = Remote)
  /\ ~ modeConsistent closed
  /\ (apiReachable disconnected = false /\ wsConnected disconnected = false
      /\ mode disconnected = Remote)
  /\ ~ modeConsistent disconnected.
Proof.
  split; [apply openedWorld_reachable|].
  split; [vm_compute; reflexivity|].
  split; [vm_compute; auto|].
  split; [unfold modeConsistent; vm_compute; discriminate|].
  split; [vm_compute; auto|].
  unfold modeConsistent; vm_compute; discriminate.
Qed.

Lemma reconnect_timer_discipline_witness :
  reachable deadNetwork (initialWorld 0 defaultConfig None) closedWorld
  /\ length (pendingTimers closedWorld) = 1%nat
  /\ Forall delayInRange (pendingTimers closedWorld)
  /\ pendingTimers (exec (connectWebSocket defaultConfig true) closedWorld) = [].
Proof.
  pose proof (reconnect_timer_discipline deadNetwork 0 defaultConfig None closedWorld
                defaultConfig true closedWorld_reachable)
    as (_ & Hdelay & _ & Hcancel & _).
  split; [apply closedWorld_reachable|].
  split; [vm_compute; reflexivity|]. split; [exact Hdelay|].
  apply Hcancel. vm_compute. reflexivity.
Defined.

(** C3 as stated fails. With a reconnect timer armed, [connectWebSocket]
    called with a configuration whose stream endpoint is empty returns
    without cancelling it. *)
Lemma connect_without_endpoint_keeps_timer :
  toWebSocketEndpoint blankConfig = ""
  /\ length (pendingTimers closedWorld) = 1%nat
  /\ wsReconnectTimer closedWorld = Some 1%nat
  /\ pendingTimers (exec (connectWebSocket blankConfig false) closedWorld)
     = pendingTimers closedWorld
  /\ wsReconnectTimer (exec (connectWebSocket blankConfig false) closedWorld) = Some 1%nat.
Proof. vm_compute. auto 10. Qed.

Lemma manual_disconnect_discipline_witness :
  let disconnected := set_configFile defaultConfig (exec disconnectWebSocket openedWorld) in
  manualWsDisconnect disconnected = true
  /\ session (exec (wsOnClose streamSocket) disconnected) = session disconnected
  /\ manualWsDisconnect (exec (connectWebSocket defaultConfig false) disconnected) = false.
Proof.
  pose proof (manual_disconnect_discipline openedWorld streamSocket defaultConfig
                defaultConfig false) as (Hflag & Hclose & Hconnect & _).
  split; [exact Hflag|]. split; [exact Hclose|]. apply Hconnect. vm_compute. reflexivity.
Defined.

(** C4 as stated fails. After the operator's disconnect, [connectWebSocket]
    called with a configuration whose stream endpoint is empty returns
    with the manual-disconnect flag still set. *)
Lemma connect_without_endpoint_keeps_flag :
  let disconnected := exec disconnectWebSocket openedWorld in
  toWebSocketEndpoint blankConfig = ""
  /\ manualWsDisconnect disconnected = true
  /\ manualWsDisconnect (exec (connectWebSocket blankConfig false) disconnected) = true.
Proof. vm_compute. auto. Qed.

End SessionExamples.

(** ** The counters of the cached snapshot stay numbers *)

Create HintDb numeric.

Section NumericFrame.
Context `{JSRuntime}.
Variable net : Network.
#[local] Open Scope float_scope.

Lemma keepsNumeric_bind {A B} (m : M A) (k : A -> M B) :
  keepsNumeric m -> (forall a, keepsNumeric (k a)) -> keepsNumeric (bind m k).
Proof. intros Hm Hk w Hw. rewrite exec_bind. by apply Hk, Hm. Qed.

(** After [get] the continuation may rely on what it was handed. *)
Lemma keepsNumeric_bind_get {B} (k : World -> M B) :
  (forall w, numericCache (runtimeState w) -> keepsNumeric (k w)) ->
  keepsNumeric (bind get k).
Proof. intros Hk w Hw. rewrite exec_bind. by apply Hk. Qed.

Lemma keepsNumeric_frame {A} (m : M A) :
  (forall w, runtimeState (exec m w) = runtimeState w) -> keepsNumeric m.
Proof. intros Hm w Hw. by rewrite Hm. Qed.

Lemma keepsNumeric_ret {A} (a : A) : keepsNumeric (ret a).
Proof. by apply keepsNumeric_frame. Qed.

Lemma keepsNumeric_Date_now : keepsNumeric Date_now.
Proof. by apply keepsNumeric_frame. Qed.

Lemma keepsNumeric_readConfig : keepsNumeric readConfig.
Proof. by apply keepsNumeric_frame. Qed.

Lemma keepsNumeric_copyConnectionState : keepsNumeric copyConnectionState.
Proof. by apply keepsNumeric_frame. Qed.

Lemma keepsNumeric_setConn f : keepsNumeric (setConn f).
Proof. by apply keepsNumeric_frame. Qed.

Lemma keepsNumeric_when b m : keepsNumeric m -> keepsNumeric (when b m).
Proof. destruct b; [done|]. intros _. by apply keepsNumeric_frame. Qed.

Lemma keepsNumeric_fetchEndpoint url body timeoutMs :
  keepsNumeric (fetchEndpoint net url body timeoutMs).
Proof. apply keepsNumeric_frame. apply fetchEndpoint_runtimeState. Qed.

Lemma keepsNumeric_ensureLogsFile : keepsNumeric ensureLogsFile.
Proof.
  apply keepsNumeric_frame. intros w. unfold exec, ensureLogsFile. by destruct (logsFile w).
Qed.

Lemma keepsNumeric_appendLog message level : keepsNumeric (appendLog message level).
Proof. apply keepsNumeric_frame. intros w. apply appendLog_frame. Qed.

Lemma keepsNumeric_appendRemoteLogs lines : keepsNumeric (appendRemoteLogs lines).
Proof.
  apply keepsNumeric_frame. intros w. unfold appendRemoteLogs.
  by destruct (0 <? length lines)%nat.
Qed.

Lemma keepsNumeric_clearReconnectTimer : keepsNumeric clearReconnectTimer.
Proof.
  apply keepsNumeric_frame. intros w. unfold exec, clearReconnectTimer, modify. simpl.
  by destruct (wsReconnectTimer w).
Qed.

Lemma keepsNumeric_modify f :
  (forall w, runtimeState (f w) = runtimeState w) -> keepsNumeric (modify f).
Proof. intros Hf. by apply keepsNumeric_frame. Qed.

Lemma keepsNumeric_setTimeout config delayMs : keepsNumeric (setTimeout config delayMs).
Proof. by apply keepsNumeric_frame. Qed.

Lemma keepsNumeric_mergeSnapshot snapshot :
  numericCache snapshot -> keepsNumeric (mergeSnapshot snapshot).
Proof. intros Hs w _. exact Hs. Qed.

Lemma keepsNumeric_setRuntime f :
  (forall s, numericCache s -> numericCache (f s)) -> keepsNumeric (setRuntime f).
Proof. intros Hf w Hw. by apply Hf. Qed.

Lemma numericCache_set_status v s : numericCache s -> numericCache (set_status v s).
Proof. done. Qed.

Lemma numericCache_set_lastHeartbeat v s :
  numericCache s -> numericCache (set_lastHeartbeat v s).
Proof. done. Qed.

Lemma numericCache_start s :
  numericCache s -> numericCache (set_activeWorkers (Math_min 8 (activeWorkers s + 1)) s).
Proof.
  intros (Hq & Hj & Hs & Ha). repeat split; try done. simpl.
  apply Math_min_not_nan; [reflexivity|]. apply add_not_nan; [done|]. vm_compute. exact I.
Qed.

Lemma numericCache_stop s : numericCache s -> numericCache (set_activeWorkers 0 s).
Proof. intros (Hq & Hj & Hs & Ha). repeat split; done. Qed.

Lemma numericCache_sync_queue s :
  numericCache s -> numericCache (set_queueDepth (Math_max 0 (queueDepth s - 2)) s).
Proof.
  intros (Hq & Hj & Hs & Ha). repeat split; try done. simpl.
  apply Math_max_not_nan; [reflexivity|]. apply sub_not_nan; [done|]. vm_compute. exact I.
Qed.

Lemma numericCache_sync_jobs s :
  numericCache s -> numericCache (set_jobsProcessed (jobsProcessed s + 3) s).
Proof.
  intros (Hq & Hj & Hs & Ha). repeat split; try done. simpl.
  apply add_not_nan; [done|]. vm_compute. exact I.
Qed.

Lemma numericCache_sync_rate s :
  numericCache s -> numericCache (set_successRate (Math_min 99.9 (successRate s + 0.1)) s).
Proof.
  intros (Hq & Hj & Hs & Ha). repeat split; try done. simpl.
  apply Math_min_not_nan; [reflexivity|]. apply add_not_nan; [done|]. vm_compute. exact I.
Qed.

End NumericFrame.

#[export] Hint Resolve keepsNumeric_ret keepsNumeric_Date_now keepsNumeric_readConfig
  keepsNumeric_copyConnectionState keepsNumeric_setConn keepsNumeric_when
  keepsNumeric_fetchEndpoint keepsNumeric_ensureLogsFile keepsNumeric_appendLog
  keepsNumeric_appendRemoteLogs keepsNumeric_clearReconnectTimer keepsNumeric_setTimeout
  keepsNumeric_mergeSnapshot keepsNumeric_setRuntime
  numericCache_set_status numericCache_set_lastHeartbeat numericCache_start
  numericCache_stop numericCache_sync_queue numericCache_sync_jobs numericCache_sync_rate
  normalizeSnapshot_numeric : numeric.

(** Splits an operation at its binds and branches; a [get] hands its
    continuation the fact that the counters are numbers. *)
Ltac keeps_numeric_step :=
  lazymatch goal with
  | |- keepsNumeric (bind get _) => apply keepsNumeric_bind_get; intros ? ?
  | |- keepsNumeric (bind _ _) => apply keepsNumeric_bind; [|intros ?]
  | |- keepsNumeric (if ?b then _ else _) => destruct b
  | |- keepsNumeric (match ?x with _ => _ end) => destruct x eqn:?
  | |- keepsNumeric (modify _) => apply keepsNumeric_modify; intros ?; reflexivity
  | |- keepsNumeric _ => solve [eauto with numeric]
  | |- numericCache _ => solve [eauto 8 with numeric]
  | |- forall _, _ => intros ?
  end.

Ltac keeps_numeric := repeat keeps_numeric_step.

Section NumericFrameOperations.
Context `{JSRuntime}.
Variable net : Network.

Lemma keepsNumeric_probeLoop api startedAt paths :
  forall latestError, keepsNumeric (probeLoop net api startedAt latestError paths).
Proof.
  induction paths as [|p rest IH]; intros latestError; simpl; keeps_numeric.
Qed.

Lemma keepsNumeric_probeApiConnection config :
  keepsNumeric (probeApiConnection net config).
Proof.
  unfold probeApiConnection. pose proof keepsNumeric_probeLoop. keeps_numeric.
Qed.
#[local] Hint Resolve keepsNumeric_probeApiConnection : numeric.

Lemma keepsNumeric_snapshotLoop api paths : keepsNumeric (snapshotLoop net api paths).
Proof.
  induction paths as [|p rest IH]; simpl; keeps_numeric.
Qed.
#[local] Hint Resolve keepsNumeric_snapshotLoop : numeric.

Lemma keepsNumeric_fetchRemoteSnapshot config :
  keepsNumeric (fetchRemoteSnapshot net config).
Proof.
  unfold fetchRemoteSnapshot, shouldProbeNow. keeps_numeric.
Qed.
#[local] Hint Resolve keepsNumeric_fetchRemoteSnapshot : numeric.

Lemma keepsNumeric_logsLoop api paths : keepsNumeric (logsLoop net api paths).
Proof.
  induction paths as [|p rest IH]; simpl; keeps_numeric.
Qed.
#[local] Hint Resolve keepsNumeric_logsLoop : numeric.

Lemma keepsNumeric_fetchRemoteLogs config : keepsNumeric (fetchRemoteLogs net config).
Proof. unfold fetchRemoteLogs. keeps_numeric. Qed.
#[local] Hint Resolve keepsNumeric_fetchRemoteLogs : numeric.

Lemma keepsNumeric_getLocalSnapshot : keepsNumeric getLocalSnapshot.
Proof. unfold getLocalSnapshot. keeps_numeric. Qed.
#[local] Hint Resolve keepsNumeric_getLocalSnapshot : numeric.

Lemma keepsNumeric_actionLoop config api action paths :
  keepsNumeric (actionLoop net config api action paths).
Proof.
  induction paths as [|p rest IH]; simpl; keeps_numeric.
Qed.
#[local] Hint Resolve keepsNumeric_actionLoop : numeric.

Lemma keepsNumeric_tryRemoteAction config action :
  keepsNumeric (tryRemoteAction net config action).
Proof. unfold tryRemoteAction. keeps_numeric. Qed.
#[local] Hint Resolve keepsNumeric_tryRemoteAction : numeric.

Lemma keepsNumeric_getSnapshot : keepsNumeric (getSnapshot net).
Proof. unfold getSnapshot. keeps_numeric. Qed.

Lemma keepsNumeric_localTransition action : keepsNumeric (localTransition action).
Proof. unfold localTransition. keeps_numeric. Qed.
#[local] Hint Resolve keepsNumeric_localTransition : numeric.

Lemma keepsNumeric_finishLocalAction action : keepsNumeric (finishLocalAction action).
Proof. unfold finishLocalAction. keeps_numeric. Qed.
#[local] Hint Resolve keepsNumeric_finishLocalAction : numeric.

Lemma keepsNumeric_performBotAction action : keepsNumeric (performBotAction net action).
Proof. unfold performBotAction. keeps_numeric. Qed.

Lemma keepsNumeric_readLocalLogs limit : keepsNumeric (readLocalLogs limit).
Proof. unfold readLocalLogs. keeps_numeric. Qed.
#[local] Hint Resolve keepsNumeric_readLocalLogs : numeric.

Lemma keepsNumeric_getCombinedLogs : keepsNumeric (getCombinedLogs net).
Proof. unfold getCombinedLogs. keeps_numeric. Qed.

Lemma keepsNumeric_testConnection : keepsNumeric (ipcTestConnection net).
Proof. unfold ipcTestConnection. keeps_numeric. Qed.

Lemma keepsNumeric_getConnectionStatus : keepsNumeric getConnectionStatus.
Proof. unfold getConnectionStatus. keeps_numeric. Qed.

Lemma keepsNumeric_runSetupChecks : keepsNumeric (runSetupChecks net).
Proof. unfold runSetupChecks. keeps_numeric. Qed.

Lemma keepsNumeric_openExternalDocs url : keepsNumeric (openExternalDocs url).
Proof. unfold openExternalDocs. keeps_numeric. Qed.

Lemma keepsNumeric_saveConfig nextConfig : keepsNumeric (saveConfig nextConfig).
Proof. unfold saveConfig. keeps_numeric. Qed.

Lemma keepsNumeric_handleWsPayload rawMessage : keepsNumeric (handleWsPayload rawMessage).
Proof. unfold handleWsPayload. keeps_numeric. Qed.

Lemma keepsNumeric_wsOnOpen c : keepsNumeric (wsOnOpen c).
Proof. unfold wsOnOpen. keeps_numeric. Qed.

Lemma keepsNumeric_wsOnError e : keepsNumeric (wsOnError e).
Proof. unfold wsOnError. keeps_numeric. Qed.

Lemma keepsNumeric_wsOnCloseBegin c : keepsNumeric (wsOnCloseBegin c).
Proof. unfold wsOnCloseBegin. keeps_numeric. Qed.

Lemma keepsNumeric_maybeScheduleReconnect config :
  keepsNumeric (maybeScheduleReconnect config).
Proof. unfold maybeScheduleReconnect. keeps_numeric. Qed.
#[local] Hint Resolve keepsNumeric_maybeScheduleReconnect : numeric.

Lemma keepsNumeric_wsOnCloseEnd : keepsNumeric wsOnCloseEnd.
Proof. unfold wsOnCloseEnd. keeps_numeric. Qed.

Lemma keepsNumeric_openWebSocket wsEndpoint : keepsNumeric (openWebSocket wsEndpoint).
Proof. unfold openWebSocket. keeps_numeric. Qed.
#[local] Hint Resolve keepsNumeric_openWebSocket : numeric.

Lemma keepsNumeric_connectWebSocket config isReconnect :
  keepsNumeric (connectWebSocket config isReconnect).
Proof. unfold connectWebSocket, closeWebSocketClient. keeps_numeric. Qed.
#[local] Hint Resolve keepsNumeric_connectWebSocket : numeric.

Lemma keepsNumeric_disconnectWebSocket : keepsNumeric disconnectWebSocket.
Proof. unfold disconnectWebSocket, closeWebSocketClient. keeps_numeric. Qed.

Lemma keepsNumeric_reconnectTimerFires t : keepsNumeric (reconnectTimerFires t).
Proof. unfold reconnectTimerFires. keeps_numeric. Qed.

Lemma keepsNumeric_whenReady : keepsNumeric (whenReady net).
Proof. unfold whenReady. pose proof keepsNumeric_saveConfig. keeps_numeric. Qed.

(** Every turn of the event loop keeps the counters numbers. *)
Lemma step_numeric w w' :
  step net w w' -> numericCache (runtimeState w) -> numericCache (runtimeState w').
Proof.
  pose proof keepsNumeric_whenReady. pose proof keepsNumeric_saveConfig.
  pose proof keepsNumeric_getSnapshot. pose proof keepsNumeric_performBotAction.
  pose proof keepsNumeric_getCombinedLogs. pose proof keepsNumeric_testConnection.
  pose proof keepsNumeric_getConnectionStatus. pose proof keepsNumeric_runSetupChecks.
  pose proof keepsNumeric_openExternalDocs. pose proof keepsNumeric_disconnectWebSocket.
  pose proof keepsNumeric_wsOnOpen. pose proof keepsNumeric_handleWsPayload.
  pose proof keepsNumeric_wsOnError. pose proof keepsNumeric_wsOnCloseBegin.
  pose proof keepsNumeric_wsOnCloseEnd. pose proof keepsNumeric_reconnectTimerFires.
  intros Hstep Hw. destruct Hstep; [..|exact Hw|exact Hw];
    match goal with
    | |- numericCache (runtimeState (exec ?m _)) =>
        assert (Hm : keepsNumeric m)
          by (try unfold ipcConnectWs; try unfold wsOnMessage; keeps_numeric);
        by apply Hm
    end.
Qed.

Lemma reachable_numeric t0 disk logs w :
  reachable net (initialWorld t0 disk logs) w -> numericCache (runtimeState w).
Proof.
  intros Hreach. induction Hreach; [|by eapply step_numeric].
  repeat split; reflexivity.
Qed.

End NumericFrameOperations.

(** ** The snapshot reconciler, with the conversions that throw *)

Section ReconcilerClaim.
Context `{JSRuntime}.
#[local] Open Scope float_scope.

(** Where a conversion returns, it returns the value of [ToString] or
    [ToNumber]. *)
Lemma ToString_converts v :
  Exact.ToString v = if Exact.hasNoPrimitive v then Exact.Thrown
                     else Exact.Returned (ToString v).
Proof. done. Qed.

Lemma numberOrFallback_converts value fallback :
  Exact.numberOrFallback value fallback
  = if converts value then Exact.Returned (numberOrFallback value fallback)
    else Exact.Thrown.
Proof.
  unfold Exact.numberOrFallback, Exact.ToNumber, numberOrFallback, converts.
  destruct value as [x|]; [|done]. by destruct (Exact.hasNoPrimitive x).
Qed.

(** A value that is falsy has a primitive: [v || d] throws when [v]
    does. *)
Lemma hasNoPrimitive_orElse v d :
  Exact.hasNoPrimitive d = false ->
  Exact.hasNoPrimitive (orElse v d) = Exact.hasNoPrimitive v.
Proof.
  intros Hd. unfold orElse. destruct (truthy v) eqn:Ht; [done|].
  rewrite Hd. by destruct v.
Qed.

Lemma hasNoPrimitive_coalesce field (text : string) :
  Exact.hasNoPrimitive (default JNull (coalesce field (Some (JStr text))))
  = negb (converts field).
Proof.
  unfold converts. destruct field as [[]|]; simpl; try done.
  all: by rewrite negb_involutive.
Qed.

Lemma normalizeStatus_converts field name :
  let value := default JNull (coalesce field (Some (JStr name))) in
  Exact.normalizeStatus value
  = if converts field then Exact.Returned (normalizeStatus value) else Exact.Thrown.
Proof.
  intros value. unfold Exact.normalizeStatus, normalizeStatus.
  rewrite ToString_converts, hasNoPrimitive_orElse by done.
  subst value. rewrite hasNoPrimitive_coalesce. by destruct (converts field).
Qed.

Lemma heartbeat_converts field text :
  let value := default JNull (coalesce field (Some (JStr text))) in
  Exact.ToString value
  = if converts field then Exact.Returned (ToString value) else Exact.Thrown.
Proof.
  intros value. rewrite ToString_converts. subst value.
  rewrite hasNoPrimitive_coalesce. by destruct (converts field).
Qed.

(** [normalizeSnapshot] throws when one of the six values it converts has
    no primitive, and returns what [Studio.normalizeSnapshot] describes
    when all of them convert. *)
Lemma normalizeSnapshot_exact cached now payload :
  Exact.normalizeSnapshot cached now payload
  = if readsAsNull payload then Exact.Returned None
    else if snapshotConverts (snapshotSource payload)
         then Exact.Returned (normalizeSnapshot cached now payload)
         else Exact.Thrown.
Proof.
  unfold Exact.normalizeSnapshot, normalizeSnapshot, readsAsNull, snapshotConverts.
  pose proof (snapshotSource_object payload) as Hsrc.
  destruct (truthy payload), (typeofObject payload); simpl in *; try done.
  specialize (Hsrc eq_refl).
  destruct (truthy (snapshotSource payload)), (typeofObject (snapshotSource payload));
    try discriminate; simpl.
  destruct (isArray (snapshotSource payload)); simpl; [done|].
  set (source := snapshotSource payload).
  pose proof (normalizeStatus_converts (field3 source "status" "state" "mode")
                (statusName (status cached))) as Hstatus.
  pose proof (heartbeat_converts
                (field3 source "lastHeartbeat" "last_heartbeat" "heartbeat")
                (toISOString now)) as Hbeat.
  cbv zeta in Hstatus, Hbeat. rewrite Hstatus, Hbeat, !numberOrFallback_converts.
  destruct (converts (field3 source "status" "state" "mode")); [|done].
  destruct (converts (field3 source "queueDepth" "queue_depth" "queue")); [|done].
  destruct (converts (field3 source "jobsProcessed" "jobs_processed" "jobs")); [|done].
  destruct (converts (field3 source "successRate" "success_rate" "success")); [|done].
  destruct (converts (field3 source "activeWorkers" "active_workers" "workers")); [|done].
  by destruct (converts (field3 source "lastHeartbeat" "last_heartbeat" "heartbeat")).
Qed.

Lemma readsAsNull_None cached now payload :
  normalizeSnapshot cached now payload = None <-> readsAsNull payload = true.
Proof.
  rewrite normalizeSnapshot_None. unfold readsAsNull.
  destruct (truthy payload && typeofObject payload),
    (isArray (snapshotSource payload)); simpl; split; auto; intros [|]; done.
Qed.

(** [normalizeSnapshot] throws exactly when the payload is not read as
    [null] and one of the values it converts has no primitive. *)
Lemma normalizeSnapshot_throws cached now payload :
  Exact.normalizeSnapshot cached now payload = Exact.Thrown
  <-> readsAsNull payload = false /\ snapshotConverts (snapshotSource payload) = false.
Proof.
  rewrite normalizeSnapshot_exact.
  destruct (readsAsNull payload), (snapshotConverts (snapshotSource payload));
    split; try done; by intros [? ?].
Qed.

(** C2, as amended. For a cache whose counters are numbers, as those of
    [runtimeState] are in every state the process gets to
    ([reachable_numeric]): [normalizeSnapshot] returns [null] exactly when
    the payload is falsy or not of type object, or when the source it
    selects (the [snapshot] member if that is an object, else the [data]
    member if that is an object, else the payload) is an array. For every
    other payload it returns a snapshot, provided that each value it has
    to convert can be converted to a primitive. The snapshot has its
    queueDepth in [0, 10000], jobsProcessed in [0, 100000000], successRate
    in [0, 100] and activeWorkers in [0, 1000]; each is the clamp of the
    incoming value when that is a finite number (or a non-blank string
    that [Number] reads as one), and the clamp of the cached value when
    the incoming value is absent, a number that is not finite, a
    non-blank string that [Number] does not read as a finite number, or an
    object. *)
Theorem normalizeSnapshot_reconciles cached now payload :
  numericCache cached ->
  let source := snapshotSource payload in
  (Exact.normalizeSnapshot cached now payload = Exact.Returned None
   <-> readsAsNull payload = true)
  /\ (readsAsNull payload = false -> snapshotConverts source = true ->
      exists snap,
        Exact.normalizeSnapshot cached now payload = Exact.Returned (Some snap))
  /\ (forall snap,
        Exact.normalizeSnapshot cached now payload = Exact.Returned (Some snap) ->
        reconciled (field3 source "queueDepth" "queue_depth" "queue")
                   (queueDepth cached) 0 10000 (queueDepth snap)
        /\ reconciled (field3 source "jobsProcessed" "jobs_processed" "jobs")
                      (jobsProcessed cached) 0 100000000 (jobsProcessed snap)
        /\ reconciled (field3 source "successRate" "success_rate" "success")
                      (successRate cached) 0 100 (successRate snap)
        /\ reconciled (field3 source "activeWorkers" "active_workers" "workers")
                      (activeWorkers cached) 0 1000 (activeWorkers snap)).
Proof.
  intros Hcached source. subst source. rewrite normalizeSnapshot_exact.
  destruct (normalizeSnapshot_fields cached now payload Hcached) as [_ Hfields].
  pose proof (readsAsNull_None cached now payload) as Hnull.
  destruct (readsAsNull payload) eqn:Hreads.
  - split; [done|]. split; [done|]. intros snap [=].
  - destruct (snapshotConverts (snapshotSource payload)) eqn:Hconv.
    + destruct (normalizeSnapshot cached now payload) as [found|] eqn:Hfound.
      * split; [done|]. split; [eauto|]. intros snap [= <-]. by apply Hfields.
      * destruct Hnull as [Hnull _]. by specialize (Hnull eq_refl).
    + split; [done|]. split; [done|]. intros snap [=].
Qed.

End ReconcilerClaim.

Section ReconcilerExamples.
#[local] Existing Instance Example.runtime.
#[local] Open Scope float_scope.

(** The process starts with 18 queued jobs and 4 workers in its cache; a
    payload with an oversized queue and a worker count that is no number
    is reconciled to the ceiling and to the cached count. *)
Lemma normalizeSnapshot_reconciles_witness :
  numericCache seedSnapshot
  /\ exists snap,
       Exact.normalizeSnapshot seedSnapshot 0
         (JObj [("queue", JNum 25000); ("workers", JStr "many")])
       = Exact.Returned (Some snap)
       /\ queueDepth snap = 10000 /\ activeWorkers snap = 4.
Proof.
  assert (Hseed : numericCache seedSnapshot) by (repeat split; reflexivity).
  split; [exact Hseed|].
  destruct (normalizeSnapshot_reconciles seedSnapshot 0
              (JObj [("queue", JNum 25000); ("workers", JStr "many")]) Hseed)
    as (_ & Hreturns & Hfields).
  destruct (Hreturns eq_refl eq_refl) as [snap Hsnap].
  exists snap. split; [exact Hsnap|].
  destruct (Hfields snap Hsnap) as ((_ & Hqueue) & _ & _ & (_ & Hworkers)).
  split; [exact Hqueue|]. exact (Hworkers eq_refl).
Defined.

(** C2 as stated fails. The payload [{data: []}] is an object, yet
    [normalizeSnapshot] returns [null] for it: its [data] member is the
    source, and the source is an array. And for the object
    [{queueDepth: {toString: 1}}] it returns neither [null] nor a
    snapshot: [Number] throws on its queueDepth. *)
Lemma normalizeSnapshot_null_on_object :
  let payload := JObj [("data", JArr [])] in
  let unconvertible := JObj [("queueDepth", JObj [("toString", JNum 1)])] in
  (truthy payload && typeofObject payload && negb (isArray payload) = true)
  /\ Exact.normalizeSnapshot seedSnapshot 0 payload = Exact.Returned None
  /\ (truthy unconvertible && typeofObject unconvertible
      && negb (isArray unconvertible) = true)
  /\ Exact.normalizeSnapshot seedSnapshot 0 unconvertible = Exact.Thrown.
Proof. vm_compute. repeat split. Qed.

End ReconcilerExamples.

(** * Further properties *)

(** ** The order of binary64 numbers *)

Section FloatOrder.
#[local] Open Scope float_scope.

Lemma SFleb_trans x y z : SFleb x y = true -> SFleb y z = true -> SFleb x z = true.
Proof.
  unfold SFleb, SFcompare.
  destruct x as [s1|s1| |s1 m1 e1], y as [s2|s2| |s2 m2 e2], z as [s3|s3| |s3 m3 e3];
    try done;
    repeat match goal with s : bool |- _ => destruct s end; try done;
    change (Pos.compare_cont Eq) with Pos.compare;
    destruct (Z.compare_spec e1 e2), (Z.compare_spec e2 e3), (Z.compare_spec e1 e3);
    try done; try lia; subst;
    repeat match goal with
           | |- context [CompOpp (?a ?= ?b)%positive] =>
               rewrite <- (Pos.compare_antisym b a)
           end;
    destruct (Pos.compare_spec m1 m2), (Pos.compare_spec m2 m3), (Pos.compare_spec m1 m3);
    try done; try lia.
Qed.

Lemma SFcompare_Eq x y :
  SFcompare x y = Some Eq ->
  x = y \/ exists s s', x = S754_zero s /\ y = S754_zero s'.
Proof.
  destruct x as [s1|s1| |s1 m1 e1], y as [s2|s2| |s2 m2 e2]; simpl; try done;
    try (by repeat match goal with s : bool |- _ => destruct s end; (done || auto)).
  - intros _. right. eauto.
  - destruct s1, s2; try done; destruct (Z.compare_spec e1 e2); try done; subst;
      change (Pos.compare_cont Eq) with Pos.compare;
      destruct (Pos.compare_spec m1 m2); try done; subst; auto.
Qed.

Lemma leb_trans x y z : (x <=? y) = true -> (y <=? z) = true -> (x <=? z) = true.
Proof. rewrite !leb_spec. apply SFleb_trans. Qed.

Lemma leb_not_nan_l x y : (x <=? y) = true -> is_nan x = false.
Proof.
  rewrite leb_spec. unfold SFleb. intros Hle. apply not_nan_is_nan. intros Hx.
  by rewrite Hx in Hle.
Qed.

Lemma ltb_not_nan x y : (x <? y) = true -> is_nan x = false /\ is_nan y = false.
Proof. intros Hlt%ltb_leb. eauto using leb_not_nan, leb_not_nan_l. Qed.

(** [x < y] excludes [y <= x]. *)
Lemma ltb_not_leb x y : (x <? y) = true -> (y <=? x) = false.
Proof.
  rewrite ltb_spec, leb_spec. unfold SFltb, SFleb.
  destruct (SFcompare (Prim2SF x) (Prim2SF y)) as [c|] eqn:E; [|done].
  rewrite (SFcompare_antisym _ _ _ E). by destruct c.
Qed.

Lemma leb_not_ltb x y : (x <=? y) = true -> (y <? x) = false.
Proof.
  intros Hle. destruct (y <? x) eqn:Hlt; [|done].
  apply ltb_not_leb in Hlt. congruence.
Qed.

(** Two numbers neither of which is below the other are equal. *)
Lemma leb_antisym x y : (x <=? y) = true -> (y <=? x) = true -> (x =? y) = true.
Proof.
  rewrite !leb_spec, FloatAxioms.eqb_spec. unfold SFleb, SFeqb.
  destruct (SFcompare (Prim2SF x) (Prim2SF y)) as [c|] eqn:E; [|done].
  rewrite (SFcompare_antisym _ _ _ E). by destruct c.
Qed.

Lemma eqb_sym x y : (x =? y) = true -> (y =? x) = true.
Proof.
  rewrite !FloatAxioms.eqb_spec. unfold SFeqb.
  destruct (SFcompare (Prim2SF x) (Prim2SF y)) as [c|] eqn:E; [|done].
  rewrite (SFcompare_antisym _ _ _ E). by destruct c.
Qed.

Lemma eqb_refl x : is_nan x = false -> (x =? x) = true.
Proof. intros Hx. apply leb_antisym; by apply leb_refl. Qed.

(** Equal numbers are the same value, unless they are the two zeros. *)
Lemma eqb_eq x y :
  (x =? y) = true -> (forall s, Prim2SF x <> S754_zero s) -> x = y.
Proof.
  rewrite FloatAxioms.eqb_spec. unfold SFeqb. intros Heq Hnz.
  destruct (SFcompare (Prim2SF x) (Prim2SF y)) as [[]|] eqn:E; try done.
  destruct (SFcompare_Eq _ _ E) as [Hxy|(s & s' & Hx & _)].
  - by apply Prim2SF_inj.
  - by destruct (Hnz s).
Qed.

(** A number between two finite numbers is finite. *)
Lemma inRange_finite lo hi x :
  Number_isFinite lo = true -> Number_isFinite hi = true ->
  inRange lo hi x -> Number_isFinite x = true.
Proof.
  unfold Number_isFinite, is_finite, is_infinity, is_nan, inRange.
  rewrite !FloatAxioms.eqb_spec, !leb_spec, !abs_spec. unfold SFeqb, SFleb.
  change (Prim2SF infinity) with (S754_infinity false).
  destruct (Prim2SF lo) as [sl|sl| |sl ml el], (Prim2SF hi) as [sh|sh| |sh mh eh],
    (Prim2SF x) as [s|s| |s m e]; simpl; try done;
    repeat match goal with s : bool |- _ => destruct s end; simpl; try done;
    intros _ _ [? ?]; try done;
    rewrite ?Z.compare_refl, ?Pos.compare_cont_refl; done.
Qed.

(** [clamp] keeps a number that lies between its bounds; the bounds are
    positive here, so that no zero changes its sign. *)
Lemma clamp_id value lo hi :
  inRange lo hi value ->
  get_sign lo = false -> get_sign hi = false ->
  (forall s, Prim2SF lo <> S754_zero s) ->
  clamp value lo hi = value.
Proof.
  intros [Hlo Hhi] Hslo Hshi Hnz. unfold clamp.
  assert (Hv : is_nan value = false) by eauto using leb_not_nan.
  assert (Hnl : is_nan lo = false) by eauto using leb_not_nan_l.
  assert (Hnh : is_nan hi = false) by eauto using leb_not_nan.
  assert (Hmin : Math_min hi value = value).
  { unfold Math_min. rewrite Hnh, Hv, (leb_not_ltb _ _ Hhi), Hshi. simpl.
    by destruct (value <? hi). }
  rewrite Hmin. unfold Math_max. rewrite Hnl, Hv, Hslo. simpl.
  destruct (lo <? value) eqn:Hlt; [done|].
  rewrite (leb_not_ltb _ _ Hlo).
  apply eqb_eq; [|done]. apply leb_antisym; [done|].
  by apply not_ltb_leb.
Qed.

End FloatOrder.


(** ** Clamping *)

Section Clamping.
#[local] Open Scope float_scope.

(** X1. For bounds [lo <= hi], [clamp] pins a value below [lo] to [lo] and
    a value above [hi] to [hi], returns a value between the bounds as it
    is (numerically: a zero may change its sign), and hands NaN through. *)
Theorem clamp_cases value lo hi :
  (lo <=? hi) = true ->
  (is_nan value = true -> is_nan (clamp value lo hi) = true)
  /\ ((value <? lo) = true -> (clamp value lo hi =? lo) = true)
  /\ ((hi <? value) = true -> (clamp value lo hi =? hi) = true)
  /\ (inRange lo hi value -> (clamp value lo hi =? value) = true).
Proof.
  intros Hle.
  assert (Hlo : is_nan lo = false) by eauto using leb_not_nan_l.
  assert (Hhi : is_nan hi = false) by eauto using leb_not_nan.
  unfold clamp. split; [|split; [|split]].
  - intros Hv. unfold Math_min. rewrite Hv, orb_true_r.
    unfold Math_max. by rewrite orb_true_r.
  - intros Hlt. destruct (ltb_not_nan _ _ Hlt) as [Hv _].
    pose proof (ltb_not_leb _ _ Hlt) as Hnle.
    destruct (Math_min_cases hi value Hhi Hv) as [[-> Hm]|[-> Hm]].
    + rewrite (leb_trans _ _ _ Hle Hm) in Hnle. discriminate.
    + destruct (Math_max_cases lo value Hlo Hv) as [[-> ?]|[-> ?]];
        [by apply eqb_refl|congruence].
  - intros Hlt. destruct (ltb_not_nan _ _ Hlt) as [_ Hv].
    pose proof (ltb_not_leb _ _ Hlt) as Hnle.
    destruct (Math_min_cases hi value Hhi Hv) as [[-> Hm]|[-> Hm]]; [|congruence].
    destruct (Math_max_cases lo hi Hlo Hhi) as [[-> ?]|[-> ?]];
      [by apply leb_antisym|by apply eqb_refl].
  - intros [Hl Hh].
    assert (Hv : is_nan value = false) by eauto using leb_not_nan.
    destruct (Math_min_cases hi value Hhi Hv) as [[-> Hm]|[-> Hm]].
    + destruct (Math_max_cases lo hi Hlo Hhi) as [[-> ?]|[-> ?]].
      * apply leb_antisym; [done|]. eauto using leb_trans.
      * by apply leb_antisym.
    + destruct (Math_max_cases lo value Hlo Hv) as [[-> ?]|[-> ?]];
        [by apply leb_antisym|by apply eqb_refl].
Qed.

Lemma clamp_cases_witness :
  (0 <=? 100) = true /\ (clamp 250 0 100 =? 100) = true.
Proof.
  split; [reflexivity|].
  apply (clamp_cases 250 0 100); reflexivity.
Defined.

End Clamping.

(** ** What [saveConfig] returns and writes *)

Section SavedConfig.
Context `{JSRuntime}.
#[local] Open Scope float_scope.

Lemma saveConfig_eval nextConfig w :
  eval (saveConfig nextConfig) w =
    {| cfg_apiEndpoint :=
         JStr (ToString (orElse (cfg_apiEndpoint nextConfig) (cfg_apiEndpoint defaultConfig)));
       cfg_wsEndpoint := JStr (ToString (orElse (cfg_wsEndpoint nextConfig) (JStr "")));
       cfg_autoReconnect := JBool (truthy (cfg_autoReconnect nextConfig));
       cfg_pollingIntervalMs :=
         JNum (clamp (numberOrFallback (Some (cfg_pollingIntervalMs nextConfig)) 5000)
                     1000 120000) |}.
Proof. reflexivity. Qed.

Lemma saveConfig_exec nextConfig w :
  let merged := eval (saveConfig nextConfig) w in
  exec (saveConfig nextConfig) w =
    set_connectionState
      (set_wsEndpoint (toWebSocketEndpoint merged)
         (set_apiEndpoint (normalizeHttpEndpoint (cfg_apiEndpoint merged))
            (connectionState w)))
      (set_configFile merged w).
Proof. reflexivity. Qed.

(** A member that is set last is the one that is read. *)
Lemma lookupProp_app key a b :
  lookupProp key (a ++ b)
  = match lookupProp key b with
    | Some v => Some v
    | None => lookupProp key a
    end.
Proof.
  induction a as [|[k v] a IH]; simpl; [by destruct (lookupProp key b)|].
  rewrite IH. by destruct (lookupProp key b).
Qed.

Lemma lookupProp_last key before last v :
  lookupProp key last = Some v -> getProp (JObj (before ++ last)) key = Some v.
Proof. intros Hlast. simpl. by rewrite lookupProp_app, Hlast. Qed.

Lemma textMember_converts nextConfig key fallback :
  Exact.textMember nextConfig key fallback
  = if converts (Exact.member nextConfig key)
    then Exact.Returned
           (ToString (orElse (default JNull (Exact.member nextConfig key)) (JStr fallback)))
    else Exact.Thrown.
Proof.
  unfold Exact.textMember. rewrite ToString_converts, hasNoPrimitive_orElse by done.
  unfold converts. destruct (Exact.member nextConfig key) as [x|]; simpl; [|done].
  by destruct (Exact.hasNoPrimitive x).
Qed.

(** [merged] throws when one of the six members that it converts has no
    primitive, and is the object of the converted members when all of
    them convert. *)
Lemma merged_exact nextConfig :
  Exact.merged nextConfig
  = if configConverts nextConfig
    then Exact.Returned
           (JObj (Exact.spread Exact.defaultConfig
                  ++ Exact.spread (orElse (default JNull nextConfig) (JObj []))
                  ++ convertedConfig nextConfig))
    else Exact.Thrown.
Proof.
  unfold Exact.merged, configConverts, convertedMembers, convertedConfig.
  rewrite !textMember_converts, numberOrFallback_converts. simpl forallb.
  destruct (converts (Exact.member nextConfig "botPath")); [|done].
  destruct (converts (Exact.member nextConfig "launchCommand")); [|done].
  destruct (converts (Exact.member nextConfig "apiEndpoint")); [|done].
  destruct (converts (Exact.member nextConfig "wsEndpoint")); [|done].
  destruct (converts (Exact.member nextConfig "workspacePath")); [|done].
  by destruct (converts (Exact.member nextConfig "pollingIntervalMs")).
Qed.

Lemma convertedConfig_wellFormed before nextConfig :
  wellFormedConfig (JObj (before ++ convertedConfig nextConfig)).
Proof.
  split; [|split].
  - repeat constructor; eexists; by apply lookupProp_last.
  - repeat constructor; eexists; by apply lookupProp_last.
  - eexists. split; [by apply lookupProp_last|].
    apply clamp_inRange; try reflexivity. by apply numberOrFallback_not_nan.
Qed.

(** X2. [saveConfig] throws, with nothing written, when one of the five
    members of [nextConfig] that it converts to text, or its
    pollingIntervalMs, is an object or an array that has no primitive
    value. For every other [nextConfig], [undefined] included, it returns
    a configuration in which botPath, launchCommand, apiEndpoint,
    wsEndpoint and workspacePath are strings, the four switches are
    booleans and pollingIntervalMs is a number in [1000, 120000]; the
    file written without error, it holds that configuration and the
    endpoints that follow from it are recorded. *)
Theorem saveConfig_well_formed nextConfig w :
  (configConverts nextConfig = false ->
     Exact.saveConfig nextConfig w = (Exact.Thrown, w))
  /\ (configConverts nextConfig = true ->
      exists config w',
        Exact.saveConfig nextConfig w = (Exact.Returned config, w')
        /\ wellFormedConfig config
        /\ configFile w' = Exact.readMembers config
        /\ apiEndpoint (connectionState w')
           = normalizeHttpEndpoint (cfg_apiEndpoint (Exact.readMembers config))
        /\ wsEndpoint (connectionState w') = toWebSocketEndpoint (Exact.readMembers config)).
Proof.
  unfold Exact.saveConfig. rewrite merged_exact.
  split; intros ->; [done|].
  do 2 eexists. split; [reflexivity|].
  split; [|done].
  rewrite app_assoc. apply convertedConfig_wellFormed.
Qed.

(** A string is what [String(text || fallback)] returns, unless the
    string is empty and the fall-back is not. *)
Lemma text_kept text fallback :
  (text = "" -> fallback = "") ->
  ToString (orElse (JStr text) (JStr fallback)) = text.
Proof.
  intros Hempty. unfold orElse. simpl. destruct text; [|done].
  simpl. by rewrite Hempty.
Qed.

(** Saving a configuration of five strings, four booleans and an
    interval in range sets the ten members to what they are, when the
    launchCommand and the apiEndpoint are not empty. *)
Lemma convertedConfig_fixed before botPath launchCommand apiEndpoint wsEndpoint
    workspacePath autostart desktopNotifications safeMode autoReconnect interval :
  let members :=
    [ ("botPath", JStr botPath); ("launchCommand", JStr launchCommand);
      ("apiEndpoint", JStr apiEndpoint); ("wsEndpoint", JStr wsEndpoint);
      ("workspacePath", JStr workspacePath); ("autostart", JBool autostart);
      ("desktopNotifications", JBool desktopNotifications);
      ("safeMode", JBool safeMode); ("autoReconnect", JBool autoReconnect);
      ("pollingIntervalMs", JNum interval) ] in
  launchCommand <> "" -> apiEndpoint <> "" -> inRange 1000 120000 interval ->
  configConverts (Some (JObj (before ++ members))) = true
  /\ convertedConfig (Some (JObj (before ++ members))) = members.
Proof.
  intros members Hlaunch Hendpoint Hrange.
  unfold configConverts, convertedMembers, convertedConfig, Exact.flagMember,
    Exact.member. subst members. simpl.
  rewrite !lookupProp_app. simpl.
  rewrite !text_kept by done.
  split; [done|].
  unfold numberOrFallback. simpl.
  rewrite (inRange_finite 1000 120000 interval) by (reflexivity || done).
  rewrite clamp_id by done.
  by destruct autostart, desktopNotifications, safeMode, autoReconnect.
Qed.

(** The members that are set last decide what is read, whatever is
    spread in front of them, once or twice. *)
Lemma sameMembers_spread_again defaults given members :
  sameMembers (JObj (defaults ++ ((defaults ++ given) ++ members) ++ members))
              (JObj ((defaults ++ given) ++ members)).
Proof.
  intros key. simpl. rewrite !lookupProp_app.
  destruct (lookupProp key members); [done|].
  destruct (lookupProp key given); [done|]. by destruct (lookupProp key defaults).
Qed.

Lemma readMembers_sameMembers a b :
  sameMembers a b -> Exact.readMembers a = Exact.readMembers b.
Proof. intros Hsame. unfold Exact.readMembers. by rewrite !Hsame. Qed.

(** X3. A configuration that [saveConfig] has returned is a fixed point,
    member by member, when its launchCommand and its apiEndpoint are not
    empty: saved again it converts, every member of the result is the
    member of the configuration, and the process is left in the state the
    first save left it in. (An empty launchCommand or apiEndpoint, which
    the first save returns when it is handed an empty array for it, is
    replaced by the default the second time.) *)
Theorem saveConfig_idempotent nextConfig config w :
  Exact.merged nextConfig = Exact.Returned config ->
  getProp config "launchCommand" <> Some (JStr "") ->
  getProp config "apiEndpoint" <> Some (JStr "") ->
  exists again,
    Exact.merged (Some config) = Exact.Returned again
    /\ sameMembers again config
    /\ snd (Exact.saveConfig (Some config) (snd (Exact.saveConfig nextConfig w)))
       = snd (Exact.saveConfig nextConfig w).
Proof.
  intros Hmerged.
  set (given := Exact.spread (orElse (default JNull nextConfig) (JObj []))).
  set (before := Exact.spread Exact.defaultConfig ++ given).
  assert (Hshape : config = JObj (before ++ convertedConfig nextConfig)).
  { rewrite merged_exact in Hmerged. destruct (configConverts nextConfig); [|done].
    by injection Hmerged as <-. }
  unfold Exact.saveConfig. rewrite Hmerged. clear Hmerged. subst config.
  intros Hlaunch Hendpoint.
  destruct (convertedConfig_fixed before
              (ToString (orElse (default JNull (Exact.member nextConfig "botPath")) (JStr "")))
              (ToString (orElse (default JNull (Exact.member nextConfig "launchCommand"))
                                (JStr "python3 main.py")))
              (ToString (orElse (default JNull (Exact.member nextConfig "apiEndpoint"))
                                (JStr "http://127.0.0.1:5050")))
              (ToString (orElse (default JNull (Exact.member nextConfig "wsEndpoint")) (JStr "")))
              (ToString (orElse (default JNull (Exact.member nextConfig "workspacePath"))
                                (JStr "")))
              (Exact.flagMember nextConfig "autostart")
              (Exact.flagMember nextConfig "desktopNotifications")
              (Exact.flagMember nextConfig "safeMode")
              (Exact.flagMember nextConfig "autoReconnect")
              (clamp (numberOrFallback (Exact.member nextConfig "pollingIntervalMs") 5000)
                     1000 120000))
    as [Hconverts Hfixed].
  { intros Hempty. apply Hlaunch. erewrite lookupProp_last; [|reflexivity].
    by rewrite Hempty. }
  { intros Hempty. apply Hendpoint. erewrite lookupProp_last; [|reflexivity].
    by rewrite Hempty. }
  { apply clamp_inRange; try reflexivity. by apply numberOrFallback_not_nan. }
  assert (Hc : configConverts (Some (JObj (before ++ convertedConfig nextConfig))) = true)
    by exact Hconverts.
  assert (Hf : convertedConfig (Some (JObj (before ++ convertedConfig nextConfig)))
               = convertedConfig nextConfig) by exact Hfixed.
  clear Hconverts Hfixed.
  rewrite merged_exact, Hc, Hf.
  assert (Hsame : sameMembers
            (JObj (Exact.spread Exact.defaultConfig
                   ++ Exact.spread (orElse (default JNull
                                      (Some (JObj (before ++ convertedConfig nextConfig))))
                                      (JObj []))
                   ++ convertedConfig nextConfig))
            (JObj (before ++ convertedConfig nextConfig))).
  { rewrite app_assoc.
    change (Exact.spread (orElse _ _)) with (before ++ convertedConfig nextConfig).
    rewrite <- app_assoc. apply sameMembers_spread_again. }
  eexists. split; [reflexivity|]. split; [exact Hsame|].
  cbn [snd]. rewrite (readMembers_sameMembers _ _ Hsame). reflexivity.
Qed.

(** [Studio.saveConfig] is [Exact.saveConfig] seen through the four
    members that the orchestrator reads: for a configuration whose members
    convert, it leaves the state that [Exact.saveConfig] leaves and
    returns those four members of what [Exact.saveConfig] returns. *)
Lemma saveConfig_shadow nextConfig w :
  configConverts (Some (configObject nextConfig)) = true ->
  exists config,
    Exact.saveConfig (Some (configObject nextConfig)) w
    = (Exact.Returned config, exec (saveConfig nextConfig) w)
    /\ Exact.readMembers config = eval (saveConfig nextConfig) w.
Proof.
  intros Hconverts. unfold Exact.saveConfig. rewrite merged_exact, Hconverts.
  rewrite app_assoc.
  set (before := Exact.spread Exact.defaultConfig ++ _).
  assert (Hread : Exact.readMembers
                    (JObj (before ++ convertedConfig (Some (configObject nextConfig))))
                  = eval (saveConfig nextConfig) w).
  { unfold Exact.readMembers, getProp. rewrite !lookupProp_app. reflexivity. }
  eexists. split; [|exact Hread]. by rewrite Hread.
Qed.

End SavedConfig.

Section SavedConfigExamples.
#[local] Existing Instance Example.runtime.
#[local] Open Scope float_scope.

(** A configuration whose apiEndpoint is an object with a member named
    toString cannot be saved: [String] throws, and nothing is written. *)
Example saveConfig_throws :
  Exact.saveConfig (Some (JObj [("apiEndpoint", JObj [("toString", JNum 1)])])) freshWorld
  = (Exact.Thrown, freshWorld).
Proof. reflexivity. Qed.

(** The renderer asks for an address without a scheme and for polling
    twice a second: the interval saved is one second, and saving the
    result again changes none of its members. *)
Lemma saveConfig_idempotent_witness :
  let nextConfig :=
    Some (JObj [("apiEndpoint", JStr "bot.example.com"); ("pollingIntervalMs", JNum 500)]) in
  exists config again,
    Exact.merged nextConfig = Exact.Returned config
    /\ getProp config "launchCommand" = Some (JStr "python3 main.py")
    /\ getProp config "apiEndpoint" = Some (JStr "bot.example.com")
    /\ getProp config "pollingIntervalMs" = Some (JNum 1000)
    /\ Exact.merged (Some config) = Exact.Returned again
    /\ sameMembers again config.
Proof.
  intros nextConfig.
  assert (Hconverts : configConverts nextConfig = true) by reflexivity.
  pose proof (merged_exact nextConfig) as Hmerged. rewrite Hconverts in Hmerged.
  eexists.
  destruct (saveConfig_idempotent nextConfig _ freshWorld Hmerged)
    as (again & Hagain & Hsame & _); [vm_compute; discriminate..|].
  exists again. split; [exact Hmerged|]. do 3 (split; [by vm_compute|]). split; done.
Defined.

(** Handed an empty array for launchCommand, [saveConfig] returns an
    empty launchCommand, which is not a fixed point: the second save puts
    the default in its place. *)
Example saveConfig_empty_launchCommand :
  exists config again,
    Exact.merged (Some (JObj [("launchCommand", JArr [])])) = Exact.Returned config
    /\ getProp config "launchCommand" = Some (JStr "")
    /\ Exact.merged (Some config) = Exact.Returned again
    /\ getProp again "launchCommand" = Some (JStr "python3 main.py").
Proof. do 2 eexists. vm_compute. repeat split. Qed.

End SavedConfigExamples.


(** ** Status names *)

Section StatusNames.
Context `{JSRuntime}.

Lemma normalizeStatus_statusName s :
  lowerCaseFixesStatusNames -> normalizeStatus (JStr (statusName s)) = s.
Proof.
  intros Hlower. unfold normalizeStatus, orElse.
  assert (Ht : truthy (JStr (statusName s)) = true) by by destruct s.
  rewrite Ht. simpl. rewrite Hlower. by destruct s.
Qed.

(** X4. The four status names are fixed points of [normalizeStatus], and
    a value that is falsy (absent, null, false, 0, NaN or the empty
    string) is read as idle. *)
Theorem normalizeStatus_canonical :
  lowerCaseFixesStatusNames ->
  (forall s, normalizeStatus (JStr (statusName s)) = s)
  /\ (forall value, truthy value = false -> normalizeStatus value = Idle).
Proof.
  intros Hlower. split.
  - intros s. by apply normalizeStatus_statusName.
  - intros value Hv. unfold normalizeStatus, orElse. rewrite Hv. simpl.
    pose proof (Hlower Idle) as Hidle. simpl in Hidle. by rewrite Hidle.
Qed.

(** X5. A payload that [normalizeSnapshot] accepts and whose source
    carries no status under any of its three names (each absent or null)
    keeps the cached status; one that carries no heartbeat under any of
    its three names is stamped with the current time. *)
Theorem normalizeSnapshot_defaults cached now payload snap :
  lowerCaseFixesStatusNames ->
  normalizeSnapshot cached now payload = Some snap ->
  let source := snapshotSource payload in
  (missing (getProp source "status") && missing (getProp source "state")
   && missing (getProp source "mode") = true -> status snap = status cached)
  /\ (missing (getProp source "lastHeartbeat") && missing (getProp source "last_heartbeat")
      && missing (getProp source "heartbeat") = true ->
      lastHeartbeat snap = toISOString now).
Proof.
  intros Hlower. unfold normalizeSnapshot.
  destruct (negb (truthy payload) || negb (typeofObject payload)); [done|].
  destruct (negb (truthy (snapshotSource payload)) || isArray (snapshotSource payload)
            || negb (typeofObject (snapshotSource payload))); [done|].
  intros [= <-]. cbv zeta. unfold field3. split.
  - destruct (getProp _ "status") as [[]|]; try done;
      destruct (getProp _ "state") as [[]|]; try done;
      destruct (getProp _ "mode") as [[]|]; try done; intros _; simpl;
      by apply normalizeStatus_statusName.
  - destruct (getProp _ "lastHeartbeat") as [[]|]; try done;
      destruct (getProp _ "last_heartbeat") as [[]|]; try done;
      destruct (getProp _ "heartbeat") as [[]|]; try done.
Qed.

End StatusNames.

Section StatusNameExamples.
#[local] Existing Instance Example.runtime.

Lemma lowerCase_of_the_example_runtime : lowerCaseFixesStatusNames.
Proof. by intros []. Qed.

Lemma normalizeStatus_canonical_witness :
  lowerCaseFixesStatusNames /\ normalizeStatus (JStr "paused") = Paused.
Proof.
  split; [exact lowerCase_of_the_example_runtime|].
  exact (proj1 (normalizeStatus_canonical lowerCase_of_the_example_runtime) Paused).
Defined.

Lemma normalizeSnapshot_defaults_witness :
  lowerCaseFixesStatusNames
  /\ normalizeSnapshot (set_status Paused seedSnapshot) 0 (JObj [("queue", JNum 3)])
     = Some (set_queueDepth 3 (set_status Paused seedSnapshot))
  /\ status (set_queueDepth 3 (set_status Paused seedSnapshot)) = Paused.
Proof.
  assert (Hsnap : normalizeSnapshot (set_status Paused seedSnapshot) 0
                    (JObj [("queue", JNum 3)])
                  = Some (set_queueDepth 3 (set_status Paused seedSnapshot)))
    by (vm_compute; reflexivity).
  split; [exact lowerCase_of_the_example_runtime|]. split; [exact Hsnap|].
  exact (proj1 (normalizeSnapshot_defaults _ _ _ _ lowerCase_of_the_example_runtime Hsnap)
           eq_refl).
Defined.

End StatusNameExamples.


(** ** Joining and deriving endpoints *)

Section Endpoints.
Context `{JSRuntime}.

Lemma list_ascii_of_string_append a b :
  list_ascii_of_string (a +++ b) = list_ascii_of_string a ++ list_ascii_of_string b.
Proof. induction a as [|c a IH]; simpl; [done|]. by rewrite IH. Qed.

Lemma stripTrailingSlashes_slash base :
  stripTrailingSlashes (base +++ "/") = stripTrailingSlashes base.
Proof.
  unfold stripTrailingSlashes, reverse.
  rewrite list_ascii_of_string_append, rev_app_distr. reflexivity.
Qed.

(** X6. [joinUrl] drops every trailing slash of the base, so that one more
    of them makes no difference, and appends the suffix, with a slash in
    front of it only when it does not begin with one. A suffix without a
    leading slash and the same suffix with one therefore give the same
    address. A suffix that begins with a slash is appended as it is, also
    when more slashes follow. Every path that the process requests begins
    with a slash: the address requested is the base without its trailing
    slashes, followed by the path. *)
Theorem joinUrl_slashes base suffix :
  joinUrl (base +++ "/") suffix = joinUrl base suffix
  /\ endsWithSlash (stripTrailingSlashes base) = false
  /\ (startsWith suffix "/" = true ->
        joinUrl base suffix = stripTrailingSlashes base +++ suffix)
  /\ (startsWith suffix "/" = false ->
        joinUrl base suffix = stripTrailingSlashes base +++ "/" +++ suffix
        /\ joinUrl base ("/" +++ suffix) = joinUrl base suffix)
  /\ (suffix ∈ healthPaths ++ snapshotPaths ++ logsPaths ++ actionPaths ->
        joinUrl base suffix = stripTrailingSlashes base +++ suffix).
Proof.
  unfold joinUrl. rewrite stripTrailingSlashes_slash.
  split; [reflexivity|]. split; [apply stripTrailingSlashes_clean|].
  split; [by intros ->|]. split; [by intros ->|].
  intros Hpath.
  assert (Hall : Forall (fun path => startsWith path "/" = true)
                   (healthPaths ++ snapshotPaths ++ logsPaths ++ actionPaths))
    by (repeat constructor).
  rewrite Forall_forall in Hall. by rewrite (Hall suffix Hpath).
Qed.

Lemma prefixBy_http_ws raw :
  hasHttpScheme raw = true -> hasWsScheme (replaceHttpByWs raw) = true.
Proof.
  unfold hasHttpScheme, hasWsScheme, replaceHttpByWs.
  destruct raw as [|c1 [|c2 [|c3 [|c4 [|c5 [|c6 [|c7 [|c8 rest]]]]]]]]; simpl;
    repeat match goal with
           | |- context [eqCI ?a ?b] => destruct (eqCI a b); simpl
           end; done.
Qed.

(** X7. A configuration whose wsEndpoint is not blank decides the stream
    endpoint on its own: the result starts with ws:// or wss://, is not
    empty, and is the same whatever the apiEndpoint is. *)
Theorem toWebSocketEndpoint_explicit config :
  trim (ToString (orElse (cfg_wsEndpoint config) (JStr ""))) <> "" ->
  hasWsScheme (toWebSocketEndpoint config) = true
  /\ isEmpty (toWebSocketEndpoint config) = false
  /\ forall other, cfg_wsEndpoint other = cfg_wsEndpoint config ->
                   toWebSocketEndpoint other = toWebSocketEndpoint config.
Proof.
  intros Hraw.
  assert (Hscheme : hasWsScheme (toWebSocketEndpoint config) = true).
  { unfold toWebSocketEndpoint.
    destruct (trim (ToString (orElse (cfg_wsEndpoint config) (JStr "")))) as [|c raw] eqn:E;
      [done|]. simpl.
    destruct (hasWsScheme (String c raw)) eqn:Hws; [exact Hws|].
    destruct (hasHttpScheme (String c raw)) eqn:Hhttp; [by apply prefixBy_http_ws|].
    reflexivity. }
  split; [exact Hscheme|]. split.
  - by destruct (toWebSocketEndpoint config).
  - intros other Hsame. unfold toWebSocketEndpoint. rewrite Hsame.
    by destruct (trim (ToString (orElse (cfg_wsEndpoint config) (JStr "")))).
Qed.

End Endpoints.

Section EndpointExamples2.
#[local] Existing Instance Example.runtime.

Lemma toWebSocketEndpoint_explicit_witness :
  toWebSocketEndpoint
    {| cfg_apiEndpoint := JStr ""; cfg_wsEndpoint := JStr " HTTPS://bot.example.com/stream ";
       cfg_autoReconnect := JBool false; cfg_pollingIntervalMs := JNull |}
  = "wsS://bot.example.com/stream"
  /\ hasWsScheme "wsS://bot.example.com/stream" = true.
Proof.
  split; [vm_compute; reflexivity|].
  refine (eq_trans _ (proj1 (toWebSocketEndpoint_explicit
            {| cfg_apiEndpoint := JStr "";
               cfg_wsEndpoint := JStr " HTTPS://bot.example.com/stream ";
               cfg_autoReconnect := JBool false; cfg_pollingIntervalMs := JNull |} _))).
  - vm_compute. reflexivity.
  - vm_compute. discriminate.
Defined.

End EndpointExamples2.


(** ** Lines that already carry a timestamp *)

Section StampedLines.
Context `{JSRuntime}.

Lemma trimStart_empty s c :
  trimStart s = "" -> In c (list_ascii_of_string s) -> isWhiteSpace c = true.
Proof.
  induction s as [|a s IH]; simpl; [done|].
  destruct (isWhiteSpace a) eqn:Ha; [|done].
  intros Hs [<-|Hin]; auto.
Qed.

Lemma reverse_empty s : reverse s = "" -> s = "".
Proof.
  unfold reverse. intros Hr.
  apply (f_equal list_ascii_of_string) in Hr.
  rewrite list_ascii_of_string_of_list_ascii in Hr. simpl in Hr.
  destruct s as [|a s]; [done|]. simpl in Hr.
  by destruct (rev (list_ascii_of_string s)).
Qed.

(** A string with a character that is no white space is not blank. *)
Lemma trim_not_empty c rest :
  isWhiteSpace c = false -> isEmpty (trim (String c rest)) = false.
Proof.
  intros Hc. unfold trim. simpl. rewrite Hc. unfold trimEnd.
  destruct (reverse (trimStart (reverse (String c rest)))) eqn:E; [|done].
  apply reverse_empty in E.
  assert (Hin : In c (list_ascii_of_string (reverse (String c rest)))).
  { unfold reverse. rewrite list_ascii_of_string_of_list_ascii.
    apply in_rev. rewrite rev_involutive. by left. }
  rewrite (trimStart_empty _ _ E Hin) in Hc. discriminate.
Qed.

Lemma hasIsoStampPrefix_bracket s :
  hasIsoStampPrefix s = true -> exists rest, s = String "[" rest.
Proof.
  unfold hasIsoStampPrefix.
  destruct s as [|b s]; [done|]. simpl.
  destruct (list_ascii_of_string s) as [|y1 [|y2 [|y3 [|y4 [|d1 [|m1 [|m2 [|d2 [|a1 [|a2 [|t l]]]]]]]]]]];
    try done.
  destruct (Ascii.eqb_spec b "["); [|done]. subst. eauto.
Qed.

Lemma formatEntry_stamped now line :
  hasIsoStampPrefix line = true -> formatEntry now (JStr line) = Some line.
Proof.
  intros Hs. destruct (hasIsoStampPrefix_bracket _ Hs) as [rest ->].
  unfold formatEntry. rewrite trim_not_empty by reflexivity. by rewrite Hs.
Qed.

(** X8. Lines that already begin with a timestamp, "[YYYY-MM-DDT", pass
    through [extractLogs] unchanged: of an array of such lines it returns
    the last 500, whatever the raw text is. *)
Theorem extractLogs_keeps_stamped now lines text :
  Forall (fun line => hasIsoStampPrefix line = true) lines ->
  extractLogs now (JArr (map JStr lines)) text = lastN 500 lines.
Proof.
  intros Hall. unfold extractLogs, logEntries. f_equal.
  induction Hall as [|line lines Hline _ IH]; [done|].
  rewrite !map_cons, formatEntry_stamped by done.
  destruct (hasIsoStampPrefix_bracket _ Hline) as [rest ->].
  unfold keepTruthy in *. cbn [omap list_omap isEmpty]. by rewrite IH.
Qed.

End StampedLines.

Section StampedLineExamples.
#[local] Existing Instance Example.runtime.

Lemma extractLogs_keeps_stamped_witness :
  extractLogs 0 (JArr [JStr "[2024-05-01T10:00:00.000Z] [INFO] worker up"]) "ignored"
  = ["[2024-05-01T10:00:00.000Z] [INFO] worker up"].
Proof.
  apply (extractLogs_keeps_stamped 0 ["[2024-05-01T10:00:00.000Z] [INFO] worker up"]).
  repeat constructor.
Defined.

End StampedLineExamples.

(** ** Invariants of operations, in general *)

Section Keeps.
Context `{JSRuntime}.
Variable Inv : World -> Prop.

Lemma keeps_bind {A B} (m : M A) (k : A -> M B) :
  keeps Inv m -> (forall a, keeps Inv (k a)) -> keeps Inv (bind m k).
Proof. intros Hm Hk w Hw. rewrite exec_bind. by apply Hk, Hm. Qed.

Lemma keeps_bind_get {B} (k : World -> M B) :
  (forall w, Inv w -> keeps Inv (k w)) -> keeps Inv (bind get k).
Proof. intros Hk w Hw. rewrite exec_bind. by apply Hk. Qed.

Lemma keeps_ret {A} (a : A) : keeps Inv (ret a).
Proof. by intros w. Qed.

Lemma keeps_when b m : keeps Inv m -> keeps Inv (when b m).
Proof. destruct b; [done|]. by intros _ w. Qed.

End Keeps.

(** Splits an operation at its binds and branches and hands the
    primitives to [leaf]. *)
Ltac keeps_struct leaf :=
  repeat (cbv beta zeta;
          lazymatch goal with
          | |- keeps _ (bind get _) => apply keeps_bind_get; intros ? ?
          | |- keeps _ (bind _ _) => apply keeps_bind; [|intros ?]
          | |- keeps _ (if ?b then _ else _) => destruct b eqn:?
          | |- keeps _ (match ?x with _ => _ end) => destruct x eqn:?
          | |- keeps _ (when _ _) => apply keeps_when
          | |- keeps _ (ret _) => apply keeps_ret
          | |- keeps _ _ => leaf
          | |- forall _, _ => intros ?
          end).

(** A primitive that does not write the part of the state an invariant
    reads. *)
Ltac keeps_frame :=
  idtac;
  let w := fresh "w" in
  let Hw := fresh "Hw" in
  intros w Hw;
  unfold appendLog, appendRemoteLogs, clearReconnectTimer, closeWebSocketClient,
    mergeSnapshot, when, setConn, setRuntime;
  unfold exec, fetchEndpoint, ensureLogsFile, setTimeout, modify, bind, ret, get,
    Date_now, readConfig, copyConnectionState;
  repeat match goal with
         | |- context [match logsFile ?x with _ => _ end] => destruct (logsFile x)
         | |- context [match net_result ?x with _ => _ end] => destruct (net_result x)
         | |- context [match wsReconnectTimer ?x with _ => _ end] =>
             destruct (wsReconnectTimer x)
         | |- context [if ?b then _ else _] => destruct b
         end;
  exact Hw.

(** ** Operations that resolve to the connection state *)

Section ReturnsConnectionState.
Context `{JSRuntime}.
Variable net : Network.

Lemma returnsConnectionState_bind {A} (m : M A) (k : A -> M ConnectionState) :
  (forall a, returnsConnectionState (k a)) -> returnsConnectionState (bind m k).
Proof. intros Hk w. rewrite eval_bind, exec_bind. apply Hk. Qed.

Lemma returnsConnectionState_copy : returnsConnectionState copyConnectionState.
Proof. by intros w. Qed.

Lemma returnsConnectionState_probeLoop api startedAt paths :
  forall latestError,
    returnsConnectionState (probeLoop net api startedAt latestError paths).
Proof.
  induction paths as [|p rest IH]; intros latestError; simpl;
    repeat first [ apply returnsConnectionState_copy
                 | apply IH
                 | apply returnsConnectionState_bind; intros ?
                 | match goal with
                   | |- returnsConnectionState (if ?b then _ else _) => destruct b
                   end ].
Qed.

Lemma returnsConnectionState_probeApiConnection config :
  returnsConnectionState (probeApiConnection net config).
Proof.
  unfold probeApiConnection.
  repeat first [ apply returnsConnectionState_copy
               | apply returnsConnectionState_probeLoop
               | apply returnsConnectionState_bind; intros ?
               | match goal with
                 | |- returnsConnectionState (if ?b then _ else _) => destruct b
                 end ].
Qed.

Lemma probeApiConnection_wsConnected config w :
  wsConnected (connectionState (exec (probeApiConnection net config) w))
  = wsConnected (connectionState w).
Proof.
  unfold probeApiConnection.
  destruct (isEmpty (normalizeHttpEndpoint (cfg_apiEndpoint config))); [reflexivity|].
  set (w0 := set_connectionState
               (set_lastCheck (Some (clock w))
                  (set_apiEndpoint (normalizeHttpEndpoint (cfg_apiEndpoint config))
                     (connectionState w))) w).
  change (exec _ w) with
    (exec (probeLoop net (normalizeHttpEndpoint (cfg_apiEndpoint config)) (clock w0)
             "API endpoint did not respond" healthPaths) w0).
  by destruct (probeLoop_outcome net (normalizeHttpEndpoint (cfg_apiEndpoint config))
                 (clock w0) healthPaths "API endpoint did not respond" w0 eq_refl
                 ltac:(lia)) as [-> _].
Qed.

End ReturnsConnectionState.


(** ** The environment checks *)

Section SetupChecks.
Context `{JSRuntime}.
Variable net : Network.
Variable machine : Machine.

Lemma isEmpty_append_r a b : isEmpty b = false -> isEmpty (a +++ b) = false.
Proof. destruct a; [done|reflexivity]. Qed.

Lemma versionLoop_first name commands :
  forall k entry,
    commands !! k = Some entry -> succeeds machine entry = true ->
    (forall j earlier, (j < k)%nat -> commands !! j = Some earlier ->
                       succeeds machine earlier = false) ->
    versionLoop machine name commands = Some (passReport machine name entry).
Proof.
  induction commands as [|first rest IH]; intros k entry Hk Hok Hbefore; [done|].
  simpl. destruct k as [|k].
  - injection Hk as ->. unfold succeeds in Hok. by rewrite Hok.
  - assert (Hfirst : succeeds machine first = false)
      by (apply (Hbefore 0%nat); [lia|done]).
    unfold succeeds in Hfirst. rewrite Hfirst.
    apply (IH k); [done|done|].
    intros j earlier Hj Hearlier. apply (Hbefore (S j)); [lia|done].
Qed.

Lemma versionLoop_none name commands :
  Forall (fun entry => succeeds machine entry = false) commands ->
  versionLoop machine name commands = None.
Proof.
  induction 1 as [|first rest Hfirst _ IH]; [done|].
  simpl. unfold succeeds in Hfirst. by rewrite Hfirst.
Qed.

(** X9. [runVersionCheck] reports the first command of its list that
    succeeds: the check passes with the trimmed output of that command
    (or "<command> detected" when it printed nothing), and the commands
    after it are not consulted. When every command fails the check fails
    and names the first command of the list. With an empty list there is
    no command to name, and the function throws. *)
Theorem runVersionCheck_first_success name commands :
  (forall k entry,
     commands !! k = Some entry -> succeeds machine entry = true ->
     (forall j earlier, (j < k)%nat -> commands !! j = Some earlier ->
                        succeeds machine earlier = false) ->
     runVersionCheck machine name commands = Some (passReport machine name entry))
  /\ (forall first rest,
        commands = first :: rest ->
        Forall (fun entry => succeeds machine entry = false) commands ->
        runVersionCheck machine name commands =
          Some {| check_name := name; check_status := Fail;
                  check_detail := command first +++ " not available on this system" |})
  /\ (commands = [] -> runVersionCheck machine name commands = None).
Proof.
  unfold runVersionCheck. split; [|split].
  - intros k entry Hk Hok Hbefore.
    by rewrite (versionLoop_first name commands k entry).
  - intros first rest -> Hall. by rewrite versionLoop_none.
  - by intros ->.
Qed.

Lemma runVersionCheck_some name first rest :
  exists report,
    runVersionCheck machine name (first :: rest) = Some report
    /\ check_name report = name
    /\ check_status report <> Warning
    /\ isEmpty (check_detail report) = false.
Proof.
  unfold runVersionCheck.
  assert (Hloop : forall commands report,
            versionLoop machine name commands = Some report ->
            check_name report = name /\ check_status report <> Warning
            /\ isEmpty (check_detail report) = false).
  { induction commands as [|entry commands IH]; intros report; [done|]. simpl.
    destruct (cmd_ok _); [|apply IH].
    intros [= <-]. simpl. split; [done|]. split; [done|].
    destruct (isEmpty (cmd_output _)) eqn:E; [by apply isEmpty_append_r|exact E]. }
  destruct (versionLoop machine name (first :: rest)) as [report|] eqn:E.
  - exists report. split; [done|]. by apply (Hloop (first :: rest)).
  - eexists. split; [reflexivity|]. simpl. split; [done|]. split; [done|].
    by apply isEmpty_append_r.
Qed.

(** X10. [runSetupChecks] always resolves, to seven reports in a fixed
    order: Node.js, npm, Git, Python runtime, bot project path, bot API
    endpoint, WebSocket stream; none of the details is empty. The version
    checks pass or fail. The path check warns exactly when the argument is
    no string or a blank one. The endpoint check warns exactly when no
    API endpoint is configured and otherwise passes exactly when the probe
    it ran left the API reachable. The stream check passes when the stream
    is connected and warns when it is not. The process is left in the state
    that the probe and the log line leave it in. *)
Theorem runSetupChecks_report botPath w :
  let config := configFile w in
  let probed := exec (probeApiConnection net config) w in
  exists node npm git python path api stream,
    eval (runSetupChecksReport net machine botPath) w
      = Some [node; npm; git; python; path; api; stream]
    /\ map check_name [node; npm; git; python; path; api; stream]
       = ["Node.js"; "npm"; "Git"; "Python runtime"; "Bot project path";
          "Bot API endpoint"; "WebSocket stream"]
    /\ Forall (fun report => isEmpty (check_detail report) = false)
         [node; npm; git; python; path; api; stream]
    /\ Forall (fun report => check_status report <> Warning) [node; npm; git; python]
    /\ (check_status path = Warning <-> nonBlankString botPath = false)
    /\ (check_status api = Warning <->
          isEmpty (normalizeHttpEndpoint (cfg_apiEndpoint config)) = true)
    /\ (check_status api = Pass <->
          isEmpty (normalizeHttpEndpoint (cfg_apiEndpoint config)) = false
          /\ apiReachable (connectionState probed) = true)
    /\ check_status stream = (if wsConnected (connectionState w) then Pass else Warning)
    /\ exec (runSetupChecksReport net machine botPath) w = exec (runSetupChecks net) w.
Proof.
  intros config probed.
  destruct (runVersionCheck_some "Node.js" {| command := "node"; args := ["-v"] |} [])
    as (node & Hnode & Hn1 & Hn2 & Hn3).
  destruct (runVersionCheck_some "npm" {| command := "npm"; args := ["-v"] |} [])
    as (npm & Hnpm & Hm1 & Hm2 & Hm3).
  destruct (runVersionCheck_some "Git" {| command := "git"; args := ["--version"] |} [])
    as (git & Hgit & Hg1 & Hg2 & Hg3).
  assert (Hpython : exists python,
            runVersionCheck machine "Python runtime" (pythonChecks machine) = Some python
            /\ check_name python = "Python runtime"
            /\ check_status python <> Warning
            /\ isEmpty (check_detail python) = false).
  { unfold pythonChecks. destruct (String.eqb (platform machine) "win32");
      apply runVersionCheck_some. }
  destruct Hpython as (python & Hpython & Hp1 & Hp2 & Hp3).
  set (connection := connectionState probed).
  exists node, npm, git, python, (botPathCheck machine botPath),
    (apiCheck config connection), (wsCheck config connection).
  assert (Hall : allResolved (commandChecks machine) = Some [node; npm; git; python]).
  { unfold commandChecks. by rewrite Hnode, Hnpm, Hgit, Hpython. }
  assert (Hconnection : eval (probeApiConnection net config) w = connection)
    by apply returnsConnectionState_probeApiConnection.
  split.
  { unfold runSetupChecksReport. rewrite Hall.
    rewrite eval_bind. change (eval readConfig w) with config.
    change (exec readConfig w) with w.
    rewrite eval_bind, Hconnection. rewrite eval_bind. reflexivity. }
  split.
  { assert (Hpath : check_name (botPathCheck machine botPath) = "Bot project path").
    { unfold botPathCheck. destruct botPath as [| | |p| |]; try done.
      destruct (negb (isEmpty (trim p))); [|done]. by destruct (accessible machine p). }
    assert (Hapi : check_name (apiCheck config connection) = "Bot API endpoint").
    { unfold apiCheck.
      destruct (isEmpty (normalizeHttpEndpoint (cfg_apiEndpoint config))); [done|].
      by destruct (apiReachable connection). }
    cbn [map]. by rewrite Hn1, Hm1, Hg1, Hp1, Hpath, Hapi. }
  split.
  { repeat constructor; try done.
    - unfold botPathCheck. destruct botPath as [| | |p| |]; try done.
      destruct (negb (isEmpty (trim p))); [|done].
      destruct (accessible machine p); simpl; by apply isEmpty_append_r.
    - unfold apiCheck.
      destruct (isEmpty (normalizeHttpEndpoint (cfg_apiEndpoint config))); [done|].
      destruct (apiReachable connection); simpl; [done|].
      destruct (lastError connection) as [e|]; simpl; [|done].
      destruct (isEmpty e) eqn:E; simpl; [done|exact E].
    - unfold wsCheck. simpl. by destruct (wsConnected connection). }
  split; [by repeat constructor|].
  split.
  { unfold botPathCheck, nonBlankString. destruct botPath as [| | |p| |]; try done.
    destruct (negb (isEmpty (trim p))); [|done].
    by destruct (accessible machine p). }
  split.
  { unfold apiCheck.
    destruct (isEmpty (normalizeHttpEndpoint (cfg_apiEndpoint config))); [done|].
    by destruct (apiReachable connection). }
  split.
  { unfold apiCheck.
    destruct (isEmpty (normalizeHttpEndpoint (cfg_apiEndpoint config))).
    - split; [done|]. by intros [? _].
    - destruct (apiReachable connection); split; try done. by intros [_ ?]. }
  split.
  { unfold wsCheck. simpl. subst connection probed.
    by rewrite probeApiConnection_wsConnected. }
  unfold runSetupChecksReport, runSetupChecks. rewrite Hall.
  by rewrite !exec_bind.
Qed.

End SetupChecks.


(** ** What the snapshot facade hands to the renderer *)

Section SnapshotFacade.
Context `{JSRuntime}.
Variable net : Network.

Lemma returnsRuntimeState_bind {A} (m : M A) (k : A -> M (option BotSnapshot)) :
  (forall a, returnsRuntimeState (k a)) -> returnsRuntimeState (bind m k).
Proof. intros Hk w s. rewrite eval_bind, exec_bind. apply Hk. Qed.

Lemma returnsRuntimeState_merge snapshot :
  returnsRuntimeState (let* merged := mergeSnapshot snapshot in ret (Some merged)).
Proof. by intros w s [= <-]. Qed.

Lemma returnsRuntimeState_None : returnsRuntimeState (ret None).
Proof. by intros w s. Qed.

Lemma returnsRuntimeState_orElse (m fallback : M (option BotSnapshot)) :
  returnsRuntimeState m -> returnsRuntimeState fallback ->
  returnsRuntimeState
    (let* found := m in
     match found with
     | Some snapshot => ret (Some snapshot)
     | None => fallback
     end).
Proof.
  intros Hm Hf w s. rewrite (eval_bind m), (exec_bind m).
  pose proof (Hm w) as Hfound.
  destruct (eval m w) as [found|]; [|apply Hf].
  intros [= <-]. by apply Hfound.
Qed.

Ltac returns_runtime :=
  repeat first
    [ apply returnsRuntimeState_merge
    | apply returnsRuntimeState_None
    | assumption
    | apply returnsRuntimeState_bind; intros ?
    | match goal with
      | |- returnsRuntimeState (if ?b then _ else _) => destruct b
      | |- returnsRuntimeState (match ?x with _ => _ end) => destruct x
      end ].

Lemma returnsRuntimeState_snapshotLoop api paths :
  returnsRuntimeState (snapshotLoop net api paths).
Proof.
  induction paths as [|p rest IH]; simpl; returns_runtime.
Qed.

Lemma returnsRuntimeState_fetchRemoteSnapshot config :
  returnsRuntimeState (fetchRemoteSnapshot net config).
Proof.
  unfold fetchRemoteSnapshot.
  destruct (isEmpty (normalizeHttpEndpoint (cfg_apiEndpoint config)));
    [apply returnsRuntimeState_None|].
  apply returnsRuntimeState_bind. intros _.
  apply returnsRuntimeState_orElse; [apply returnsRuntimeState_snapshotLoop|].
  returns_runtime.
Qed.

(** X11. [getSnapshot] resolves to the very snapshot it leaves in
    [runtimeState]: what the renderer is shown is what the process has
    cached, whether the snapshot came from the API, from the stream's
    cache or from the local state. *)
Theorem getSnapshot_returns_cache w :
  eval (getSnapshot net) w = runtimeState (exec (getSnapshot net) w).
Proof.
  unfold getSnapshot. rewrite eval_bind, exec_bind, eval_bind, exec_bind.
  change (eval readConfig w) with (configFile w). change (exec readConfig w) with w.
  pose proof (returnsRuntimeState_fetchRemoteSnapshot (configFile w) w) as Hremote.
  destruct (eval (fetchRemoteSnapshot net (configFile w)) w) as [s|]; [by apply Hremote|].
  reflexivity.
Qed.

Lemma tryRemoteAction_offline action w :
  offline w -> tryRemoteAction net (configFile w) action w = (None, w).
Proof. unfold offline, tryRemoteAction. by intros ->. Qed.

Lemma localTransition_frame action w :
  requests (exec (localTransition action) w) = requests w
  /\ connectionState (exec (localTransition action) w) = connectionState w.
Proof.
  unfold localTransition.
  repeat match goal with
         | |- context [if ?b then _ else _] => destruct b
         end;
    repeat (rewrite exec_bind; simpl);
    match goal with
    | |- context [exec (appendLog ?m ?l) ?x] =>
        destruct (appendLog_exec m l x) as [contents ->]
    end; done.
Qed.

(** X12. With no API endpoint configured the facades stay off the
    network. [getSnapshot] refreshes the heartbeat of the cached snapshot
    and changes nothing else; [performBotAction] and [getCombinedLogs]
    send no request and leave the connection state as it is, and
    [getCombinedLogs] returns the local log lines. *)
Theorem offline_facades_send_nothing w action :
  offline w ->
  exec (getSnapshot net) w
    = set_runtimeState (set_lastHeartbeat (toISOString (clock w)) (runtimeState w)) w
  /\ requests (exec (performBotAction net action) w) = requests w
  /\ connectionState (exec (performBotAction net action) w) = connectionState w
  /\ requests (exec (getCombinedLogs net) w) = requests w
  /\ connectionState (exec (getCombinedLogs net) w) = connectionState w
  /\ eval (getCombinedLogs net) w = eval (readLocalLogs 120) w.
Proof.
  intros Hoff. split; [|split; [|split]].
  - unfold getSnapshot, fetchRemoteSnapshot, exec, bind, readConfig.
    unfold offline in Hoff. simpl. by rewrite Hoff.
  - unfold performBotAction. rewrite exec_bind.
    change (eval readConfig w) with (configFile w). change (exec readConfig w) with w.
    rewrite exec_bind. unfold eval, exec at 2. rewrite tryRemoteAction_offline by done.
    simpl. rewrite !exec_bind. simpl.
    apply (proj1 (localTransition_frame action w)).
  - unfold performBotAction. rewrite exec_bind.
    change (eval readConfig w) with (configFile w). change (exec readConfig w) with w.
    rewrite exec_bind. unfold eval, exec at 2. rewrite tryRemoteAction_offline by done.
    simpl. rewrite !exec_bind. simpl.
    apply (proj2 (localTransition_frame action w)).
  - assert (Hlogs : getCombinedLogs net w
                    = (eval (readLocalLogs 120) w, exec (readLocalLogs 120) w)).
    { unfold getCombinedLogs, fetchRemoteLogs, bind, readConfig, eval, exec.
      unfold offline in Hoff. rewrite Hoff. simpl.
      by destruct (readLocalLogs 120 w). }
    unfold exec, eval at 1. rewrite Hlogs. simpl.
    unfold readLocalLogs, ensureLogsFile, exec, bind. by destruct (logsFile w).
Qed.

End SnapshotFacade.

Section SnapshotFacadeExamples.
#[local] Existing Instance Example.runtime.

Lemma offline_facades_send_nothing_witness :
  offline (set_configFile blankConfig freshWorld)
  /\ requests (exec (performBotAction healthyNetwork "start")
                 (set_configFile blankConfig freshWorld)) = [].
Proof.
  assert (Hoff : offline (set_configFile blankConfig freshWorld))
    by (vm_compute; reflexivity).
  split; [exact Hoff|].
  exact (proj1 (proj2 (offline_facades_send_nothing healthyNetwork _ "start" Hoff))).
Defined.

End SnapshotFacadeExamples.


(** ** The probe throttle *)

Section ProbeThrottle.
Context `{JSRuntime}.
Variable net : Network.

Lemma shouldProbeNow_run w :
  shouldProbeNow w
  = (match lastCheck (connectionState w) with
     | Some checkedAt => (15000 <? clock w - checkedAt)%Z
     | None => true
     end, w).
Proof.
  unfold shouldProbeNow, bind, get. by destruct (lastCheck (connectionState w)).
Qed.

Lemma keeps_checked_probeLoop v api startedAt paths :
  forall latestError, keeps (checkedIs v) (probeLoop net api startedAt latestError paths).
Proof.
  induction paths as [|p rest IH]; intros latestError; simpl;
    keeps_struct ltac:(first [apply IH | keeps_frame]).
Qed.

Lemma keeps_checked_snapshotLoop v api paths :
  keeps (checkedIs v) (snapshotLoop net api paths).
Proof.
  induction paths as [|p rest IH]; simpl;
    keeps_struct ltac:(first [apply IH | keeps_frame]).
Qed.

Lemma snapshotLoop_requests api paths :
  forall w, exists k,
    (k <= length paths)%nat
    /\ requests (exec (snapshotLoop net api paths) w)
       = requests w ++ map (snapshotRequest api) (take k paths).
Proof.
  induction paths as [|p rest IH]; intros w.
  - exists 0%nat. simpl. by rewrite app_nil_r.
  - simpl. rewrite exec_bind.
    pose proof (fetchEndpoint_effect net (joinUrl api p) None 5000 w) as Hfx.
    cbv zeta in Hfx. destruct Hfx as (Hreq & _).
    set (w1 := exec (fetchEndpoint net (joinUrl api p) None 5000) w) in *.
    assert (Hrec : exists k, (k <= length (p :: rest))%nat
              /\ requests (exec (snapshotLoop net api rest) w1)
                 = requests w ++ map (snapshotRequest api) (take k (p :: rest))).
    { destruct (IH w1) as (k & Hk & ->). exists (S k). split; [simpl; lia|].
      rewrite Hreq, <- app_assoc. reflexivity. }
    destruct (negb (fr_ok _)); [exact Hrec|].
    rewrite exec_bind. change (eval get ?x) with x. change (exec get ?x) with x.
    destruct (normalizeSnapshot _ _ _) as [snap|]; [|exact Hrec].
    exists 1%nat. split; [simpl; lia|]. simpl. by rewrite Hreq.
Qed.

(** X13. [fetchRemoteSnapshot] probes the API at most once in 15
    seconds. When the last probe is 15 s old or younger it goes straight
    to the snapshot paths: [lastCheck] stays as it is and the only
    requests sent are GETs of a prefix of the five snapshot paths, in
    order. When there has been no probe yet, or the last one is older, it
    probes first and [lastCheck] becomes the current time. *)
Theorem fetchRemoteSnapshot_throttle config w :
  let api := normalizeHttpEndpoint (cfg_apiEndpoint config) in
  let w' := exec (fetchRemoteSnapshot net config) w in
  isEmpty api = false ->
  (forall checkedAt,
     lastCheck (connectionState w) = Some checkedAt ->
     (clock w - checkedAt <= 15000)%Z ->
     lastCheck (connectionState w') = Some checkedAt
     /\ exists k, (k <= 5)%nat
          /\ requests w' = requests w ++ map (snapshotRequest api) (take k snapshotPaths))
  /\ (match lastCheck (connectionState w) with
      | Some checkedAt => (15000 < clock w - checkedAt)%Z
      | None => True
      end ->
      lastCheck (connectionState w') = Some (clock w)).
Proof.
  intros api w' Hapi. subst w'. unfold fetchRemoteSnapshot. fold api. rewrite Hapi.
  match goal with
  | |- context [bind ?probing (fun _ => bind (snapshotLoop net api snapshotPaths) ?tail)] =>
      set (probe := probing); set (rest := tail)
  end.
  assert (Htail : forall v found, keeps (checkedIs v) (rest found)).
  { intros v found. subst rest. keeps_struct keeps_frame. }
  assert (Htailreq : forall found x, requests (exec (rest found) x) = requests x).
  { intros found x. subst rest. simpl. destruct found as [s|]; [done|].
    rewrite exec_bind. change (eval get ?y) with y. change (exec get ?y) with y.
    by destruct (wsConnected _ && remoteCache_hasSnapshot _). }
  rewrite (exec_bind probe), (exec_bind (snapshotLoop net api snapshotPaths)).
  split.
  - intros checkedAt Hchecked Hyoung.
    assert (Hskip : exec probe w = w).
    { subst probe. unfold exec, bind. rewrite shouldProbeNow_run, Hchecked.
      destruct (15000 <? clock w - checkedAt)%Z eqn:E; [lia|done]. }
    rewrite Hskip. split.
    + apply (Htail (Some checkedAt)), keeps_checked_snapshotLoop. exact Hchecked.
    + rewrite Htailreq. destruct (snapshotLoop_requests api snapshotPaths w) as (k & Hk & ->).
      eauto.
  - intros Hdue.
    apply (Htail (Some (clock w))), keeps_checked_snapshotLoop.
    assert (Hprobe : exec probe w = exec (probeApiConnection net config) w).
    { subst probe. unfold exec, bind. rewrite shouldProbeNow_run.
      destruct (lastCheck (connectionState w)) as [checkedAt|].
      - destruct (15000 <? clock w - checkedAt)%Z eqn:E; [|lia].
        by destruct (probeApiConnection net config w).
      - by destruct (probeApiConnection net config w). }
    rewrite Hprobe. unfold probeApiConnection. fold api. rewrite Hapi.
    rewrite !exec_bind.
    apply keeps_checked_probeLoop. reflexivity.
Qed.

End ProbeThrottle.

Section ProbeThrottleExamples.
#[local] Existing Instance Example.runtime.

Lemma fetchRemoteSnapshot_throttle_witness :
  isEmpty (normalizeHttpEndpoint (cfg_apiEndpoint defaultConfig)) = false
  /\ lastCheck (connectionState (exec (fetchRemoteSnapshot deadNetwork defaultConfig)
                                   freshWorld)) = Some 0%Z.
Proof.
  assert (Hapi : isEmpty (normalizeHttpEndpoint (cfg_apiEndpoint defaultConfig)) = false)
    by (vm_compute; reflexivity).
  split; [exact Hapi|].
  exact (proj2 (fetchRemoteSnapshot_throttle deadNetwork defaultConfig freshWorld Hapi) I).
Defined.

End ProbeThrottleExamples.

(** ** Invariants of the event loop *)

Create HintDb operations.

#[export] Hint Unfold whenReady saveConfig getSnapshot performBotAction getCombinedLogs
  ipcTestConnection getConnectionStatus runSetupChecks openExternalDocs ipcConnectWs
  disconnectWebSocket wsOnOpen wsOnMessage wsOnError wsOnCloseBegin wsOnCloseEnd
  reconnectTimerFires connectWebSocket openWebSocket handleWsPayload
  maybeScheduleReconnect tryRemoteAction fetchRemoteSnapshot fetchRemoteLogs
  readLocalLogs localTransition finishLocalAction getLocalSnapshot probeApiConnection
  shouldProbeNow : operations.

(** Proves that the operation of a turn keeps an invariant, from what
    [leaf] proves of the primitives and the loops. *)
Ltac turn_keeps leaf :=
  lazymatch goal with
  | Hw : ?Inv ?w |- ?Inv (exec ?m ?w) =>
      let Hm := fresh "Hm" in
      assert (Hm : keeps Inv m)
        by (autounfold with operations; keeps_struct leaf);
      exact (Hm w Hw)
  end.

Section LogFile.
Context `{JSRuntime}.
Variable net : Network.

Lemma append_assoc (a b c : string) : (a +++ b) +++ c = a +++ b +++ c.
Proof. induction a as [|x a IH]; simpl; [done|]. by rewrite IH. Qed.

Lemma keeps_logExtends_ensureLogsFile contents :
  keeps (logExtends contents) ensureLogsFile.
Proof.
  intros w [suffix Hs]. unfold exec, ensureLogsFile. rewrite Hs. by exists suffix.
Qed.

Lemma keeps_logExtends_appendLog contents message level :
  keeps (logExtends contents) (appendLog message level).
Proof.
  intros w [suffix Hs]. unfold exec, appendLog, ensureLogsFile, bind, modify.
  rewrite Hs. simpl. rewrite Hs. simpl.
  exists (suffix +++ formatLog (clock w) message level +++ LF).
  by rewrite append_assoc.
Qed.

Ltac log_leaf IH :=
  first [ apply keeps_logExtends_appendLog
        | apply keeps_logExtends_ensureLogsFile
        | IH
        | keeps_frame ].

Lemma keeps_logExtends_probeLoop contents api startedAt paths :
  forall latestError,
    keeps (logExtends contents) (probeLoop net api startedAt latestError paths).
Proof.
  induction paths as [|p rest IH]; intros latestError; simpl;
    keeps_struct ltac:(log_leaf ltac:(apply IH)).
Qed.

Lemma keeps_logExtends_snapshotLoop contents api paths :
  keeps (logExtends contents) (snapshotLoop net api paths).
Proof.
  induction paths as [|p rest IH]; simpl;
    keeps_struct ltac:(log_leaf ltac:(apply IH)).
Qed.

Lemma keeps_logExtends_logsLoop contents api paths :
  keeps (logExtends contents) (logsLoop net api paths).
Proof.
  induction paths as [|p rest IH]; simpl;
    keeps_struct ltac:(log_leaf ltac:(apply IH)).
Qed.

Lemma keeps_logExtends_actionLoop contents config api action paths :
  keeps (logExtends contents) (actionLoop net config api action paths).
Proof.
  induction paths as [|p rest IH]; simpl; autounfold with operations;
    keeps_struct ltac:(log_leaf ltac:(first [ apply IH
                                            | apply keeps_logExtends_probeLoop
                                            | apply keeps_logExtends_snapshotLoop ])).
Qed.

Ltac log_loops :=
  first [ apply keeps_logExtends_probeLoop
        | apply keeps_logExtends_snapshotLoop
        | apply keeps_logExtends_logsLoop
        | apply keeps_logExtends_actionLoop ].

Lemma step_logExtends contents w w' :
  step net w w' -> logExtends contents w -> logExtends contents w'.
Proof.
  intros Hstep Hw. destruct Hstep; try exact Hw;
    turn_keeps ltac:(log_leaf log_loops).
Qed.

(** X14. The process only ever appends to its log file: whatever the
    file holds stays at its head, through every sequence of turns of the
    event loop. *)
Theorem log_file_is_append_only w w' contents :
  reachable net w w' -> logsFile w = Some contents ->
  exists suffix, logsFile w' = Some (contents +++ suffix).
Proof.
  intros Hreach Hlog. change (logExtends contents w').
  induction Hreach as [|w1 w2 _ IH Hstep]; [|by eapply step_logExtends].
  exists "". rewrite Hlog. f_equal. clear.
  induction contents as [|c contents IH]; simpl; [done|]. by rewrite <- IH.
Qed.

End LogFile.

Section LogFileExamples.
#[local] Existing Instance Example.runtime.

Lemma log_file_is_append_only_witness :
  exists suffix,
    logsFile (exec (performBotAction deadNetwork "pause")
                (initialWorld 0 defaultConfig (Some "boot")))
    = Some ("boot" +++ suffix).
Proof.
  apply (log_file_is_append_only deadNetwork (initialWorld 0 defaultConfig (Some "boot"))).
  - eapply reachable_step; [apply reachable_init|].
    apply (step_performBotAction deadNetwork).
  - reflexivity.
Defined.

End LogFileExamples.

Section LogCache.
Context `{JSRuntime}.
Variable net : Network.

Lemma keeps_logCacheBounded_append lines :
  keeps logCacheBounded (appendRemoteLogs lines).
Proof.
  intros w Hw. unfold appendRemoteLogs, when.
  destruct (0 <? length lines)%nat; [|exact Hw].
  unfold logCacheBounded, exec, modify.
  change (remoteCache_logs (snd _))
    with (lastN 500 (remoteCache_logs w ++ lines)).
  apply length_lastN. lia.
Qed.

Lemma keeps_logCacheBounded_replace now payload text :
  keeps logCacheBounded (modify (set_remoteCache_logs (extractLogs now payload text))).
Proof.
  intros w _. unfold logCacheBounded, exec, modify, extractLogs.
  cbn [snd remoteCache_logs set_remoteCache_logs]. apply length_lastN. lia.
Qed.

Ltac cache_leaf IH :=
  first [ apply keeps_logCacheBounded_append
        | apply keeps_logCacheBounded_replace
        | IH
        | keeps_frame ].

Lemma keeps_logCacheBounded_probeLoop api startedAt paths :
  forall latestError,
    keeps logCacheBounded (probeLoop net api startedAt latestError paths).
Proof.
  induction paths as [|p rest IH]; intros latestError; simpl;
    keeps_struct ltac:(cache_leaf ltac:(apply IH)).
Qed.

Lemma keeps_logCacheBounded_snapshotLoop api paths :
  keeps logCacheBounded (snapshotLoop net api paths).
Proof.
  induction paths as [|p rest IH]; simpl;
    keeps_struct ltac:(cache_leaf ltac:(apply IH)).
Qed.

Lemma keeps_logCacheBounded_logsLoop api paths :
  keeps logCacheBounded (logsLoop net api paths).
Proof.
  induction paths as [|p rest IH]; simpl;
    keeps_struct ltac:(cache_leaf ltac:(apply IH)).
Qed.

Lemma keeps_logCacheBounded_actionLoop config api action paths :
  keeps logCacheBounded (actionLoop net config api action paths).
Proof.
  induction paths as [|p rest IH]; simpl; autounfold with operations;
    keeps_struct ltac:(cache_leaf ltac:(first [ apply IH
                                              | apply keeps_logCacheBounded_probeLoop
                                              | apply keeps_logCacheBounded_snapshotLoop ])).
Qed.

Ltac cache_loops :=
  first [ apply keeps_logCacheBounded_probeLoop
        | apply keeps_logCacheBounded_snapshotLoop
        | apply keeps_logCacheBounded_logsLoop
        | apply keeps_logCacheBounded_actionLoop ].

Lemma step_logCacheBounded w w' :
  step net w w' -> logCacheBounded w -> logCacheBounded w'.
Proof.
  intros Hstep Hw. destruct Hstep; try exact Hw;
    turn_keeps ltac:(cache_leaf cache_loops).
Qed.

(** X15. In every state the process can get to, the cache of remote log
    lines holds at most 500 lines, however many lines the stream and the
    API deliver. *)
Theorem remote_log_cache_bounded t0 disk logs w :
  reachable net (initialWorld t0 disk logs) w ->
  (length (remoteCache_logs w) <= 500)%nat.
Proof.
  intros Hreach. change (logCacheBounded w).
  induction Hreach as [|w1 w2 _ IH Hstep]; [|by eapply step_logCacheBounded].
  unfold logCacheBounded. simpl. lia.
Qed.

End LogCache.

Section LogCacheExamples.
#[local] Existing Instance Example.runtime.

Lemma remote_log_cache_bounded_witness :
  (length (remoteCache_logs (exec (getCombinedLogs chattyNetwork) freshWorld)) <= 500)%nat.
Proof.
  apply (remote_log_cache_bounded chattyNetwork 0 defaultConfig None).
  eapply reachable_step; [apply reachable_init|].
  apply (step_getCombinedLogs chattyNetwork).
Defined.

End LogCacheExamples.

(** ** Reconnect timers and the operator's disconnect *)

Section ManualDisconnect.
Context `{JSRuntime}.
Variable net : Network.

Lemma quietWhileManual_session w w' :
  session w' = session w -> quietWhileManual w -> quietWhileManual w'.
Proof. unfold quietWhileManual. intros [= -> -> ->]. done. Qed.

Lemma quietWhileManual_keeps {A} (m : M A) w :
  keepsSession m -> quietWhileManual w -> quietWhileManual (exec m w).
Proof. intros Hm. apply quietWhileManual_session, Hm. Qed.

Lemma quietWhileManual_connect config isReconnect w :
  quietWhileManual w -> quietWhileManual (exec (connectWebSocket config isReconnect) w).
Proof.
  intros Hq.
  pose proof (connectWebSocket_session config isReconnect w) as [Hempty Hfull].
  cbv zeta in Hempty, Hfull.
  destruct (isEmpty (toWebSocketEndpoint config)).
  - eapply quietWhileManual_session; [exact (Hempty eq_refl)|exact Hq].
  - destruct (Hfull eq_refl) as (Hflag & _). unfold quietWhileManual. congruence.
Qed.

Lemma keeps_manualIs_maybeScheduleReconnect flag config :
  keeps (manualIs flag) (maybeScheduleReconnect config).
Proof. unfold maybeScheduleReconnect. keeps_struct keeps_frame. Qed.

Lemma quietWhileManual_closeEnd w :
  quietWhileManual w -> quietWhileManual (exec wsOnCloseEnd w).
Proof.
  intros Hq. destruct (manualWsDisconnect w) eqn:Hflag.
  - destruct (wsOnCloseEnd_effect w) as [Hsame _]. cbv zeta in Hsame.
    eapply quietWhileManual_session; [exact (Hsame Hflag)|exact Hq].
  - assert (Hkeep : keeps (manualIs false) wsOnCloseEnd).
    { unfold wsOnCloseEnd.
      keeps_struct ltac:(first [apply keeps_manualIs_maybeScheduleReconnect | keeps_frame]). }
    unfold quietWhileManual. rewrite (Hkeep w Hflag). discriminate.
Qed.

Lemma step_quietWhileManual w w' :
  step net w w' -> timersTracked w -> quietWhileManual w -> quietWhileManual w'.
Proof.
  intros Hstep Htr Hq. destruct Hstep.
  - unfold whenReady.
    rewrite exec_bind. change (exec readConfig w) with w.
    rewrite exec_bind, exec_bind, exec_bind.
    set (w3 := exec (probeApiConnection net _) _).
    assert (Hq3 : quietWhileManual w3).
    { subst w3. apply quietWhileManual_keeps; [apply keepsSession_probeApiConnection|].
      apply quietWhileManual_keeps; [apply keepsSession_ensureLogsFile|].
      apply quietWhileManual_keeps; [apply keepsSession_saveConfig|]. done. }
    destruct (truthy _); [|done].
    rewrite exec_bind. change (exec (ret tt) ?x) with x.
    by apply quietWhileManual_connect.
  - by apply quietWhileManual_keeps; [apply keepsSession_saveConfig|].
  - by apply quietWhileManual_keeps; [apply keepsSession_getSnapshot|].
  - by apply quietWhileManual_keeps; [apply keepsSession_performBotAction|].
  - by apply quietWhileManual_keeps; [apply keepsSession_tryRemoteAction|].
  - by apply quietWhileManual_keeps; [apply keepsSession_localTransition|].
  - by apply quietWhileManual_keeps; [apply keepsSession_finishLocalAction|].
  - by apply quietWhileManual_keeps; [apply keepsSession_getCombinedLogs|].
  - by apply quietWhileManual_keeps; [apply keepsSession_testConnection|].
  - by apply quietWhileManual_keeps; [apply keepsSession_getConnectionStatus|].
  - by apply quietWhileManual_keeps; [apply keepsSession_runSetupChecks|].
  - by apply quietWhileManual_keeps; [apply keepsSession_openExternalDocs|].
  - unfold ipcConnectWs. rewrite exec_bind. by apply quietWhileManual_connect.
  - pose proof (disconnectWebSocket_effect w) as Hd. cbv zeta in Hd.
    destruct Hd as (_ & Hnone & _ & _ & Hnil). intros _. split; [by apply Hnil|done].
  - by apply quietWhileManual_keeps; [apply keepsSession_wsOnOpen|].
  - by apply quietWhileManual_keeps; [apply keepsSession_handleWsPayload|].
  - by apply quietWhileManual_keeps; [apply keepsSession_wsOnError|].
  - by apply quietWhileManual_keeps; [apply keepsSession_wsOnCloseBegin|].
  - by apply quietWhileManual_closeEnd.
  - unfold reconnectTimerFires. rewrite exec_bind, exec_bind.
    change (exec (ret tt) ?x) with x.
    apply quietWhileManual_connect.
    intros Hflag. destruct (Hq Hflag) as [Hnil Hnone].
    unfold exec, modify. simpl. by rewrite Hnil.
  - eapply quietWhileManual_session; [|exact Hq]. done.
  - eapply quietWhileManual_session; [|exact Hq]. done.
Qed.

Lemma reachable_quietWhileManual t0 disk logs w :
  reachable net (initialWorld t0 disk logs) w -> timersTracked w /\ quietWhileManual w.
Proof.
  intros Hreach. induction Hreach as [|w1 w2 _ [Htr Hq] Hstep].
  - split; [apply initialWorld_tracked|]. intros Hflag. discriminate.
  - split; [by eapply step_tracked|by eapply step_quietWhileManual].
Qed.

(** X16. In every state the process can get to, while the operator has
    the stream disconnected (the manual-disconnect flag is set) no
    reconnect timer is armed, and [wsReconnectTimer] holds none. *)
Theorem no_reconnect_while_disconnected t0 disk logs w :
  reachable net (initialWorld t0 disk logs) w ->
  manualWsDisconnect w = true ->
  pendingTimers w = [] /\ wsReconnectTimer w = None.
Proof.
  intros Hreach. by destruct (reachable_quietWhileManual _ _ _ _ Hreach) as [_ Hq].
Qed.

(** X17. A reconnect timer fires once: in every state the process can
    get to, when an armed reconnect timer fires its reconnect attempt
    leaves no timer armed, whether or not the attempt opens a socket. *)
Theorem reconnect_attempt_leaves_no_timer t0 disk logs w t :
  reachable net (initialWorld t0 disk logs) w ->
  t ∈ pendingTimers w ->
  pendingTimers (exec (reconnectTimerFires t) w) = [].
Proof.
  intros Hreach Ht.
  destruct (reachable_quietWhileManual _ _ _ _ Hreach) as [[Hshape _] _].
  assert (Hone : pendingTimers w = [t]).
  { destruct Hshape as [Hnil|(t' & Hone & _)].
    - rewrite Hnil in Ht. by apply elem_of_nil in Ht.
    - rewrite Hone in Ht. apply list_elem_of_singleton in Ht. by subst. }
  unfold reconnectTimerFires. rewrite exec_bind, exec_bind.
  change (exec (ret tt) ?x) with x.
  set (w1 := exec (modify _) w).
  assert (Hnil : pendingTimers w1 = []).
  { subst w1. unfold exec, modify. simpl. rewrite Hone. simpl. by rewrite Nat.eqb_refl. }
  pose proof (connectWebSocket_session (timer_config t) true w1) as [Hempty Hfull].
  cbv zeta in Hempty, Hfull.
  destruct (isEmpty (toWebSocketEndpoint (timer_config t))).
  - specialize (Hempty eq_refl). injection Hempty as _ Hp _. by rewrite Hp.
  - destruct (Hfull eq_refl) as (_ & _ & Hp & _). rewrite Hp, Hnil.
    by destruct (wsReconnectTimer w1).
Qed.

End ManualDisconnect.

Section ManualDisconnectExamples.
#[local] Existing Instance Example.runtime.

Lemma no_reconnect_while_disconnected_witness :
  manualWsDisconnect (exec disconnectWebSocket closedWorld) = true
  /\ pendingTimers closedWorld <> []
  /\ pendingTimers (exec disconnectWebSocket closedWorld) = [].
Proof.
  assert (Hflag : manualWsDisconnect (exec disconnectWebSocket closedWorld) = true)
    by (vm_compute; reflexivity).
  split; [exact Hflag|]. split; [vm_compute; discriminate|].
  refine (proj1 (no_reconnect_while_disconnected deadNetwork 0 defaultConfig None _ _ Hflag)).
  eapply reachable_step; [apply closedWorld_reachable|].
  apply step_disconnectWebSocket.
Defined.

Lemma reconnect_attempt_leaves_no_timer_witness :
  exists t, pendingTimers closedWorld = [t]
            /\ pendingTimers (exec (reconnectTimerFires t) closedWorld) = [].
Proof.
  eexists. split; [vm_compute; reflexivity|].
  apply (reconnect_attempt_leaves_no_timer deadNetwork 0 defaultConfig None).
  - apply closedWorld_reachable.
  - vm_compute. apply list_elem_of_here.
Defined.

End ManualDisconnectExamples.


(** ** The mode of the connection *)

Section HoareRules.
Context `{JSRuntime}.

Lemma hoare_bind {A B} P R Q (m : M A) (k : A -> M B) :
  hoare P m R -> (forall a, hoare R (k a) Q) -> hoare P (bind m k) Q.
Proof. intros Hm Hk w Hw. rewrite exec_bind. by apply Hk, Hm. Qed.

Lemma hoare_bind_get {B} P Q (k : World -> M B) :
  (forall w, hoare P (k w) Q) -> hoare P (bind get k) Q.
Proof. intros Hk w Hw. rewrite exec_bind. by apply Hk. Qed.

Lemma hoare_conseq {A} P P' Q Q' (m : M A) :
  hoare P' m Q' -> (forall w, P w -> P' w) -> (forall w, Q' w -> Q w) -> hoare P m Q.
Proof. intros Hm HP HQ w Hw. by apply HQ, Hm, HP. Qed.

End HoareRules.

(** A primitive, by computation: the writes to the connection state are
    carried out and the flags case-split. *)
Ltac conn_leaf :=
  idtac;
  let w := fresh "w" in
  let Hw := fresh "Hw" in
  intros w Hw;
  unfold appendLog, appendRemoteLogs, clearReconnectTimer, closeWebSocketClient,
    mergeSnapshot, when, setConn, setRuntime;
  unfold exec, fetchEndpoint, ensureLogsFile, setTimeout, modify, bind, ret, get,
    Date_now, readConfig, copyConnectionState;
  repeat match goal with
         | |- context [match logsFile ?x with _ => _ end] => destruct (logsFile x)
         | |- context [match net_result ?x with _ => _ end] => destruct (net_result x)
         | |- context [match wsReconnectTimer ?x with _ => _ end] =>
             destruct (wsReconnectTimer x)
         | |- context [if ?b then _ else _] => destruct b
         end;
  unfold onConn, unreachableYet, modeIsRemote, anyConnection, remoteWhenUp, modeFor in *;
  cbn [snd connectionState set_connectionState set_clock set_requests set_logsFile
       set_runtimeState set_remoteCache_hasSnapshot set_remoteCache_logs set_wsClient
       set_wsReconnectTimer set_manualWsDisconnect set_pendingTimers set_nextHandle
       set_configFile] in *;
  destruct (connectionState w) as [md reachable ? ? connected ? ? ? ?];
  cbn in *;
  destruct md, reachable, connected; cbn in *; intuition congruence.

(** An operation, split at its binds and branches; between the writes of
    a block the assertion is searched among the four of the vocabulary. *)
Ltac conn_hoare loops :=
  cbv beta zeta;
  lazymatch goal with
  | |- hoare _ (bind get _) _ => apply hoare_bind_get; intros ?; conn_hoare loops
  | |- hoare _ (bind _ _) _ =>
      first
        [ solve [ eapply (hoare_bind _ (onConn remoteWhenUp));
                  [conn_hoare loops|intros ?; conn_hoare loops] ]
        | solve [ eapply (hoare_bind _ (onConn unreachableYet));
                  [conn_hoare loops|intros ?; conn_hoare loops] ]
        | solve [ eapply (hoare_bind _ (onConn modeIsRemote));
                  [conn_hoare loops|intros ?; conn_hoare loops] ]
        | solve [ eapply (hoare_bind _ (onConn anyConnection));
                  [conn_hoare loops|intros ?; conn_hoare loops] ] ]
  | |- hoare _ (if ?b then _ else _) _ => destruct b eqn:?; conn_hoare loops
  | |- hoare _ (match ?x with _ => _ end) _ => destruct x eqn:?; conn_hoare loops
  | |- hoare _ _ _ =>
      first [ solve [ eapply hoare_conseq; [loops|conn_leaf_imp|conn_leaf_imp] ]
            | conn_leaf ]
  end
with conn_leaf_imp :=
  let w := fresh "w" in
  let Hw := fresh "Hw" in
  intros w Hw;
  unfold onConn, unreachableYet, modeIsRemote, anyConnection, remoteWhenUp in *;
  destruct (connectionState w) as [md reachable ? ? connected ? ? ? ?];
  cbn in *;
  destruct md, reachable, connected; cbn in *; intuition congruence.

Section ConnectionMode.
Context `{JSRuntime}.
Variable net : Network.

Lemma hoare_remoteWhenUp_probeLoop api startedAt paths :
  forall latestError,
    hoare (onConn remoteWhenUp) (probeLoop net api startedAt latestError paths)
          (onConn remoteWhenUp).
Proof.
  induction paths as [|p rest IH]; intros latestError; simpl;
    conn_hoare ltac:(apply IH).
Qed.

Lemma hoare_remoteWhenUp_snapshotLoop api paths :
  hoare (onConn remoteWhenUp) (snapshotLoop net api paths) (onConn remoteWhenUp).
Proof.
  induction paths as [|p rest IH]; simpl; conn_hoare ltac:(apply IH).
Qed.

Lemma hoare_remoteWhenUp_logsLoop api paths :
  hoare (onConn remoteWhenUp) (logsLoop net api paths) (onConn remoteWhenUp).
Proof.
  induction paths as [|p rest IH]; simpl; conn_hoare ltac:(apply IH).
Qed.

Lemma hoare_remoteWhenUp_actionLoop config api action paths :
  hoare (onConn remoteWhenUp) (actionLoop net config api action paths)
        (onConn remoteWhenUp).
Proof.
  induction paths as [|p rest IH]; simpl; autounfold with operations;
    conn_hoare ltac:(first [ apply IH
                           | apply hoare_remoteWhenUp_probeLoop
                           | apply hoare_remoteWhenUp_snapshotLoop ]).
Qed.

Ltac mode_loops :=
  first [ apply hoare_remoteWhenUp_probeLoop
        | apply hoare_remoteWhenUp_snapshotLoop
        | apply hoare_remoteWhenUp_logsLoop
        | apply hoare_remoteWhenUp_actionLoop ].

Lemma step_remoteWhenUp w w' :
  step net w w' -> onConn remoteWhenUp w -> onConn remoteWhenUp w'.
Proof.
  intros Hstep Hw. destruct Hstep; try exact Hw;
    lazymatch goal with
    | |- onConn remoteWhenUp (exec ?m ?w) =>
        let Hm := fresh "Hm" in
        assert (Hm : hoare (onConn remoteWhenUp) m (onConn remoteWhenUp))
          by (autounfold with operations; conn_hoare mode_loops);
        exact (Hm w Hw)
    end.
Qed.

(** X18. In every state the process can get to, [mode] is remote
    whenever the API is marked reachable or the stream is marked
    connected: the mode never falls back to local under a live
    connection. *)
Theorem mode_remote_while_up t0 disk logs w :
  reachable net (initialWorld t0 disk logs) w ->
  apiReachable (connectionState w) || wsConnected (connectionState w) = true ->
  mode (connectionState w) = Remote.
Proof.
  intros Hreach. change (onConn remoteWhenUp w).
  induction Hreach as [|w1 w2 _ IH Hstep]; [|by eapply step_remoteWhenUp].
  intros Hup. discriminate.
Qed.

End ConnectionMode.


Section ConnectionModeExamples.
#[local] Existing Instance Example.runtime.

Lemma mode_remote_while_up_witness :
  apiReachable (connectionState openedWorld) || wsConnected (connectionState openedWorld)
  = true
  /\ mode (connectionState openedWorld) = Remote.
Proof.
  assert (Hup : apiReachable (connectionState openedWorld)
                || wsConnected (connectionState openedWorld) = true)
    by (vm_compute; reflexivity).
  split; [exact Hup|].
  exact (mode_remote_while_up deadNetwork 0 defaultConfig None openedWorld
           openedWorld_reachable Hup).
Defined.

End ConnectionModeExamples.

(** ** Polling the connection status *)

Section ConnectionStatus.
Context `{JSRuntime}.

(** X19. [getConnectionStatus] records the normalised API endpoint of
    the configuration on disk, fills in the stream endpoint only when none
    is recorded, and touches no other field; asking again changes
    nothing. *)
Theorem getConnectionStatus_idempotent w :
  let w1 := exec getConnectionStatus w in
  let c := connectionState w in
  let c1 := connectionState w1 in
  exec getConnectionStatus w1 = w1
  /\ eval getConnectionStatus w = c1
  /\ apiEndpoint c1 = normalizeHttpEndpoint (cfg_apiEndpoint (configFile w))
  /\ wsEndpoint c1 = (if isEmpty (wsEndpoint c) then toWebSocketEndpoint (configFile w)
                      else wsEndpoint c)
  /\ w1 = set_connectionState
            (set_wsEndpoint (wsEndpoint c1) (set_apiEndpoint (apiEndpoint c1) c)) w.
Proof.
  unfold getConnectionStatus, exec, eval, bind, readConfig, setConn, modify, get, when,
    copyConnectionState, ret.
  destruct w as [rt [md ar ae al wc we lc le ler] hs logs ws tm mn pt nh lf cf ck rq].
  cbn.
  destruct (isEmpty we) eqn:Hwe; cbn.
  - destruct (isEmpty (toWebSocketEndpoint cf)) eqn:Hto; cbn; rewrite ?Hto; cbn; done.
  - rewrite Hwe. cbn. done.
Qed.

End ConnectionStatus.

(** ** Actions that the backend accepts *)

Section RemoteAction.
Context `{JSRuntime}.
Variable net : Network.

(** X20. When the first action path answers with HTTP success and a
    body that [normalizeSnapshot] accepts, [performBotAction] sends that
    one request, resolves to ok with the normalised snapshot of the
    answer, and logs the forwarding - but it stores nothing: the cached
    snapshot and the connection state stay as they were. *)
Theorem performBotAction_remote action w elapsed st text payload snap :
  let api := normalizeHttpEndpoint (cfg_apiEndpoint (configFile w)) in
  let request := actionRequest api "/action" action in
  isEmpty api = false ->
  net (length (requests w)) request
    = {| net_elapsed := elapsed; net_result := HttpResponse st text |} ->
  httpOk st = true ->
  isEmpty text = false ->
  JSON_parse text = Some payload ->
  normalizeSnapshot (runtimeState w) (clock w + Z.of_N elapsed) payload = Some snap ->
  let w' := exec (performBotAction net action) w in
  eval (performBotAction net action) w
    = {| ok := true; message := "Action '" +++ action +++ "' sent to remote backend";
         snapshot := snap |}
  /\ runtimeState w' = runtimeState w
  /\ connectionState w' = connectionState w
  /\ requests w' = requests w ++ [request]
  /\ forall old,
       logsFile w = Some old ->
       logsFile w'
       = Some (old +++ formatLog (clock w + Z.of_N elapsed)
                         ("Action '" +++ action +++ "' forwarded to remote API") "INFO"
               +++ LF).
Proof.
  intros api request Hapi Hnet Hok Htext Hparse Hsnap w'.
  assert (Hfetch : fetchEndpoint net (joinUrl api "/action")
                     (Some (JSON_stringify (JObj [("action", JStr action)]))) 5500 w
                   = ({| fr_ok := true; fr_status := st; fr_text := text;
                         fr_data := payload; fr_error := None |},
                      set_clock (clock w + Z.of_N elapsed)
                        (set_requests (requests w ++ [request]) w))).
  { unfold fetchEndpoint. fold request. unfold actionRequest in request. fold request.
    rewrite Hnet. simpl. by rewrite Hok, Htext, Hparse. }
  assert (Hrun : performBotAction net action w
                 = ({| ok := true;
                       message := "Action '" +++ action +++ "' sent to remote backend";
                       snapshot := snap |},
                    exec (appendLog ("Action '" +++ action +++ "' forwarded to remote API")
                            "INFO")
                      (set_clock (clock w + Z.of_N elapsed)
                         (set_requests (requests w ++ [request]) w)))).
  { unfold performBotAction, tryRemoteAction, bind at 1, readConfig. fold api.
    rewrite Hapi. unfold bind at 1. unfold actionPaths, actionLoop, bind at 1.
    rewrite Hfetch. cbn [fr_ok negb fr_data]. unfold bind at 1, get.
    cbn [runtimeState clock set_clock set_requests]. rewrite Hsnap.
    unfold bind, ret, exec. by destruct (appendLog _ _ _). }
  set (w1 := set_clock (clock w + Z.of_N elapsed)
               (set_requests (requests w ++ [request]) w)) in *.
  assert (Heval : eval (performBotAction net action) w
                  = {| ok := true;
                       message := "Action '" +++ action +++ "' sent to remote backend";
                       snapshot := snap |})
    by (unfold eval; by rewrite Hrun).
  assert (Hexec : w' = exec (appendLog ("Action '" +++ action
                                        +++ "' forwarded to remote API") "INFO") w1)
    by (subst w'; unfold exec at 1; by rewrite Hrun).
  split; [exact Heval|]. rewrite Hexec.
  destruct (appendLog_exec ("Action '" +++ action +++ "' forwarded to remote API") "INFO" w1)
    as [contents Hlog].
  split; [by rewrite Hlog|]. split; [by rewrite Hlog|]. split; [by rewrite Hlog|].
  clear. subst w1 request api. intros old Hold.
  destruct w as [? ? ? ? ? ? ? ? ? logs ? ? ?]. simpl in Hold. subst logs. reflexivity.
Qed.

End RemoteAction.

Section RemoteActionExamples.
#[local] Existing Instance runtimeWithReply.

Lemma performBotAction_remote_witness :
  status (snapshot (eval (performBotAction obligingNetwork "start") freshWorld)) = Running
  /\ status (runtimeState (exec (performBotAction obligingNetwork "start") freshWorld))
     = Idle.
Proof.
  pose proof (performBotAction_remote obligingNetwork "start" freshWorld 20 200
                actionReplyText actionReply
                {| status := Running; queueDepth := 18; jobsProcessed := 1284;
                   successRate := 94.3; activeWorkers := 4;
                   lastHeartbeat := "1970-01-01T00:00:00.020Z" |}
                eq_refl eq_refl eq_refl eq_refl eq_refl eq_refl) as (Hresult & Hstate & _).
  split.
  - exact (f_equal (fun r => status (snapshot r)) Hresult).
  - exact (f_equal status Hstate).
Defined.

End RemoteActionExamples.


(** ** Reading back what was logged *)

Section LogRoundTrip.
Context `{JSRuntime}.

Lemma splitNewlineFrom_append a b :
  forall acc,
    splitNewlineFrom acc (a +++ LF +++ b) = splitNewlineFrom acc a ++ splitNewlineFrom [] b.
Proof.
  induction a as [|c a IH]; intros acc; [reflexivity|].
  simpl. destruct (isLF c); simpl; by rewrite IH.
Qed.

Lemma splitNewlineFrom_line line :
  noLineFeed line ->
  forall acc,
    splitNewlineFrom acc line
    = [string_of_list_ascii (rev acc ++ list_ascii_of_string line)].
Proof.
  unfold noLineFeed. induction line as [|c line IH]; intros Hline acc; simpl.
  - by rewrite app_nil_r.
  - inversion Hline as [|? ? Hc Hrest]; subst. rewrite Hc, IH by done.
    simpl. by rewrite <- app_assoc.
Qed.

(** The lines of a file that ends with a newline, after one more line
    is written to it. *)
Lemma lines_after_append head line :
  noLineFeed line -> isEmpty line = false ->
  List.filter (fun l => negb (isEmpty l)) (splitNewline ((head +++ LF) +++ line +++ LF))
  = List.filter (fun l => negb (isEmpty l)) (splitNewline head) ++ [line].
Proof.
  intros Hline Hne. unfold splitNewline.
  rewrite append_assoc, splitNewlineFrom_append.
  change (line +++ LF) with (line +++ LF +++ "").
  rewrite splitNewlineFrom_append, (splitNewlineFrom_line line Hline []).
  cbn [rev app]. rewrite string_of_list_ascii_of_string.
  rewrite List.filter_app. cbn [List.filter splitNewlineFrom isEmpty negb app].
  by rewrite Hne.
Qed.

Lemma last_lastN {A} n (xs : list A) x :
  (0 < n)%nat -> last (lastN n (xs ++ [x])) = Some x.
Proof.
  intros Hn. unfold lastN. destruct n as [|n]; [lia|].
  rewrite length_app. simpl.
  rewrite drop_app_le by lia. by rewrite last_snoc.
Qed.

Lemma readLocalLogs_eval limit w contents :
  logsFile w = Some contents ->
  eval (readLocalLogs limit) w
  = lastN limit (List.filter (fun l => negb (isEmpty l)) (splitNewline contents)).
Proof.
  intros Hfile. unfold eval, readLocalLogs, ensureLogsFile, bind, get, ret.
  by rewrite Hfile; cbn [fst snd]; rewrite Hfile.
Qed.

Lemma formatLog_not_empty now message level : isEmpty (formatLog now message level) = false.
Proof. reflexivity. Qed.

(** X21. A line that [appendLog] writes is the last line that
    [readLocalLogs] reads back, for any positive limit, provided nothing
    in the formatted line is a line feed and the log file, if there is
    one, ends with a newline. (A file without a final newline would have
    the line glued to its last one.) *)
Theorem appendLog_then_readLocalLogs message level limit w :
  (0 < limit)%nat ->
  noLineFeed (formatLog (clock w) message level) ->
  endsWithNewline w ->
  last (eval (readLocalLogs limit) (exec (appendLog message level) w))
  = Some (formatLog (clock w) message level).
Proof.
  intros Hlimit Hline Hfile.
  assert (Hwritten : exists head,
            exec (appendLog message level) w
            = set_logsFile (Some ((head +++ LF) +++ formatLog (clock w) message level +++ LF))
                w).
  { unfold endsWithNewline in Hfile. unfold exec, appendLog, ensureLogsFile, bind, modify.
    destruct w as [? ? ? ? ? ? ? ? ? [old|] ? now ?]; cbn [logsFile clock] in *.
    - destruct Hfile as [head ->]. by exists head.
    - by exists (joinWith LF (map (fun line => formatLog now line "INFO") botLogSeed)). }
  destruct Hwritten as [head ->].
  rewrite (readLocalLogs_eval limit (set_logsFile _ w)
             ((head +++ LF) +++ formatLog (clock w) message level +++ LF) eq_refl).
  rewrite lines_after_append by (done || apply formatLog_not_empty).
  by apply last_lastN.
Qed.

End LogRoundTrip.

Section LogRoundTripExamples.
#[local] Existing Instance Example.runtime.

Lemma appendLog_then_readLocalLogs_witness :
  last (eval (readLocalLogs 120) (exec (appendLog "Bot resumed" "INFO") freshWorld))
  = Some "[1970-01-01T00:00:00.000Z] [INFO] Bot resumed".
Proof.
  refine (eq_trans (appendLog_then_readLocalLogs "Bot resumed" "INFO" 120 freshWorld
                      _ _ _) _).
  - apply Nat.lt_0_succ.
  - vm_compute. repeat constructor.
  - exact I.
  - vm_compute. reflexivity.
Defined.

End LogRoundTripExamples.


(** ** Actions that no path accepts *)

Section RemoteActionExhausted.
Context `{JSRuntime}.
Variable net : Network.

Lemma actionLoop_exhausts config api action paths :
  forall w,
    eval (actionLoop net config api action paths) w = None ->
    requests (exec (actionLoop net config api action paths) w)
    = requests w ++ map (fun path => actionRequest api path action) paths
    /\ connectionState (exec (actionLoop net config api action paths) w)
       = connectionState w.
Proof.
  induction paths as [|p rest IH]; intros w.
  - intros _. simpl. by rewrite app_nil_r.
  - simpl. rewrite eval_bind, exec_bind.
    set (body := Some (JSON_stringify (JObj [("action", JStr action)]))).
    pose proof (fetchEndpoint_effect net (joinUrl api p) body 5500 w) as Hfx.
    cbv zeta in Hfx. destruct Hfx as (Hreq & _ & Hconn & _).
    destruct (negb (fr_ok (eval (fetchEndpoint net (joinUrl api p) body 5500) w))).
    + intros Hnone. destruct (IH _ Hnone) as [-> ->].
      rewrite Hreq, Hconn, <- app_assoc. done.
    + repeat (rewrite eval_bind; simpl). discriminate.
Qed.

(** X22. When no action path answers with HTTP success,
    [tryRemoteAction] has sent exactly four POSTs, to /action,
    /api/action, /control/action and /api/control/action in this order,
    each carrying the JSON text of [{action}] and a timeout of 5.5 s, and
    it has changed neither the cached snapshot nor the connection
    state. *)
Theorem tryRemoteAction_exhausts config action w :
  let api := normalizeHttpEndpoint (cfg_apiEndpoint config) in
  let w' := exec (tryRemoteAction net config action) w in
  isEmpty api = false ->
  eval (tryRemoteAction net config action) w = None ->
  requests w'
  = requests w
    ++ [ actionRequest api "/action" action; actionRequest api "/api/action" action;
         actionRequest api "/control/action" action;
         actionRequest api "/api/control/action" action ]
  /\ runtimeState w' = runtimeState w
  /\ connectionState w' = connectionState w.
Proof.
  intros api w' Hapi Hnone. subst w'.
  split; [|split; [by apply tryRemoteAction_None|]];
    revert Hnone; unfold tryRemoteAction; fold api; rewrite Hapi; intros Hnone;
    by destruct (actionLoop_exhausts config api action actionPaths w Hnone).
Qed.

End RemoteActionExhausted.

Section RemoteActionExhaustedExamples.
#[local] Existing Instance Example.runtime.

Lemma tryRemoteAction_exhausts_witness :
  length (requests (exec (tryRemoteAction deadNetwork defaultConfig "sync") freshWorld))
  = 4%nat.
Proof.
  exact (f_equal (@length Request)
           (proj1 (tryRemoteAction_exhausts deadNetwork defaultConfig "sync" freshWorld
                     eq_refl eq_refl))).
Defined.

End RemoteActionExhaustedExamples.

(** ** Stream messages that carry nothing *)

Section ScalarMessages.
Context `{JSRuntime}.

(** X23. A stream message whose JSON value is null, a boolean or a
    number marks the connection as alive (lastEventAt, apiReachable, mode
    remote, no lastError) and changes nothing else: neither the cached
    snapshot nor the log cache. *)
Theorem handleWsPayload_scalar raw parsed w :
  JSON_parse raw = Some parsed -> isScalar parsed = true ->
  exec (handleWsPayload raw) w
  = set_connectionState
      (set_lastError None
         (set_mode Remote
            (set_apiReachable true
               (set_lastEventAt (Some (clock w)) (connectionState w))))) w.
Proof.
  intros Hparse Hscalar.
  assert (Hsnap : forall cached now, normalizeSnapshot cached now parsed = None).
  { intros cached now. unfold normalizeSnapshot.
    destruct parsed; try discriminate; cbn [typeofObject truthy negb orb];
      by rewrite ?orb_true_r. }
  assert (Hlogs : forall now, extractLogs now parsed "" = []).
  { intros now. by destruct parsed. }
  assert (Hrun : exec (handleWsPayload raw) w
                 = exec (let* w0 := get in
                         match normalizeSnapshot (runtimeState w0) (clock w) parsed with
                         | Some snapshot => mergeSnapshot snapshot ;; ret tt
                         | None => ret tt
                         end ;;
                         appendRemoteLogs (extractLogs (clock w) parsed ""))
                     (set_connectionState
                        (set_lastError None
                           (set_mode Remote
                              (set_apiReachable true
                                 (set_lastEventAt (Some (clock w)) (connectionState w)))))
                        w)).
  { unfold handleWsPayload. rewrite Hparse. by destruct parsed. }
  rewrite Hrun, Hlogs. rewrite exec_bind.
  change (eval get ?x) with x. change (exec get ?x) with x.
  by rewrite Hsnap.
Qed.

End ScalarMessages.

Section ScalarMessageExamples.
#[local] Existing Instance Example.runtime.

Lemma handleWsPayload_scalar_witness :
  remoteCache_logs (exec (handleWsPayload "true") openedWorld) = []
  /\ runtimeState (exec (handleWsPayload "true") openedWorld) = runtimeState openedWorld.
Proof.
  assert (Hparse : JSON_parse "true" = Some (JBool true)) by (vm_compute; reflexivity).
  rewrite (handleWsPayload_scalar "true" (JBool true) openedWorld Hparse eq_refl).
  split; reflexivity.
Defined.

End ScalarMessageExamples.

(** ** Start-up and shut-down *)

Section StartUp.
Context `{JSRuntime}.
Variable net : Network.
Variable machine : Machine.

Lemma keeps_startedUp_probeLoop saved startedAt api started paths :
  forall latestError,
    keeps (startedUp saved startedAt) (probeLoop net api started latestError paths).
Proof.
  induction paths as [|p rest IH]; intros latestError; simpl;
    keeps_struct ltac:(first [apply IH | keeps_frame]).
Qed.

(** X24. When the start-up sequence has run, the configuration on disk
    is the normalised one that [saveConfig] returns, the log file exists,
    the API has been probed ([lastCheck] is set, to the time at which the
    probe began), and the connection state records the normalised API
    endpoint and the stream endpoint of that configuration. *)
Theorem whenReady_startup w :
  let saved := eval (saveConfig (configFile w)) w in
  let w' := exec (whenReady net) w in
  configFile w' = saved
  /\ logsFile w' <> None
  /\ lastCheck (connectionState w') = Some (clock w)
  /\ apiEndpoint (connectionState w') = normalizeHttpEndpoint (cfg_apiEndpoint saved)
  /\ wsEndpoint (connectionState w') = toWebSocketEndpoint saved.
Proof.
  intros saved w'. change (startedUp saved (clock w) w'). subst w'.
  unfold whenReady. rewrite exec_bind.
  change (eval readConfig w) with (configFile w). change (exec readConfig w) with w.
  rewrite exec_bind. fold saved. rewrite exec_bind, exec_bind.
  set (w2 := exec ensureLogsFile (exec (saveConfig (configFile w)) w)).
  assert (Hw2 : configFile w2 = saved /\ logsFile w2 <> None /\ clock w2 = clock w
                /\ wsEndpoint (connectionState w2) = toWebSocketEndpoint saved).
  { subst w2. rewrite saveConfig_exec. cbv zeta. fold saved.
    unfold exec, ensureLogsFile. cbn [logsFile set_connectionState set_configFile].
    destruct (logsFile w) eqn:E; cbn [snd]; repeat split; try done; cbn; congruence. }
  destruct Hw2 as (Hcfg & Hlogs & Hclock & Hws).
  set (connect := if truthy (cfg_autoReconnect saved)
                  then connectWebSocket saved false ;; ret tt else ret tt).
  assert (Hconnect : keeps (startedUp saved (clock w)) connect).
  { subst connect. unfold connectWebSocket, openWebSocket.
    keeps_struct ltac:(first
      [ keeps_frame
      | intros ? (? & ? & ? & ? & ?); unfold startedUp, exec, setConn, modify;
        repeat split; first [assumption|reflexivity] ]). }
  apply Hconnect.
  unfold probeApiConnection. rewrite exec_bind, exec_bind.
  set (w3 := exec (bind Date_now _) _).
  assert (Hw3 : startedUp saved (clock w) w3).
  { subst w3. unfold startedUp, exec, bind, Date_now, setConn, modify. simpl.
    rewrite Hclock. done. }
  revert Hw3. generalize w3.
  change (keeps (startedUp saved (clock w))
            (if isEmpty (normalizeHttpEndpoint (cfg_apiEndpoint saved))
             then setConn (set_apiReachable false) ;;
                  setConn (set_apiLatencyMs None) ;;
                  setConn (fun c => set_mode (modeFor c) c) ;;
                  setConn (set_lastError (Some "API endpoint is not configured")) ;;
                  copyConnectionState
             else let* startedAt := Date_now in
                  probeLoop net (normalizeHttpEndpoint (cfg_apiEndpoint saved)) startedAt
                    "API endpoint did not respond" healthPaths)).
  keeps_struct ltac:(first [apply keeps_startedUp_probeLoop | keeps_frame]).
Qed.

(** X25. When the last window is closed the stream is torn down for
    good: in every state the process can get to, the handler leaves no
    socket, no armed reconnect timer and the manual-disconnect flag set,
    so that nothing reconnects; the application then quits, except on
    macOS. *)
Theorem windowAllClosed_tears_down t0 disk logs w :
  reachable net (initialWorld t0 disk logs) w ->
  let w' := exec (windowAllClosed machine) w in
  wsClient w' = None
  /\ pendingTimers w' = []
  /\ wsReconnectTimer w' = None
  /\ manualWsDisconnect w' = true
  /\ wsConnected (connectionState w') = false
  /\ eval (windowAllClosed machine) w = negb (String.eqb (platform machine) "darwin").
Proof.
  intros Hreach w'.
  assert (Htr : timersTracked w).
  { eapply reachable_tracked; [apply initialWorld_tracked|exact Hreach]. }
  assert (Hw' : w' = exec disconnectWebSocket w).
  { subst w'. unfold windowAllClosed. by rewrite exec_bind. }
  pose proof (disconnectWebSocket_effect w) as Hd. cbv zeta in Hd.
  destruct Hd as (Hflag & Hnone & Hclient & Hconn & Hnil).
  rewrite Hw'. repeat split; auto.
  unfold windowAllClosed. by rewrite eval_bind.
Qed.

End StartUp.

Section StartUpExamples.
#[local] Existing Instance Example.runtime.

Lemma windowAllClosed_tears_down_witness :
  pendingTimers closedWorld <> []
  /\ pendingTimers
       (exec (windowAllClosed {| execFile := fun _ _ =>
                                   {| exec_error := None; exec_stdout := "";
                                      exec_stderr := "" |};
                                 platform := "linux";
                                 accessible := fun _ => true |}) closedWorld) = [].
Proof.
  split; [vm_compute; discriminate|].
  exact (proj1 (proj2 (windowAllClosed_tears_down deadNetwork _ 0 defaultConfig None
                         closedWorld closedWorld_reachable))).
Defined.

End StartUpExamples.

(** ** Bounds of the local transitions *)

Section LocalBounds.
Context `{JSRuntime}.
Variable net : Network.
#[local] Open Scope float_scope.

Lemma Math_min_le_l a b :
  is_nan a = false -> is_nan b = false -> (Math_min a b <=? a) = true.
Proof.
  intros Ha Hb. destruct (Math_min_cases a b Ha Hb) as [[-> _]|[-> Hle]];
    [by apply leb_refl|done].
Qed.

Lemma Math_max_ge_l a b :
  is_nan a = false -> is_nan b = false -> (a <=? Math_max a b) = true.
Proof.
  intros Ha Hb. destruct (Math_max_cases a b Ha Hb) as [[-> _]|[-> Hle]];
    [by apply leb_refl|done].
Qed.

(** X26. In every state the process can get to, the [switch] of
    [performBotAction] leaves the counters it writes within the bounds
    that its arithmetic names: when the case for start has run, at most 8
    workers are active, and when the case for sync has run, the queue
    depth is not negative and the success rate is at most 99.9. This is
    the state right after the [switch]; a snapshot that is merged later,
    while the log line is written, is bound by the ranges of
    [normalizeSnapshot] only. *)
Theorem local_transition_bounds t0 disk logs w :
  reachable net (initialWorld t0 disk logs) w ->
  let started := runtimeState (exec (localTransition "start") w) in
  let synced := runtimeState (exec (localTransition "sync") w) in
  (activeWorkers started <=? 8) = true
  /\ (0 <=? queueDepth synced) = true
  /\ (successRate synced <=? 99.9) = true.
Proof.
  intros Hreach started synced. subst started synced.
  destruct (reachable_numeric net t0 disk logs w Hreach) as (Hq & _ & Hs & Ha).
  destruct (localTransition_runtime "start" w) as (_ & Hstart & _).
  destruct (Hstart eq_refl) as (_ & -> & _).
  destruct (localTransition_runtime "sync" w) as (_ & _ & _ & _ & _ & Hsync & _).
  destruct (Hsync eq_refl) as (_ & _ & -> & _ & ->).
  split; [|split].
  - apply Math_min_le_l; [reflexivity|]. apply add_not_nan; [done|]. vm_compute. exact I.
  - apply Math_max_ge_l; [reflexivity|]. apply sub_not_nan; [done|]. vm_compute. exact I.
  - apply Math_min_le_l; [reflexivity|]. apply add_not_nan; [done|]. vm_compute. exact I.
Qed.

End LocalBounds.

Section LocalBoundsExamples.
#[local] Existing Instance Example.runtime.
#[local] Open Scope float_scope.

(** The process starts with 4 active workers: the [switch] makes them 5,
    which is within the bound. *)
Lemma local_transition_bounds_witness :
  reachable deadNetwork (initialWorld 0 defaultConfig None) freshWorld
  /\ (activeWorkers (runtimeState (exec (localTransition "start") freshWorld)) <=? 8)
     = true.
Proof.
  split; [apply reachable_init|].
  exact (proj1 (local_transition_bounds deadNetwork 0 defaultConfig None freshWorld
                  (reachable_init deadNetwork _))).
Defined.

End LocalBoundsExamples.

(** ** A socket that cannot be constructed *)

Section BrokenSocket.
Context `{JSRuntime}.

(** X27. When the stream endpoint is not empty but the [WebSocket]
    constructor throws, [connectWebSocket] resolves at once with the
    connection state it leaves: no socket, not connected, lastError the
    message of the error thrown (or "Failed to create websocket client").
    The pending reconnect timer has been cancelled and none is armed, so
    this attempt is not retried. *)
Theorem connectWebSocket_constructor_throws config isReconnect w e :
  let endpoint := toWebSocketEndpoint config in
  let w' := exec (connectWebSocket config isReconnect) w in
  isEmpty endpoint = false ->
  WebSocket_throws endpoint = Some e ->
  eval (connectWebSocket config isReconnect) w = Some (connectionState w')
  /\ wsClient w' = None
  /\ connectionState w'
     = set_lastError (Some (default "Failed to create websocket client" e))
         (set_wsConnected false (set_wsEndpoint endpoint (connectionState w)))
  /\ manualWsDisconnect w' = false
  /\ wsReconnectTimer w' = None
  /\ (timersTracked w -> pendingTimers w' = []).
Proof.
  intros endpoint w' Hne Hthrows.
  pose proof (connectWebSocket_session config isReconnect w) as [_ Hfull].
  cbv zeta in Hfull. fold endpoint in Hfull.
  destruct (Hfull Hne) as (Hflag & Htimer & _ & Hnil). fold w' in Hflag, Htimer, Hnil.
  assert (Hrun : connectWebSocket config isReconnect w
                 = (Some (set_lastError (Some (default "Failed to create websocket client" e))
                            (set_wsConnected false
                               (set_wsEndpoint endpoint (connectionState w)))),
                    set_connectionState
                      (set_lastError (Some (default "Failed to create websocket client" e))
                         (set_wsConnected false
                            (set_wsEndpoint endpoint (connectionState w))))
                      (set_wsClient None
                         (exec clearReconnectTimer (set_manualWsDisconnect false w))))).
  { unfold connectWebSocket. fold endpoint. rewrite Hne.
    unfold openWebSocket. rewrite Hthrows.
    unfold bind, setConn, closeWebSocketClient, copyConnectionState, ret, exec,
      clearReconnectTimer, modify.
    clear. destruct w as [? ? ? ? ? [h|] ? ? ? ? ? ? ?]; by destruct e. }
  assert (Hexec : w' = snd (connectWebSocket config isReconnect w)) by reflexivity.
  assert (Heval : eval (connectWebSocket config isReconnect) w
                  = fst (connectWebSocket config isReconnect w)) by reflexivity.
  rewrite Hrun in Hexec, Heval. cbn [fst snd] in Hexec, Heval.
  split; [by rewrite Heval, Hexec|]. split; [by rewrite Hexec|].
  split; [by rewrite Hexec|]. done.
Qed.

End BrokenSocket.

Section BrokenSocketExamples.
#[local] Existing Instance runtimeWithBrokenSocket.

Lemma connectWebSocket_constructor_throws_witness :
  lastError (connectionState (exec (connectWebSocket defaultConfig false) freshWorld))
  = Some "Invalid URL"
  /\ wsClient (exec (connectWebSocket defaultConfig false) freshWorld) = None.
Proof.
  pose proof (connectWebSocket_constructor_throws defaultConfig false freshWorld
                (Some "Invalid URL") eq_refl eq_refl) as (_ & Hclient & Hconn & _).
  split; [|exact Hclient].
  exact (f_equal lastError Hconn).
Defined.

End BrokenSocketExamples.


(** ** Logs when the backend is down *)

Section RemoteLogsDown.
Context `{JSRuntime}.
Variable net : Network.

Lemma fetchEndpoint_ok url body timeoutMs w :
  fr_ok (eval (fetchEndpoint net url body timeoutMs) w)
  = replyOk (net (length (requests w))
               {| req_url := url; req_body := body; req_timeoutMs := timeoutMs |}).
Proof.
  unfold eval, fetchEndpoint, replyOk. by destruct (net_result _).
Qed.

Lemma fetchEndpoint_cache url body timeoutMs w :
  remoteCache_logs (exec (fetchEndpoint net url body timeoutMs) w) = remoteCache_logs w.
Proof. unfold exec, fetchEndpoint. by destruct (net_result _). Qed.

Lemma logsLoop_down api paths :
  forall w,
    (forall k path, paths !! k = Some path ->
       replyOk (net (length (requests w) + k) (logsRequest api path)) = false) ->
    eval (logsLoop net api paths) w = lastN 250 (remoteCache_logs w)
    /\ remoteCache_logs (exec (logsLoop net api paths) w) = remoteCache_logs w
    /\ connectionState (exec (logsLoop net api paths) w) = connectionState w
    /\ requests (exec (logsLoop net api paths) w)
       = requests w ++ map (logsRequest api) paths.
Proof.
  induction paths as [|p rest IH]; intros w Hdown.
  - simpl. by rewrite app_nil_r.
  - simpl. rewrite eval_bind, exec_bind.
    pose proof (fetchEndpoint_effect net (joinUrl api p) None 5000 w) as Hfx.
    cbv zeta in Hfx. destruct Hfx as (Hreq & _ & Hconn & _).
    rewrite fetchEndpoint_ok.
    pose proof (Hdown 0%nat p eq_refl) as Hfirst. rewrite Nat.add_0_r in Hfirst.
    unfold logsRequest in Hfirst. rewrite Hfirst. cbn [negb].
    set (w1 := exec (fetchEndpoint net (joinUrl api p) None 5000) w) in *.
    destruct (IH w1) as (-> & -> & -> & ->).
    { intros k path Hk. rewrite Hreq, length_app. simpl.
      replace (length (requests w) + 1 + k)%nat with (length (requests w) + S k)%nat by lia.
      by apply Hdown. }
    subst w1. rewrite fetchEndpoint_cache, Hconn, Hreq, <- app_assoc. done.
Qed.

(** X28. When none of the four logs paths answers with HTTP success,
    [fetchRemoteLogs] falls back on what it has: after four GETs, to
    /logs, /api/logs, /runtime/logs and /api/runtime/logs in this order,
    it returns the last 250 lines of the log cache and leaves the cache
    and the connection state as they were. *)
Theorem fetchRemoteLogs_backend_down config w :
  let api := normalizeHttpEndpoint (cfg_apiEndpoint config) in
  let w' := exec (fetchRemoteLogs net config) w in
  isEmpty api = false ->
  (forall k path, logsPaths !! k = Some path ->
     replyOk (net (length (requests w) + k) (logsRequest api path)) = false) ->
  eval (fetchRemoteLogs net config) w = lastN 250 (remoteCache_logs w)
  /\ remoteCache_logs w' = remoteCache_logs w
  /\ connectionState w' = connectionState w
  /\ requests w'
     = requests w ++ [ logsRequest api "/logs"; logsRequest api "/api/logs";
                       logsRequest api "/runtime/logs";
                       logsRequest api "/api/runtime/logs" ].
Proof.
  intros api w' Hapi Hdown. subst w'. unfold fetchRemoteLogs. fold api. rewrite Hapi.
  by apply logsLoop_down.
Qed.

End RemoteLogsDown.

Section RemoteLogsDownExamples.
#[local] Existing Instance Example.runtime.

Lemma fetchRemoteLogs_backend_down_witness :
  eval (fetchRemoteLogs deadNetwork defaultConfig) openedWorld = []
  /\ length (requests (exec (fetchRemoteLogs deadNetwork defaultConfig) openedWorld))
     = 4%nat.
Proof.
  pose proof (fetchRemoteLogs_backend_down deadNetwork defaultConfig openedWorld
                eq_refl (fun _ _ _ => eq_refl)) as (Hlines & _ & _ & Hrequests).
  split; [exact Hlines|].
  exact (f_equal (@length Request) Hrequests).
Defined.

End RemoteLogsDownExamples.

(** ** The reconnect that a close schedules *)

Section CloseSchedules.
Context `{JSRuntime}.
Variable net : Network.

(** X29. In every state the process can get to in which the operator
    has not disconnected the stream, the close listener, once it has read
    the configuration, arms exactly one reconnect timer when that
    configuration enables autoReconnect: the timer carries the
    configuration just read and the delay computed from its polling
    interval, and [wsReconnectTimer] holds its handle. When autoReconnect
    is off it arms none and leaves the timers as they were. *)
Theorem close_schedules_reconnect t0 disk logs w :
  reachable net (initialWorld t0 disk logs) w ->
  manualWsDisconnect w = false ->
  let config := configFile w in
  let w' := exec wsOnCloseEnd w in
  (truthy (cfg_autoReconnect config) = true ->
     exists handle,
       pendingTimers w'
       = [{| timer_handle := handle; timer_delayMs := reconnectDelayMs config;
             timer_config := config |}]
       /\ wsReconnectTimer w' = Some handle)
  /\ (truthy (cfg_autoReconnect config) = false -> session w' = session w).
Proof.
  intros Hreach Hflag config w'.
  assert (Htr : timersTracked w).
  { eapply reachable_tracked; [apply initialWorld_tracked|exact Hreach]. }
  assert (Hrun : w' = exec (maybeScheduleReconnect config) w).
  { subst w'. unfold wsOnCloseEnd. rewrite exec_bind.
    change (eval readConfig w) with config. change (exec readConfig w) with w.
    rewrite exec_bind. change (eval get w) with w. change (exec get w) with w.
    rewrite exec_bind, Hflag. reflexivity. }
  rewrite Hrun. unfold maybeScheduleReconnect. rewrite exec_bind.
  change (eval get w) with w. change (exec get w) with w. rewrite Hflag, orb_false_r.
  split; intros Hauto; rewrite Hauto; cbn [negb]; [|reflexivity].
  rewrite exec_bind.
  pose proof (clearReconnectTimer_effect w) as Hclear. cbv zeta in Hclear.
  destruct Hclear as (_ & _ & _ & Hnil). specialize (Hnil Htr).
  set (w1 := exec clearReconnectTimer w) in *.
  exists (nextHandle w1). unfold exec, bind, setTimeout, modify. simpl.
  by rewrite Hnil.
Qed.

End CloseSchedules.

Section CloseSchedulesExamples.
#[local] Existing Instance Example.runtime.

Lemma close_schedules_reconnect_witness :
  exists handle,
    wsReconnectTimer
      (exec wsOnCloseEnd (exec (wsOnCloseBegin streamSocket) openedWorld))
    = Some handle.
Proof.
  assert (Hreach : reachable deadNetwork (initialWorld 0 defaultConfig None)
                     (exec (wsOnCloseBegin streamSocket) openedWorld)).
  { eapply reachable_step; [apply openedWorld_reachable|].
    apply step_closeBegin with (c := streamSocket). vm_compute. reflexivity. }
  destruct (proj1 (close_schedules_reconnect deadNetwork 0 defaultConfig None _
                     Hreach eq_refl) eq_refl) as (handle & _ & Htimer).
  by exists handle.
Defined.

End CloseSchedulesExamples.


(** ** A socket that is constructed *)

Section SocketConstructed.
Context `{JSRuntime}.

(** X30. When the stream endpoint is not empty and the [WebSocket]
    constructor succeeds, [connectWebSocket] replaces whatever socket there
    was by a new one for that endpoint and returns with its promise still
    pending. It records the endpoint, clears the manual-disconnect flag and
    cancels the pending reconnect timer; the rest of the connection state,
    [wsConnected] included, waits for the events of the new socket. *)
Theorem connectWebSocket_opens_socket config isReconnect w :
  let endpoint := toWebSocketEndpoint config in
  let w' := exec (connectWebSocket config isReconnect) w in
  isEmpty endpoint = false ->
  WebSocket_throws endpoint = None ->
  eval (connectWebSocket config isReconnect) w = None
  /\ (exists socket, wsClient w' = Some socket /\ ws_endpoint socket = endpoint)
  /\ connectionState w' = set_wsEndpoint endpoint (connectionState w)
  /\ manualWsDisconnect w' = false
  /\ wsReconnectTimer w' = None
  /\ (timersTracked w -> pendingTimers w' = []).
Proof.
  intros endpoint w' Hne Hopens.
  pose proof (connectWebSocket_session config isReconnect w) as [_ Hfull].
  cbv zeta in Hfull. fold endpoint in Hfull.
  destruct (Hfull Hne) as (Hflag & Htimer & _ & Hnil). fold w' in Hflag, Htimer, Hnil.
  assert (Hrun : exists id,
            connectWebSocket config isReconnect w
            = (None,
               set_wsClient (Some {| ws_id := id; ws_endpoint := endpoint |})
                 (set_nextHandle (S id)
                    (exec clearReconnectTimer
                       (set_manualWsDisconnect false
                          (set_connectionState
                             (set_wsEndpoint endpoint (connectionState w)) w)))))).
  { exists (nextHandle w). unfold connectWebSocket. fold endpoint. rewrite Hne.
    unfold openWebSocket. rewrite Hopens.
    unfold bind, setConn, closeWebSocketClient, copyConnectionState, ret, exec,
      clearReconnectTimer, modify.
    clear. by destruct w as [? ? ? ? ? [h|] ? ? ? ? ? ? ?]. }
  destruct Hrun as [id Hrun].
  assert (Hexec : w' = snd (connectWebSocket config isReconnect w)) by reflexivity.
  assert (Heval : eval (connectWebSocket config isReconnect) w
                  = fst (connectWebSocket config isReconnect w)) by reflexivity.
  rewrite Hrun in Hexec, Heval. cbn [fst snd] in Hexec, Heval.
  split; [exact Heval|]. split; [rewrite Hexec; eauto|].
  split; [|done]. rewrite Hexec. unfold exec, clearReconnectTimer, modify.
  clear. by destruct w as [? ? ? ? ? [h|] ? ? ? ? ? ? ?].
Qed.

End SocketConstructed.

Section SocketConstructedExamples.
#[local] Existing Instance Example.runtime.

Lemma connectWebSocket_opens_socket_witness :
  wsClient (exec (connectWebSocket defaultConfig false) freshWorld) = Some streamSocket
  /\ wsConnected (connectionState (exec (connectWebSocket defaultConfig false) freshWorld))
     = false.
Proof.
  pose proof (connectWebSocket_opens_socket defaultConfig false freshWorld
                eq_refl eq_refl) as (_ & _ & Hconn & _).
  split; [vm_compute; reflexivity|].
  exact (f_equal wsConnected Hconn).
Defined.

End SocketConstructedExamples.
